(** * Tiler block remap (phase1_d2c_remap.c): a shallow embedding

    The file embeds [tiler_assisted_phase1_D2CReMap] and
    [tiler_assisted_phase1_DeMap] together with their helpers
    ([def_bpp], [def_stride], [def_size], [remap_cache_add],
    [remap_cache_del]) and proves properties of them.

    Conventions.
    - A value of a C integer type is a [Z] in the range of that type; every
      arithmetic operation of the source is followed by the wrap-around of
      the type it is computed in ([u32], [u16], [s32]).
    - The tiler driver, [mmap] and [munmap] are outside of the program: they
      are the fields of the class [TilerSys], over an abstract world [W].
      Every call to them is recorded, with its arguments and its answer, in
      the [log] of the program state.
    - Undefined behaviour of the C program (an integer division by zero, a
      read behind the end of an array) is the result [None]: the call
      gives no result.  So does a check that ends the process.
    - Diagnostic output ([P], [DP], [dump_block], [dump_buf], and the
      messages of the checking macros) is not part of the model. *)

From Stdlib Require Import ZArith List Lia Bool.
From stdpp Require Import base list.
Import ListNotations.
Local Open Scope Z_scope.

(** ** Machine integers *)

(** [uint32_t]; [bytes_t], [SSPtr], [DSPtr] and object pointers are of this
    width on the platform ([DeMap] casts a pointer to [uint32_t]). *)
Definition u32 (x : Z) : Z := x mod 2 ^ 32.

(** [uint16_t]; [pixels_t] and the two fields of [dim.area] are taken to
    be of this width (mem_types.h and tiler.h are not among the sources;
    [def_stride] widens its [pixels_t] argument to [bytes_t], and
    [dump_block] prints the two fields with [%d]). *)
Definition u16 (x : Z) : Z := x mod 2 ^ 16.

(** [int]. *)
Definition s32 (x : Z) : Z := (x + 2 ^ 31) mod 2 ^ 32 - 2 ^ 31.

(** Modelled from the spec: [PAGE_SIZE], a constant of the platform
    headers ("page size is a fixed platform constant, e.g. 4096"); the 63
    and 31 pages of line 247 are for pages of this size. *)
Definition PAGE_SIZE : Z := 4096.
Definition NULL : Z := 0.
(** [MAP_FAILED] is [(void * ) -1]. *)
Definition MAP_FAILED : Z := 2 ^ 32 - 1.

(** Modelled from the spec: [ROUND_DOWN_TO2POW(x, N)], a macro of utils.h,
    which is not among the sources ("the page-aligned floor" of the
    pointer): [x & ~(N - 1)], on [uint32_t]. *)
Definition ROUND_DOWN_TO2POW (x N : Z) : Z := Z.land x (u32 (Z.lnot (N - 1))).

(** ** Driver structures *)

(** [pixel_fmt_t] / [enum tiler_fmt]: the source uses the [PIXEL_FMT_] and
    the [TILFMT_] spelling for the same enumerators. *)
Inductive pixel_fmt_t :=
| PIXEL_FMT_8BIT
| PIXEL_FMT_16BIT
| PIXEL_FMT_32BIT
| PIXEL_FMT_PAGE
| PIXEL_FMT_OTHER (raw : Z).

Definition TILFMT_8BIT : pixel_fmt_t := PIXEL_FMT_8BIT.
Definition TILFMT_PAGE : pixel_fmt_t := PIXEL_FMT_PAGE.

Definition is_page (f : pixel_fmt_t) : bool :=
  match f with PIXEL_FMT_PAGE => true | _ => false end.
Definition is_8bit (f : pixel_fmt_t) : bool :=
  match f with PIXEL_FMT_8BIT => true | _ => false end.

(** [struct tiler_block_info].  [dim] is a union of [len] and [area];
    the record keeps the two members side by side.  The program reads a
    member only after a store to the same member, or from an answer of the
    driver ([len] for raw pages, [area] otherwise), and no statement of
    this development is about the member that was not the last written:
    in C a store to one member overwrites the other, which the record
    does not show. *)
Record tiler_block_info := mk_block {
  fmt : pixel_fmt_t;
  dim_len : Z;
  dim_area_width : Z;
  dim_area_height : Z;
  stride : Z;
  ptr : Z;
  ssptr : Z
}.

Definition set_ssptr (b : tiler_block_info) (v : Z) : tiler_block_info :=
  mk_block (fmt b) (dim_len b) (dim_area_width b) (dim_area_height b)
           (stride b) (ptr b) v.
Definition set_dim_len (b : tiler_block_info) (v : Z) : tiler_block_info :=
  mk_block (fmt b) v (dim_area_width b) (dim_area_height b)
           (stride b) (ptr b) (ssptr b).
Definition set_ptr (b : tiler_block_info) (v : Z) : tiler_block_info :=
  mk_block (fmt b) (dim_len b) (dim_area_width b) (dim_area_height b)
           (stride b) v (ssptr b).
Definition set_area (b : tiler_block_info) (w h s : Z) : tiler_block_info :=
  mk_block (fmt b) (dim_len b) w h s (ptr b) (ssptr b).

Definition zero_block : tiler_block_info :=
  mk_block PIXEL_FMT_8BIT 0 0 0 0 0 0.

(** [struct tiler_buf_info]; [blocks] is an array of
    [TILER_MAX_NUM_BLOCKS] elements. *)
Record tiler_buf_info := mk_buf {
  num_blocks : Z;
  blocks : list tiler_block_info;
  offset : Z
}.

Definition set_block (buf : tiler_buf_info) (ix : nat) (b : tiler_block_info)
  : tiler_buf_info :=
  mk_buf (num_blocks buf) (<[ix := b]> (blocks buf)) (offset buf).
Definition set_offset (buf : tiler_buf_info) (v : Z) : tiler_buf_info :=
  mk_buf (num_blocks buf) (blocks buf) v.

(** ** Block geometry *)

Definition def_bpp (pixelFormat : pixel_fmt_t) : Z :=
  match pixelFormat with
  | PIXEL_FMT_32BIT => 4
  | PIXEL_FMT_16BIT => 2
  | _ => 1
  end.

(** The parameter is a [pixels_t]: the argument is converted to 16 bits,
    then widened to [bytes_t]. *)
Definition def_stride (width : Z) : Z :=
  Z.land (u32 (PAGE_SIZE - 1 + u16 width)) (u32 (Z.lnot (PAGE_SIZE - 1))).

Definition def_size (blk : tiler_block_info) : Z :=
  if is_page (fmt blk) then dim_len blk
  else u32 (dim_area_height blk
            * def_stride (u32 (dim_area_width blk * def_bpp (fmt blk)))).

(** *** Stride resolution (the [else] branch of the block loop)

    The locals of the source, as functions of the block the driver answered
    with and of the length the caller passed. *)
Definition max_alloc_size (blk : tiler_block_info) : Z :=
  u32 (dim_area_height blk * PAGE_SIZE).
Definition min_alloc_size (blk : tiler_block_info) : Z :=
  u32 (max_alloc_size blk
       - (if is_8bit (fmt blk) then 63 else 31) * PAGE_SIZE).
Definition min_page_width (blk : tiler_block_info) (len : Z) : Z :=
  s32 (u32 (len + max_alloc_size blk - 1) / max_alloc_size blk).
(** [max_page_width] as first computed, and after the lowering to
    [dim.area.width / PAGE_SIZE]. *)
Definition max_page_width0 (blk : tiler_block_info) (len : Z) : Z :=
  s32 (u32 (len + min_alloc_size blk - 1) / min_alloc_size blk).
Definition max_page_width (blk : tiler_block_info) (len : Z) : Z :=
  if max_page_width0 blk len >? dim_area_width blk / PAGE_SIZE
  then dim_area_width blk / PAGE_SIZE
  else max_page_width0 blk len.

(** The comparisons of the two checks of the loop body, line 256 and
    line 268: the arguments of [CHK_I]. *)
Definition chk_page_width (blk : tiler_block_info) (len : Z) : bool :=
  min_page_width blk len <=? max_page_width blk len.
Definition chk_size (blk : tiler_block_info) (len : Z) : bool :=
  s32 (def_size blk) =? s32 len.

(** [CHK_I] is a macro of debug_utils.h, which is not among the sources;
    the function uses it as a statement of its own, and what it does when
    its comparison fails cannot be read off the function.  It can go on
    with the next statement, leave the function through [FAIL], or end
    the process. *)
Inductive chk_result := ChkNext | ChkFail | ChkExit.

(** Modelled from the spec: [CHK_I(a, cmp, b)] of debug_utils.h, which is
    not among the sources.  A comparison that holds lets the function go
    on; one that fails is fatal for the call and not for the process
    ("violation is a consistency fault ... and aborts the remap", "failure
    is a fatal consistency fault for that remap call", "should abort only
    the affected call, not the process"; such a fault is "surfaced ... as
    a null return", the session being closed "always, regardless of
    outcome"): the function leaves through [FAIL]. *)
Definition CHK_I_spec (holds : bool) : chk_result :=
  if holds then ChkNext else ChkFail.

(** Lines 246-266.  The divisions are the three of the source, in its
    order; a zero divisor is undefined behaviour. *)
Definition resolve_stride (blk : tiler_block_info) (len : Z)
  : option tiler_block_info :=
  if max_alloc_size blk =? 0 then None
  else if min_alloc_size blk =? 0 then None
  else
    let mpw := min_page_width blk len in
    if u32 mpw =? 0 then None
    else
      let height := u16 (len / PAGE_SIZE / u32 mpw) in
      let width := u16 (u32 (PAGE_SIZE * mpw) / def_bpp (fmt blk)) in
      Some (set_area blk width height width).

(** Lines 237-267: what the loop body stores in [buf.blocks[ix]]. *)
Definition resolve_block (blk : tiler_block_info) (len : Z)
  : option tiler_block_info :=
  if is_page (fmt blk) then Some (set_dim_len blk len)
  else resolve_stride blk len.

(** A block as the driver can answer with: 16-bit width and height. *)
Definition area_in_range (blk : tiler_block_info) : Prop :=
  0 <= dim_area_width blk < 2 ^ 16 /\ 0 <= dim_area_height blk < 2 ^ 16.


(** The conditions under which lines 246-266 are defined, for a 2-D block
    [blk] as the driver answered and the length [len] of the caller: no
    divisor is zero, the sum of line 248 fits [bytes_t], and the page
    width found fits a 16-bit [width] whatever the format. *)
Definition resolver_defined (blk : tiler_block_info) (len : Z) : Prop :=
  0 < dim_area_height blk /\
  min_alloc_size blk <> 0 /\
  0 < len /\
  len + dim_area_height blk * PAGE_SIZE - 1 < 2 ^ 32 /\
  min_page_width blk len <= 15.

(** The same with the comparison of line 256 in place of the bound on the
    page width: the bound follows, as [max_page_width] is at most
    [dim.area.width / PAGE_SIZE]. *)
Definition resolver_pre (blk : tiler_block_info) (len : Z) : Prop :=
  0 < dim_area_height blk /\
  min_alloc_size blk <> 0 /\
  0 < len /\
  len + dim_area_height blk * PAGE_SIZE - 1 < 2 ^ 32 /\
  chk_page_width blk len = true.

(** ** The buffer-handle cache

    [bufs] is a doubly linked list of [struct _ReMapData]; it is kept here
    as the list of its elements from the head on.  The list macros are
    those of list_utils.h, which is not among the sources.  [che_mutex]
    serialises the two operations; the model is sequential.  [NEW] is
    taken to succeed. *)
Record _ReMapData := mk_ReMapData {
  bufPtr : Z;
  tiler_id : Z
}.

(** [DLIST_MADD_BEFORE(bufs, ad, link)]: the new element goes before the
    head, which is the end of the list. *)
Definition remap_cache_add (p : Z) (id : Z) (bufs : list _ReMapData)
  : list _ReMapData :=
  bufs ++ [mk_ReMapData p id].

(** [DLIST_MLOOP] walks the list from the head on; the first element with
    the pointer is unlinked and its id returned, 0 when there is none. *)
Fixpoint remap_cache_del (p : Z) (bufs : list _ReMapData)
  : Z * list _ReMapData :=
  match bufs with
  | [] => (0, [])
  | ad :: rest =>
      if bufPtr ad =? p then (tiler_id ad, rest)
      else let '(id, rest') := remap_cache_del p rest in (id, ad :: rest')
  end.

(** ** The environment *)

(** The calls the program makes, with their arguments and answers. *)
Inductive event :=
| EvOpen (td : Z)
| EvQueryBlk (td : Z) (arg : tiler_block_info) (res : Z)
             (out : tiler_block_info)
| EvRBuf (td : Z) (arg : tiler_buf_info) (res : Z) (out : tiler_buf_info)
| EvQBuf (td : Z) (arg : tiler_buf_info) (res : Z) (out : tiler_buf_info)
| EvURBuf (td : Z) (arg : tiler_buf_info) (res : Z)
| EvMmap (size td off : Z) (res : Z)
| EvMunmap (addr size : Z) (res : Z)
| EvClose (td : Z).

(** The driver and the mapping service.  An [ioctl] answers with its
    return value and, for the requests that write back, with the new
    content of the structure it was given. *)
Class TilerSys (W : Type) := {
  (** [open("/dev/tiler", O_RDWR | O_SYNC)] *)
  sys_open : W -> Z * W;
  (** [ioctl(td, TILIOC_QUERY_BLK, blk)] *)
  sys_query_blk : Z -> tiler_block_info -> W -> Z * tiler_block_info * W;
  (** [ioctl(td, TILIOC_RBUF, buf)] *)
  sys_rbuf : Z -> tiler_buf_info -> W -> Z * tiler_buf_info * W;
  (** [ioctl(td, TILIOC_QBUF, buf)] *)
  sys_qbuf : Z -> tiler_buf_info -> W -> Z * tiler_buf_info * W;
  (** [ioctl(td, TILIOC_URBUF, buf)] *)
  sys_urbuf : Z -> tiler_buf_info -> W -> Z * W;
  (** [mmap(0, size, PROT_READ | PROT_WRITE, MAP_SHARED, td, off)] *)
  sys_mmap : Z -> Z -> Z -> W -> Z * W;
  (** [munmap(addr, size)] *)
  sys_munmap : Z -> Z -> W -> Z * W;
  (** [close(td)] *)
  sys_close : Z -> W -> W
}.

(** Where [goto FAIL] can leave the block loop. *)
Inductive flow (A : Type) :=
| Next (a : A)
| GotoFail.
Arguments Next {A} a.
Arguments GotoFail {A}.

(** A world for the examples: it answers every call with the values of a
    script.  A block query keeps the [ssptr] of the request and fills in
    format and area; a registration fills in the offset; a buffer query
    answers with the block list of the script. *)
Record script := mk_script {
  sc_open : Z;
  sc_query : Z * pixel_fmt_t * Z * Z;
  sc_rbuf : Z * Z;
  sc_qbuf : Z * Z * list tiler_block_info;
  sc_urbuf : Z;
  sc_mmap : Z;
  sc_munmap : Z
}.

#[global] Instance script_sys : TilerSys script := {
  sys_open w := (sc_open w, w);
  sys_query_blk td blk w :=
    let '(res, f, width, height) := sc_query w in
    (res, mk_block f (dim_len blk) width height (stride blk) (ptr blk)
                   (ssptr blk), w);
  sys_rbuf td buf w :=
    let '(res, off) := sc_rbuf w in (res, set_offset buf off, w);
  sys_qbuf td buf w :=
    let '(res, n, blks) := sc_qbuf w in
    (res, mk_buf n blks (offset buf), w);
  sys_urbuf td buf w := (sc_urbuf w, w);
  sys_mmap size td off w := (sc_mmap w, w);
  sys_munmap addr size w := (sc_munmap w, w);
  sys_close td w := w
}.

(** The block list the driver of the examples answers a buffer query
    with: one 32-bit block of 2 pages by 64 rows, in an array of 16. *)
Definition example_blocks : list tiler_block_info :=
  mk_block PIXEL_FMT_32BIT 0 2048 64 2048 0 1610612736
  :: replicate 15 zero_block.

(** The driver of the examples gives descriptor 3, knows every block as a
    32-bit area of 2 pages by 64 rows, registers with offset 4096, and
    maps at 0x40000000. *)
Definition area_world : script :=
  mk_script 3 (0, PIXEL_FMT_32BIT, 8192, 64) (0, 4096)
            (0, 1, example_blocks) 0 1073741824 0.

(** The same driver, failing every buffer query. *)
Definition qbuf_fail_world : script :=
  mk_script 3 (0, PIXEL_FMT_32BIT, 8192, 64) (0, 4096)
            (-1, 0, replicate 16 zero_block) 0 1073741824 0.

(** The same driver in a process whose address space is exhausted:
    [mmap] answers [MAP_FAILED]. *)
Definition fail_map_world : script :=
  mk_script 3 (0, PIXEL_FMT_32BIT, 8192, 64) (0, 4096)
            (0, 1, example_blocks) 0 MAP_FAILED 0.

(** A driver that knows every block as raw pages, and answers a buffer
    query with two of them, of one and of two pages. *)
Definition page_world : script :=
  mk_script 3 (0, PIXEL_FMT_PAGE, 0, 0) (0, 4096)
            (0, 2, mk_block PIXEL_FMT_PAGE 4096 0 0 0 0 1610612736
                   :: mk_block PIXEL_FMT_PAGE 8192 0 0 0 0 1610678272
                   :: replicate 14 zero_block)
            0 1073741824 0.


(** Further drivers for the examples: one that cannot be opened, one that
    fails every block query, one that refuses every registration, one
    whose [mmap] answers address 0, and one that knows every block as a
    32-bit area of 4 pages by 64 rows. *)
Definition no_driver_world : script :=
  mk_script (-1) (0, PIXEL_FMT_32BIT, 8192, 64) (0, 4096)
            (0, 1, example_blocks) 0 1073741824 0.
Definition query_fail_world : script :=
  mk_script 3 (-1, PIXEL_FMT_32BIT, 8192, 64) (0, 4096)
            (0, 1, example_blocks) 0 1073741824 0.
Definition rbuf_fail_world : script :=
  mk_script 3 (0, PIXEL_FMT_32BIT, 8192, 64) (-1, 0)
            (0, 1, example_blocks) 0 1073741824 0.
Definition null_map_world : script :=
  mk_script 3 (0, PIXEL_FMT_32BIT, 8192, 64) (0, 4096)
            (0, 1, example_blocks) 0 0 0.

Section Program.

Context {W : Type} `{TilerSys W}.

(** [TILER_MAX_NUM_BLOCKS] (tiler.h) and [REMAP_ERR_GENERIC]
    (phase1_d2c_remap.h). *)
Variable TILER_MAX_NUM_BLOCKS : Z.
Variable REMAP_ERR_GENERIC : Z.

(** [CHK_I] (debug_utils.h), as a parameter: what the statement does, given
    whether its comparison holds.  See [chk_result] and [CHK_I_spec]. *)
Variable CHK_I : bool -> chk_result.

(** The state of the process: the world, the cache [bufs], and the calls
    made so far, oldest first. *)
Record state := mk_state {
  world : W;
  bufs : list _ReMapData;
  log : list event
}.

(** Computations: [None] is undefined behaviour, or the end of the
    process. *)
Definition M (A : Type) : Type := state -> option (A * state).

#[global] Instance M_ret : MRet M := fun A a s => Some (a, s).
#[global] Instance M_bind : MBind M := fun A B k m s =>
  match m s with
  | Some (a, s') => k a s'
  | None => None
  end.
Definition undefined {A} : M A := fun _ => None.

(** [a[ix]] for an array passed by the caller or held in a structure. *)
Definition read {A} (a : list A) (ix : nat) : M A :=
  match a !! ix with
  | Some x => mret x
  | None => undefined
  end.

Definition do_open : M Z :=
  fun s => let '(td, w) := sys_open (world s) in
           Some (td, mk_state w (bufs s) (log s ++ [EvOpen td])).
Definition do_query_blk (td : Z) (blk : tiler_block_info)
  : M (Z * tiler_block_info) :=
  fun s => let '(res, out, w) := sys_query_blk td blk (world s) in
           Some ((res, out),
                 mk_state w (bufs s) (log s ++ [EvQueryBlk td blk res out])).
Definition do_rbuf (td : Z) (buf : tiler_buf_info) : M (Z * tiler_buf_info) :=
  fun s => let '(res, out, w) := sys_rbuf td buf (world s) in
           Some ((res, out),
                 mk_state w (bufs s) (log s ++ [EvRBuf td buf res out])).
Definition do_qbuf (td : Z) (buf : tiler_buf_info) : M (Z * tiler_buf_info) :=
  fun s => let '(res, out, w) := sys_qbuf td buf (world s) in
           Some ((res, out),
                 mk_state w (bufs s) (log s ++ [EvQBuf td buf res out])).
Definition do_urbuf (td : Z) (buf : tiler_buf_info) : M Z :=
  fun s => let '(res, w) := sys_urbuf td buf (world s) in
           Some (res, mk_state w (bufs s) (log s ++ [EvURBuf td buf res])).
Definition do_mmap (size td off : Z) : M Z :=
  fun s => let '(res, w) := sys_mmap size td off (world s) in
           Some (res, mk_state w (bufs s) (log s ++ [EvMmap size td off res])).
Definition do_munmap (addr size : Z) : M Z :=
  fun s => let '(res, w) := sys_munmap addr size (world s) in
           Some (res, mk_state w (bufs s) (log s ++ [EvMunmap addr size res])).
Definition do_close (td : Z) : M unit :=
  fun s => Some (tt, mk_state (sys_close td (world s)) (bufs s)
                              (log s ++ [EvClose td])).

Definition cache_add (p id : Z) : M unit :=
  fun s => Some (tt, mk_state (world s) (remap_cache_add p id (bufs s))
                              (log s)).
Definition cache_del (p : Z) : M Z :=
  fun s => let '(id, rest) := remap_cache_del p (bufs s) in
           Some (id, mk_state (world s) rest (log s)).

(** ** Remap *)

(** The checking macros of debug_utils.h, which is not among the
    sources, as the two functions use them:
    - [NOT_x(a, cmp, b)] guards every exit: it is true when [a cmp b] does
      not hold;
    - [A_x(a, cmp, b)] has the value of [a]: line 336 stores it in [ret]
      and line 341 tests [!ret] for success, line 332 tests [buf.offset]
      through it;
    - [CHK_I(a, cmp, b)] is a statement, see [check];
    - [IN], [R_P] and [R_I] trace entry and return. *)

(** A [CHK_I] statement. *)
Definition check (holds : bool) : M (flow unit) :=
  match CHK_I holds with
  | ChkNext => mret (Next tt)
  | ChkFail => mret GotoFail
  | ChkExit => undefined
  end.

(** Lines 237-267: the block that is stored in [buf.blocks[ix]], after
    the check of line 256 for a 2-D block.  The two divisions of lines 248
    and 249 come before the check, the two of lines 264 and 265 after
    it. *)
Definition resolve_checked (blk : tiler_block_info) (len : Z)
  : M (flow tiler_block_info) :=
  if is_page (fmt blk) then mret (Next (set_dim_len blk len))
  else if (max_alloc_size blk =? 0) || (min_alloc_size blk =? 0)
  then undefined
  else
    (* CHK_I(min_page_width,<=,max_page_width) *)
    c ← check (chk_page_width blk len);
    match c with
    | GotoFail => mret GotoFail
    | Next _ =>
        match resolve_stride blk len with
        | None => undefined
        | Some blk => mret (Next blk)
        end
    end.

(** One turn of the block loop (lines 215-271). *)
Definition remap_block (td : Z) (dsptrs lengths : list Z) (ix : nat)
    (buf : tiler_buf_info) (size : Z) : M (flow (tiler_buf_info * Z)) :=
  d ← read dsptrs ix;
  blk ← read (blocks buf) ix;
  (* buf.blocks[ix].ssptr = (dsptrs[ix]) *)
  let blk := set_ssptr blk d in
  if ssptr blk =? 0 then mret GotoFail
  else
    '(res, blk) ← do_query_blk td blk;
    if negb (res =? 0) || (ssptr blk =? 0) then mret GotoFail
    else
      len ← read lengths ix;
      r ← resolve_checked blk len;
      match r with
      | GotoFail => mret GotoFail
      | Next blk =>
          (* CHK_I(def_size(buf.blocks + ix),==,lengths[ix]) *)
          c ← check (chk_size blk len);
          match c with
          | GotoFail => mret GotoFail
          | Next _ =>
              mret (Next (set_block buf ix blk, u32 (size + def_size blk)))
          end
      end.

(** [for (ix = 0; ix < num_blocks; ix++)], [todo] turns being left. *)
Fixpoint remap_blocks (td : Z) (dsptrs lengths : list Z) (todo ix : nat)
    (buf : tiler_buf_info) (size : Z) : M (flow (tiler_buf_info * Z)) :=
  match todo with
  | O => mret (Next (buf, size))
  | S todo' =>
      r ← remap_block td dsptrs lengths ix buf size;
      match r with
      | GotoFail => mret GotoFail
      | Next (buf', size') =>
          remap_blocks td dsptrs lengths todo' (S ix) buf' size'
      end
  end.

(** Lines 302-307: the pointers are written into the local [buf], which is
    dropped when the function returns. *)
Fixpoint fill_pointers (p : Z) (todo ix : nat) (buf : tiler_buf_info)
    (size : Z) : tiler_buf_info :=
  match todo with
  | O => buf
  | S todo' =>
      match blocks buf !! ix with
      | None => buf
      | Some b =>
          fill_pointers p todo' (S ix)
            (set_block buf ix (set_ptr b (u32 (p + size))))
            (u32 (size + def_size b))
      end
  end.

(** [ZERO(buf)]. *)
Definition zero_buf : tiler_buf_info :=
  mk_buf 0 (replicate (Z.to_nat TILER_MAX_NUM_BLOCKS) zero_block) 0.

Definition tiler_assisted_phase1_D2CReMap (n : Z) (dsptrs lengths : list Z)
  : M Z :=
  if negb (0 <? n) || negb (n <=? TILER_MAX_NUM_BLOCKS) then mret NULL
  else
    let buf := mk_buf n (blocks zero_buf) (offset zero_buf) in
    td ← do_open;
    if negb (0 <=? td) then mret NULL
    else
      r ← remap_blocks td dsptrs lengths (Z.to_nat n) 0 buf 0;
      match r with
      | GotoFail => do_close td;; mret NULL
      | Next (buf, size) =>
          '(res, buf) ← do_rbuf td buf;
          if negb (res =? 0) || (offset buf =? 0) then
            do_close td;; mret NULL
          else
            p ← do_mmap size td (offset buf);
            p ← (if p =? MAP_FAILED then mret NULL
                 else
                   b0 ← read (blocks buf) 0;
                   mret (u32 (p + Z.land (ssptr b0) (PAGE_SIZE - 1))));
            if p =? NULL then
              (* A_I(ioctl(td, TILIOC_URBUF, &buf),==,0) *)
              do_urbuf td buf;; do_close td;; mret p
            else
              cache_add p (offset buf);;
              let _ := fill_pointers p (Z.to_nat n) 0 buf 0 in
              do_close td;; mret p
      end.

(** ** Demap *)

(** Modelled from the spec: [ERR_ADD(err, exp)] of debug_utils.h, which is
    not among the sources ("accumulate any unmap error into the result
    code"): [exp] is evaluated whatever [err] holds; an error already in
    [err] stays, otherwise [err] takes the value of [exp]. *)
Definition ERR_ADD (err e : Z) : Z := if err =? 0 then e else err.

(** Lines 348-352. *)
Fixpoint sum_def_size (blks : list tiler_block_info) (todo ix : nat)
    (size : Z) : option Z :=
  match todo with
  | O => Some size
  | S todo' =>
      match blks !! ix with
      | None => None
      | Some b => sum_def_size blks todo' (S ix) (u32 (size + def_size b))
      end
  end.

Definition tiler_assisted_phase1_DeMap (p : Z) : M Z :=
  td ← do_open;
  if negb (0 <=? td) then mret REMAP_ERR_GENERIC
  else
    id ← cache_del p;
    let buf := set_offset zero_buf id in
    r ← (if negb (offset buf =? 0) then
           '(r, buf) ← do_qbuf td buf;
           if r =? 0 then
             r ← do_urbuf td buf;
             match sum_def_size (blocks buf) (Z.to_nat (num_blocks buf)) 0 0
             with
             | None => undefined
             | Some size =>
                 let p := ROUND_DOWN_TO2POW (u32 p) PAGE_SIZE in
                 e ← do_munmap p size;
                 mret (ERR_ADD r e)
             end
           else mret r
         else mret REMAP_ERR_GENERIC);
    do_close td;; mret r.

(** ** The two calls as relations on the cache and the log *)

(** The sum of [def_size] over a list of blocks, in [Z]. *)
Definition total_def_size (blks : list tiler_block_info) : Z :=
  foldr (fun b acc => def_size b + acc) 0 blks.

(** The blocks of a buffer: the first [num_blocks] elements of the
    array. *)
Definition queried_blocks (buf : tiler_buf_info) : list tiler_block_info :=
  take (Z.to_nat (num_blocks buf)) (blocks buf).

(** The two checks of a turn, for the block [out] the driver answered with
    and the length [len] of the caller: [CHK_I] lets both pass and [b] is
    stored, or one of them leaves through [FAIL] -- the check of line 256,
    made for a 2-D block after the divisions of lines 248 and 249, or the
    check of line 268, made for the block as resolved. *)
Definition geometry_passed (out : tiler_block_info) (len : Z)
    (b : tiler_block_info) : Prop :=
  resolve_block out len = Some b /\
  (is_page (fmt out) = false ->
   CHK_I (chk_page_width out len) = ChkNext) /\
  CHK_I (chk_size b len) = ChkNext.

Definition geometry_fault (out : tiler_block_info) (len : Z) : Prop :=
  (is_page (fmt out) = false /\
   max_alloc_size out <> 0 /\ min_alloc_size out <> 0 /\
   CHK_I (chk_page_width out len) = ChkFail) \/
  (exists b,
     resolve_block out len = Some b /\
     (is_page (fmt out) = false ->
      CHK_I (chk_page_width out len) = ChkNext) /\
     CHK_I (chk_size b len) = ChkFail).

(** The queries of the block loop, from the block of device pointer [d]
    on: each is made for a non-zero device pointer, taken as it is for the
    [ssptr] of the request. *)
Inductive query_trace (td : Z) : list Z -> list event -> Prop :=
| qt_nil ds : query_trace td ds []
| qt_cons d ds blk res out qs :
    d <> 0 -> ssptr blk = d ->
    query_trace td ds qs ->
    query_trace td (d :: ds) (EvQueryBlk td blk res out :: qs).

(** Why the block loop was left through [FAIL], as the queries [qs] made
    from block [ix] on show it: the device pointer of the next block is
    zero (line 217), the last query did not succeed (line 228), or a check
    on the block it answered with has left the loop. *)
Definition loop_fault (td : Z) (dsptrs : list Z) (ix : nat)
    (qs : list event) : Prop :=
  dsptrs !! (ix + length qs)%nat = Some 0 \/
  (exists qs0 blk res out,
     qs = qs0 ++ [EvQueryBlk td blk res out] /\
     (res <> 0 \/ ssptr out = 0)) \/
  (exists qs0 blk out len,
     qs = qs0 ++ [EvQueryBlk td blk 0 out] /\
     ssptr out <> 0 /\ geometry_fault out len).

(** What a call of [tiler_assisted_phase1_D2CReMap n dsptrs lengths] can
    return, leave in the cache and add to the log; one rule for each way
    through the function. *)
Inductive remap_trace (n : Z) (dsptrs : list Z) (cache : list _ReMapData)
  : Z -> list _ReMapData -> list event -> Prop :=
| rt_bad_count :
    ~ (0 < n <= TILER_MAX_NUM_BLOCKS) ->
    remap_trace n dsptrs cache NULL cache []
| rt_no_driver td :
    0 < n <= TILER_MAX_NUM_BLOCKS -> td < 0 ->
    remap_trace n dsptrs cache NULL cache [EvOpen td]
| rt_block_fail td qs :
    0 < n <= TILER_MAX_NUM_BLOCKS -> 0 <= td ->
    query_trace td dsptrs qs ->
    (length qs <= Z.to_nat n)%nat ->
    loop_fault td dsptrs 0 qs ->
    remap_trace n dsptrs cache NULL cache
      (EvOpen td :: qs ++ [EvClose td])
| rt_rbuf_fail td qs buf res buf' :
    0 < n <= TILER_MAX_NUM_BLOCKS -> 0 <= td ->
    query_trace td dsptrs qs -> length qs = Z.to_nat n ->
    res <> 0 \/ offset buf' = 0 ->
    remap_trace n dsptrs cache NULL cache
      (EvOpen td :: qs ++ [EvRBuf td buf res buf'; EvClose td])
| rt_map_fail td qs buf buf' size p ur :
    0 < n <= TILER_MAX_NUM_BLOCKS -> 0 <= td ->
    query_trace td dsptrs qs -> length qs = Z.to_nat n ->
    size = u32 (total_def_size (queried_blocks buf)) ->
    offset buf' <> 0 ->
    p = MAP_FAILED \/
      (exists b0, blocks buf' !! 0%nat = Some b0 /\
                  u32 (p + Z.land (ssptr b0) (PAGE_SIZE - 1)) = NULL) ->
    remap_trace n dsptrs cache NULL cache
      (EvOpen td :: qs ++ [EvRBuf td buf 0 buf';
                           EvMmap size td (offset buf') p;
                           EvURBuf td buf' ur; EvClose td])
| rt_mapped td qs buf buf' size p b0 :
    0 < n <= TILER_MAX_NUM_BLOCKS -> 0 <= td ->
    query_trace td dsptrs qs -> length qs = Z.to_nat n ->
    size = u32 (total_def_size (queried_blocks buf)) ->
    offset buf' <> 0 -> p <> MAP_FAILED ->
    blocks buf' !! 0%nat = Some b0 ->
    u32 (p + Z.land (ssptr b0) (PAGE_SIZE - 1)) <> NULL ->
    remap_trace n dsptrs cache
      (u32 (p + Z.land (ssptr b0) (PAGE_SIZE - 1)))
      (remap_cache_add (u32 (p + Z.land (ssptr b0) (PAGE_SIZE - 1)))
                       (offset buf') cache)
      (EvOpen td :: qs ++ [EvRBuf td buf 0 buf';
                           EvMmap size td (offset buf') p; EvClose td]).

(** The same for [tiler_assisted_phase1_DeMap p]. *)
Inductive demap_trace (p : Z) (cache : list _ReMapData)
  : Z -> list _ReMapData -> list event -> Prop :=
| dt_no_driver td :
    td < 0 ->
    demap_trace p cache REMAP_ERR_GENERIC cache [EvOpen td]
| dt_miss td cache' :
    0 <= td -> remap_cache_del p cache = (0, cache') ->
    demap_trace p cache REMAP_ERR_GENERIC cache' [EvOpen td; EvClose td]
| dt_query_fail td id cache' res buf' :
    0 <= td -> remap_cache_del p cache = (id, cache') -> id <> 0 ->
    res <> 0 ->
    demap_trace p cache res cache'
      [EvOpen td; EvQBuf td (set_offset zero_buf id) res buf'; EvClose td]
| dt_unmapped td id cache' buf' ur size um :
    0 <= td -> remap_cache_del p cache = (id, cache') -> id <> 0 ->
    sum_def_size (blocks buf') (Z.to_nat (num_blocks buf')) 0 0
      = Some size ->
    demap_trace p cache (ERR_ADD ur um) cache'
      [EvOpen td; EvQBuf td (set_offset zero_buf id) 0 buf';
       EvURBuf td buf' ur;
       EvMunmap (ROUND_DOWN_TO2POW (u32 p) PAGE_SIZE) size um;
       EvClose td].

(** The [ssptr] fields of the block queries of a log, in the order of the
    queries. *)
Fixpoint query_ssptrs (evs : list event) : list Z :=
  match evs with
  | [] => []
  | EvQueryBlk _ blk _ _ :: evs' => ssptr blk :: query_ssptrs evs'
  | _ :: evs' => query_ssptrs evs'
  end.

(** A registration request in the log. *)
Definition is_rbuf (e : event) : bool :=
  match e with EvRBuf _ _ _ _ => true | _ => false end.

(** The state of a process that has not called yet. *)
Definition start (w : W) : state := mk_state w [] [].

(** Whether the cache holds an element for the pointer. *)
Definition has_entry (p : Z) (cache : list _ReMapData) : bool :=
  existsb (fun ad => bufPtr ad =? p) cache.

(** Opening and closing the driver session. *)
Definition is_session (e : event) : bool :=
  match e with EvOpen _ | EvClose _ => true | _ => false end.


(** ** Registered and mapped buffers, read off the log

    What the driver and the address space hold is not visible to the
    program; the log tells it.  A buffer is registered from a successful
    [TILIOC_RBUF], with the blocks of the request and under the offset the
    driver answered, until a successful [TILIOC_URBUF] for that offset.  A
    region is mapped from a successful [mmap], at the address it answered,
    with the size and for the offset it was given, as long as no
    successful [munmap] has taken a page of it away. *)
Record region := mk_region {
  r_addr : Z;
  r_size : Z;
  r_off : Z
}.

Record ghost := mk_ghost {
  registered : list (Z * list tiler_block_info);
  mapped : list region
}.

(** [size] bytes, in whole pages. *)
Definition page_up (size : Z) : Z :=
  PAGE_SIZE * ((size + (PAGE_SIZE - 1)) / PAGE_SIZE).

(** The pages of [s1] bytes from [a1] on and those of [s2] bytes from
    [a2] on have a page in common. *)
Definition overlaps (a1 s1 a2 s2 : Z) : bool :=
  (a1 <? a2 + page_up s2) && (a2 <? a1 + page_up s1).

Definition ghost_step (g : ghost) (e : event) : ghost :=
  match e with
  | EvRBuf _ buf res out =>
      if res =? 0
      then mk_ghost ((offset out, queried_blocks buf) :: registered g)
                    (mapped g)
      else g
  | EvURBuf _ buf res =>
      if res =? 0
      then mk_ghost (filter (fun r => fst r <> offset buf) (registered g))
                    (mapped g)
      else g
  | EvMmap size _ off res =>
      if res =? MAP_FAILED then g
      else mk_ghost (registered g) (mk_region res size off :: mapped g)
  | EvMunmap addr size res =>
      if res =? 0
      then mk_ghost (registered g)
                    (filter (fun m => overlaps addr size (r_addr m) (r_size m)
                                      = false)
                            (mapped g))
      else g
  | _ => g
  end.

Definition ghost_after (g : ghost) (evs : list event) : ghost :=
  fold_left ghost_step evs g.

Definition ghost_of (evs : list event) : ghost :=
  ghost_after (mk_ghost [] []) evs.

(** The buffer with offset [id] is registered, and mapped at [base] with
    the size of its blocks. *)
Definition live (g : ghost) (base id : Z) : Prop :=
  exists blks,
    (id, blks) ∈ registered g /\
    mk_region base (u32 (total_def_size blks)) id ∈ mapped g.

(** The page of a pointer, as line 353 computes it. *)
Definition page_floor (p : Z) : Z := ROUND_DOWN_TO2POW (u32 p) PAGE_SIZE.

(** The invariant of the data model, as the specification states it: at
    most one element for a pointer, and an element for a buffer exactly
    when the buffer is registered and mapped. *)
Definition cache_iff_live (s : state) : Prop :=
  NoDup (bufPtr <$> bufs s) /\
  (forall ad, ad ∈ bufs s ->
     live (ghost_of (log s)) (page_floor (bufPtr ad)) (tiler_id ad)) /\
  (forall base id, live (ghost_of (log s)) base id ->
     exists ad, ad ∈ bufs s /\
                page_floor (bufPtr ad) = base /\ tiler_id ad = id).

(** The half of it that the two calls keep. *)
Definition cache_entries_live (s : state) : Prop :=
  NoDup (bufPtr <$> bufs s) /\
  (forall ad, ad ∈ bufs s ->
     live (ghost_of (log s)) (page_floor (bufPtr ad)) (tiler_id ad)).

(** The form in which it is kept: the elements of the cache also differ
    in their ids and in their pages, an offset is registered once, and
    regions that are mapped at different addresses have no page in
    common. *)
Definition cache_ids (cache : list _ReMapData) : list Z :=
  tiler_id <$> cache.
Definition cache_pages (cache : list _ReMapData) : list Z :=
  (fun ad => page_floor (bufPtr ad)) <$> cache.
Definition ghost_ok (g : ghost) : Prop :=
  NoDup (fst <$> registered g) /\
  (forall m1 m2,
     m1 ∈ mapped g -> m2 ∈ mapped g -> r_addr m1 <> r_addr m2 ->
     overlaps (r_addr m1) (r_size m1) (r_addr m2) (r_size m2) = false).
Definition inv_g (g : ghost) (cache : list _ReMapData) : Prop :=
  NoDup (cache_ids cache) /\
  NoDup (cache_pages cache) /\
  ghost_ok g /\
  (forall ad, ad ∈ cache ->
     live g (page_floor (bufPtr ad)) (tiler_id ad)).

(** What is assumed of the environment: a registration answers with an
    offset that is not in use; a buffer query leaves the offset of the
    request and answers with the blocks that were registered under it;
    and [mmap] answers with the address of a page, at which no region is
    mapped, the pages from there on being free. *)
Definition fresh (g : ghost) (e : event) : Prop :=
  match e with
  | EvRBuf _ _ res out => res = 0 -> offset out ∉ fst <$> registered g
  | EvQBuf _ arg res out =>
      res = 0 ->
      offset out = offset arg /\
      forall blks, (offset arg, blks) ∈ registered g ->
                   queried_blocks out = blks
  | EvMmap size _ _ res =>
      res <> MAP_FAILED ->
      0 <= res < 2 ^ 32 /\ res mod PAGE_SIZE = 0 /\
      forall m, m ∈ mapped g ->
                r_addr m <> res /\
                overlaps res size (r_addr m) (r_size m) = false
  | _ => True
  end.

Fixpoint env_ok (g : ghost) (evs : list event) : Prop :=
  match evs with
  | [] => True
  | e :: evs' => fresh g e /\ env_ok (ghost_step g e) evs'
  end.

(** Calls of the two functions, one after the other. *)
Inductive call :=
| CallReMap (n : Z) (dsptrs lengths : list Z)
| CallDeMap (p : Z).

Definition exec (c : call) (s : state) : option state :=
  match c with
  | CallReMap n dsptrs lengths =>
      snd <$> tiler_assisted_phase1_D2CReMap n dsptrs lengths s
  | CallDeMap p => snd <$> tiler_assisted_phase1_DeMap p s
  end.

Fixpoint run (cs : list call) (s : state) : option state :=
  match cs with
  | [] => Some s
  | c :: cs' =>
      match exec c s with
      | Some s' => run cs' s'
      | None => None
      end
  end.

(** A computation that has returned through [mret]. *)
Ltac inv_ret H := unfold mret, M_ret in H; injection H as <- <-.

(** * Properties *)

(** ** Machine arithmetic *)

Lemma u32_small (x : Z) : 0 <= x < 2 ^ 32 -> u32 x = x.
Proof. intros Hx. unfold u32. now apply Z.mod_small. Qed.

Lemma u16_small (x : Z) : 0 <= x < 2 ^ 16 -> u16 x = x.
Proof. intros Hx. unfold u16. now apply Z.mod_small. Qed.

Lemma s32_small (x : Z) : - 2 ^ 31 <= x < 2 ^ 31 -> s32 x = x.
Proof. intros Hx. unfold s32. rewrite Z.mod_small; lia. Qed.

Lemma u32_range (x : Z) : 0 <= u32 x < 2 ^ 32.
Proof. unfold u32. apply Z.mod_pos_bound. lia. Qed.

(** Masking with [~(PAGE_SIZE - 1)] is rounding down to a page. *)
Lemma land_page_mask (x : Z) :
  0 <= x < 2 ^ 32 ->
  Z.land x (u32 (Z.lnot (PAGE_SIZE - 1))) = PAGE_SIZE * (x / PAGE_SIZE).
Proof.
  intros Hx.
  assert (Hm : u32 (Z.lnot (PAGE_SIZE - 1))
               = Z.land (Z.lnot (Z.ones 12)) (Z.ones 32)).
  { rewrite Z.land_ones by lia. reflexivity. }
  rewrite Hm, (Z.land_comm (Z.lnot _)), Z.land_assoc.
  rewrite (Z.land_ones x 32) by lia.
  rewrite (Z.mod_small x) by lia.
  rewrite <- Z.ldiff_land, Z.ldiff_ones_r by lia.
  rewrite Z.shiftl_mul_pow2, Z.shiftr_div_pow2 by lia.
  change (2 ^ 12) with PAGE_SIZE. lia.
Qed.

Lemma ROUND_DOWN_TO2POW_page (x : Z) :
  0 <= x < 2 ^ 32 ->
  ROUND_DOWN_TO2POW x PAGE_SIZE = PAGE_SIZE * (x / PAGE_SIZE).
Proof. apply land_page_mask. Qed.

Lemma def_stride_round_up (w : Z) :
  0 <= w < 2 ^ 16 ->
  def_stride w = PAGE_SIZE * ((w + (PAGE_SIZE - 1)) / PAGE_SIZE).
Proof.
  intros Hw. unfold def_stride.
  rewrite (u16_small w) by lia.
  assert (HP : PAGE_SIZE = 4096) by reflexivity.
  rewrite u32_small by lia.
  rewrite land_page_mask by lia.
  f_equal. f_equal. lia.
Qed.

Lemma def_stride_pages (k : Z) :
  0 <= k <= 15 -> def_stride (PAGE_SIZE * k) = PAGE_SIZE * k.
Proof.
  intros Hk. assert (HP : PAGE_SIZE = 4096) by reflexivity.
  rewrite def_stride_round_up by lia.
  f_equal. rewrite HP.
  replace (4096 * k + (4096 - 1)) with (k * 4096 + 4095) by lia.
  rewrite Z.div_add_l by lia. change (4095 / 4096) with 0. lia.
Qed.

(** ** The geometry resolver *)

Lemma max_alloc_size_eq (blk : tiler_block_info) :
  area_in_range blk ->
  max_alloc_size blk = dim_area_height blk * PAGE_SIZE.
Proof.
  intros [_ Hh]. unfold max_alloc_size.
  assert (HP : PAGE_SIZE = 4096) by reflexivity.
  apply u32_small. lia.
Qed.

Lemma max_page_width_le (blk : tiler_block_info) (len : Z) :
  area_in_range blk -> max_page_width blk len <= 15.
Proof.
  intros [Hw _]. unfold max_page_width.
  assert (dim_area_width blk / PAGE_SIZE <= 15).
  { apply Z.lt_succ_r. apply Z.div_lt_upper_bound; [reflexivity|].
    change PAGE_SIZE with 4096. lia. }
  destruct (Z.gtb_spec (max_page_width0 blk len)
                       (dim_area_width blk / PAGE_SIZE)); lia.
Qed.

(** The quotient of line 248 when the sum does not wrap around: the least
    number of [max_alloc_size] pieces that cover [len]. *)
Lemma ceil_div_bounds (len m : Z) :
  0 < m -> 0 <= len ->
  ((len + m - 1) / m - 1) * m < len <= (len + m - 1) / m * m.
Proof.
  intros Hm Hl.
  pose proof (Z.div_mod (len + m - 1) m ltac:(lia)) as Hd.
  pose proof (Z.mod_pos_bound (len + m - 1) m Hm) as Hr.
  nia.
Qed.

(** What line 248 computes, for a length that fits [bytes_t]: the ceiling
    of [len / max_alloc_size], or 0 when [len + max_alloc_size - 1] wraps
    around. *)
Lemma min_page_width_eq (blk : tiler_block_info) (len : Z) :
  area_in_range blk -> 0 < dim_area_height blk -> 0 <= len < 2 ^ 32 ->
  let m := dim_area_height blk * PAGE_SIZE in
  (len + m - 1 < 2 ^ 32 -> min_page_width blk len = (len + m - 1) / m) /\
  (2 ^ 32 <= len + m - 1 -> min_page_width blk len = 0).
Proof.
  intros Ha Hh Hl m. unfold min_page_width.
  rewrite (max_alloc_size_eq blk Ha). fold m.
  assert (HP : PAGE_SIZE = 4096) by reflexivity.
  destruct Ha as [_ Hh']. assert (Hm : 4096 <= m < 2 ^ 28) by (unfold m; lia).
  split; intros Hs.
  - rewrite u32_small by lia.
    assert (0 <= (len + m - 1) / m) by (apply Z.div_pos; lia).
    assert ((len + m - 1) / m < 2 ^ 31).
    { apply Z.div_lt_upper_bound; lia. }
    apply s32_small. lia.
  - assert (Hw : u32 (len + m - 1) = len + m - 1 - 2 ^ 32).
    { unfold u32. symmetry. apply Z.mod_unique_pos with (q := 1); lia. }
    rewrite Hw, Z.div_small by lia. reflexivity.
Qed.

(** When the resolver returns, nothing wrapped around: the length is
    positive and [min_page_width] is the ceiling. *)
Lemma resolve_stride_inv (blk b' : tiler_block_info) (len : Z) :
  area_in_range blk -> 0 <= len < 2 ^ 32 ->
  resolve_stride blk len = Some b' ->
  let m := dim_area_height blk * PAGE_SIZE in
  let mpw := min_page_width blk len in
  0 < dim_area_height blk /\ 0 < len /\ len + m - 1 < 2 ^ 32 /\
  mpw = (len + m - 1) / m /\ 1 <= mpw /\
  b' = set_area blk (u16 (u32 (PAGE_SIZE * mpw) / def_bpp (fmt blk)))
                    (u16 (len / PAGE_SIZE / u32 mpw))
                    (u16 (u32 (PAGE_SIZE * mpw) / def_bpp (fmt blk))).
Proof.
  intros Ha Hl Hr m mpw. unfold resolve_stride in Hr.
  assert (HP : PAGE_SIZE = 4096) by reflexivity.
  destruct (Z.eqb_spec (max_alloc_size blk) 0) as [|Hmax]; [discriminate|].
  destruct (Z.eqb_spec (min_alloc_size blk) 0) as [|Hmin]; [discriminate|].
  fold mpw in Hr.
  destruct (Z.eqb_spec (u32 mpw) 0) as [|Hmpw]; [discriminate|].
  injection Hr as <-.
  rewrite (max_alloc_size_eq blk Ha) in Hmax.
  assert (Hh : 0 < dim_area_height blk) by (destruct Ha as [_ ?]; lia).
  destruct (min_page_width_eq blk len Ha Hh Hl) as [Hok Hwrap].
  fold m mpw in Hok, Hwrap.
  destruct (Z_lt_le_dec (len + m - 1) (2 ^ 32)) as [Hs|Hs].
  - specialize (Hok Hs).
    assert (Hm : 0 < m) by (unfold m; lia).
    assert (0 <= mpw) by (rewrite Hok; apply Z.div_pos; lia).
    assert (mpw <> 0) by (intros E; apply Hmpw; rewrite E; reflexivity).
    assert (0 < len).
    { destruct (Z.eq_dec len 0) as [E|]; [|lia].
      exfalso. rewrite E in Hok. rewrite Z.div_small in Hok by lia. lia. }
    repeat split; try lia.
  - exfalso. apply Hmpw. rewrite (Hwrap Hs). reflexivity.
Qed.

(** The resolver does return when its three divisors are not zero. *)
Lemma resolve_stride_defined (blk : tiler_block_info) (len : Z) :
  area_in_range blk -> 0 < dim_area_height blk ->
  min_alloc_size blk <> 0 ->
  0 < len -> len + dim_area_height blk * PAGE_SIZE - 1 < 2 ^ 32 ->
  exists b', resolve_stride blk len = Some b'.
Proof.
  intros Ha Hh Hmin Hl Hs. unfold resolve_stride.
  assert (HP : PAGE_SIZE = 4096) by reflexivity.
  pose proof (max_alloc_size_eq blk Ha) as Hmax.
  destruct (Z.eqb_spec (max_alloc_size blk) 0) as [E|_]; [lia|].
  destruct (Z.eqb_spec (min_alloc_size blk) 0) as [E|_]; [contradiction|].
  destruct (min_page_width_eq blk len Ha Hh ltac:(lia)) as [Hok _].
  specialize (Hok Hs).
  set (m := dim_area_height blk * PAGE_SIZE) in *.
  assert (Hm : 0 < m) by (unfold m; lia).
  pose proof (ceil_div_bounds len m Hm ltac:(lia)) as Hc.
  assert (1 <= min_page_width blk len) by (rewrite Hok; nia).
  assert (min_page_width blk len < 2 ^ 32).
  { rewrite Hok. apply Z.div_lt_upper_bound; lia. }
  rewrite u32_small by lia.
  destruct (Z.eqb_spec (min_page_width blk len) 0); [lia|].
  eauto.
Qed.

Lemma def_bpp_cases (f : pixel_fmt_t) :
  def_bpp f = 1 \/ def_bpp f = 2 \/ def_bpp f = 4.
Proof. destruct f; simpl; auto. Qed.

Lemma page_width_div_bpp (f : pixel_fmt_t) (k : Z) :
  PAGE_SIZE * k / def_bpp f * def_bpp f = PAGE_SIZE * k.
Proof.
  change PAGE_SIZE with 4096.
  destruct (def_bpp_cases f) as [E|[E|E]]; rewrite E.
  - rewrite Z.div_1_r. lia.
  - replace (4096 * k) with (2048 * k * 2) by lia.
    rewrite Z.div_mul by lia. reflexivity.
  - replace (4096 * k) with (1024 * k * 4) by lia.
    rewrite Z.div_mul by lia. reflexivity.
Qed.

(** The descriptor the resolver leaves, when [min_page_width] is within
    the page widths a 16-bit [width] can hold: nothing is truncated, and
    its [def_size] is the length rounded down to whole rows. *)
Lemma resolve_stride_geometry (blk b' : tiler_block_info) (len : Z) :
  area_in_range blk -> 0 <= len < 2 ^ 32 ->
  resolve_stride blk len = Some b' ->
  min_page_width blk len <= 15 ->
  let mpw := min_page_width blk len in
  fmt b' = fmt blk /\
  dim_area_height b' = len / PAGE_SIZE / mpw /\
  dim_area_width b' = PAGE_SIZE * mpw / def_bpp (fmt blk) /\
  stride b' = dim_area_width b' /\
  u32 (dim_area_height b'
       * def_stride (u32 (dim_area_width b' * def_bpp (fmt b'))))
  = len / PAGE_SIZE / mpw * (PAGE_SIZE * mpw).
Proof.
  intros Ha Hl Hr H15 mpw.
  destruct (resolve_stride_inv blk b' len Ha Hl Hr)
    as (Hh & Hpos & Hs & Hq & H1 & ->).
  fold mpw in Hq, H1 |- *.
  assert (HP : PAGE_SIZE = 4096) by reflexivity.
  set (m := dim_area_height blk * PAGE_SIZE) in *.
  assert (Hm : 0 < m) by (unfold m; lia).
  pose proof (ceil_div_bounds len m Hm ltac:(lia)) as Hc.
  rewrite <- Hq in Hc.
  (* the height fits 16 bits *)
  assert (Hrow : 0 <= len / PAGE_SIZE / mpw <= dim_area_height blk).
  { split.
    - apply Z.div_pos; [apply Z.div_pos|]; lia.
    - apply Z.lt_succ_r. apply Z.div_lt_upper_bound; [lia|].
      apply Z.div_lt_upper_bound; [lia|]. unfold m in Hc. nia. }
  assert (Hrows : len / PAGE_SIZE / mpw * (PAGE_SIZE * mpw) <= len).
  { pose proof (Z.mul_div_le len PAGE_SIZE ltac:(lia)).
    pose proof (Z.mul_div_le (len / PAGE_SIZE) mpw ltac:(lia)). nia. }
  (* the width fits 16 bits *)
  assert (Hw : 0 <= PAGE_SIZE * mpw / def_bpp (fmt blk) < 2 ^ 16).
  { pose proof (page_width_div_bpp (fmt blk) mpw) as Hd.
    destruct (def_bpp_cases (fmt blk)) as [E|[E|E]]; rewrite E in *; nia. }
  destruct Ha as [_ Hh16].
  cbn [set_area fmt dim_area_height dim_area_width stride].
  rewrite (u32_small mpw) by lia.
  rewrite (u32_small (PAGE_SIZE * mpw)) by lia.
  rewrite (u16_small (len / PAGE_SIZE / mpw)) by lia.
  rewrite (u16_small (PAGE_SIZE * mpw / def_bpp (fmt blk))) by lia.
  repeat split.
  rewrite page_width_div_bpp.
  rewrite (u32_small (PAGE_SIZE * mpw)) by lia.
  rewrite def_stride_pages by lia.
  apply u32_small. nia.
Qed.

Lemma resolver_pre_defined (blk : tiler_block_info) (len : Z) :
  area_in_range blk -> resolver_pre blk len -> resolver_defined blk len.
Proof.
  intros Ha (Hh & Hmin & Hl & Hs & Hchk).
  pose proof (max_page_width_le blk len Ha).
  unfold chk_page_width in Hchk. apply Z.leb_le in Hchk.
  repeat split; try assumption. lia.
Qed.

Lemma resolver_defined_min_page_width (blk : tiler_block_info) (len : Z) :
  area_in_range blk -> resolver_defined blk len ->
  1 <= min_page_width blk len <= 15 /\
  min_page_width blk len
  = (len + dim_area_height blk * PAGE_SIZE - 1)
    / (dim_area_height blk * PAGE_SIZE) /\
  exists b', resolve_stride blk len = Some b'.
Proof.
  intros Ha (Hh & Hmin & Hl & Hs & H15).
  destruct (resolve_stride_defined blk len Ha Hh Hmin Hl Hs) as [b' Hb].
  assert (Hlen : 0 <= len < 2 ^ 32).
  { change PAGE_SIZE with 4096 in Hs. lia. }
  destruct (resolve_stride_inv blk b' len Ha Hlen Hb)
    as (_ & _ & _ & Hq & H1 & _).
  repeat split; try lia; eauto.
Qed.

(** Dividing by the page size and then by the page width is dividing by
    the row size. *)
Lemma rows_exact (len k : Z) :
  0 < k ->
  (len / PAGE_SIZE / k * (PAGE_SIZE * k) = len
   <-> len mod (PAGE_SIZE * k) = 0).
Proof.
  intros Hk. assert (HP : 0 < PAGE_SIZE) by reflexivity.
  rewrite Z.div_div by lia.
  rewrite <- (Z.div_exact len (PAGE_SIZE * k)) by lia.
  split; intros E; lia.
Qed.

(** C2, as amended: [def_size] of a raw-page block whose length was taken
    from the caller is that length; [def_size] of a resolved 2-D block is
    the length rounded down to a whole number of rows of [min_page_width]
    pages, and is the length exactly when the length is a multiple of
    [PAGE_SIZE * min_page_width]. *)
Theorem def_size_resolve_block (blk : tiler_block_info) (len : Z) :
  area_in_range blk ->
  is_page (fmt blk) = true \/ resolver_defined blk len ->
  exists b',
    resolve_block blk len = Some b' /\
    (is_page (fmt blk) = true -> def_size b' = len) /\
    (is_page (fmt blk) = false ->
       let mpw := min_page_width blk len in
       def_size b' = len / PAGE_SIZE / mpw * (PAGE_SIZE * mpw) /\
       def_size b' <= len /\
       (def_size b' = len <-> len mod (PAGE_SIZE * mpw) = 0)).
Proof.
  intros Ha Hpre. unfold resolve_block.
  destruct (is_page (fmt blk)) eqn:Hp.
  - exists (set_dim_len blk len). split; [reflexivity|]. split.
    + intros _. unfold def_size. cbn [set_dim_len fmt dim_len].
      now rewrite Hp.
    + discriminate.
  - destruct Hpre as [|Hpre]; [discriminate|].
    destruct (resolver_defined_min_page_width blk len Ha Hpre)
      as (Hmpw & Hq & b' & Hb).
    assert (Hlen : 0 <= len < 2 ^ 32).
    { destruct Hpre as (? & _ & ? & Hs & _).
      change PAGE_SIZE with 4096 in Hs. lia. }
    destruct (resolve_stride_geometry blk b' len Ha Hlen Hb ltac:(lia))
      as (Hf & _ & _ & _ & Hsz).
    exists b'. split; [assumption|]. split; [discriminate|].
    intros _. set (mpw := min_page_width blk len) in *.
    assert (Hd : def_size b' = len / PAGE_SIZE / mpw * (PAGE_SIZE * mpw)).
    { unfold def_size. rewrite Hf, Hp. rewrite Hf in Hsz. exact Hsz. }
    split; [exact Hd|]. rewrite Hd. split.
    + assert (HP : 0 < PAGE_SIZE) by reflexivity.
      pose proof (Z.mul_div_le len PAGE_SIZE HP).
      pose proof (Z.mul_div_le (len / PAGE_SIZE) mpw ltac:(lia)). nia.
    + apply rows_exact. lia.
Qed.

(** One 32-bit block of 2 pages by 64 rows, and the 128 pages it covers. *)
Lemma def_size_resolve_block_witness :
  let blk := mk_block PIXEL_FMT_32BIT 0 8192 64 0 0 1 in
  exists b',
    resolve_block blk 524288 = Some b' /\
    (is_page (fmt blk) = true -> def_size b' = 524288) /\
    (is_page (fmt blk) = false ->
       let mpw := min_page_width blk 524288 in
       def_size b' = 524288 / PAGE_SIZE / mpw * (PAGE_SIZE * mpw) /\
       def_size b' <= 524288 /\
       (def_size b' = 524288 <-> 524288 mod (PAGE_SIZE * mpw) = 0)).
Proof.
  intros blk. apply (def_size_resolve_block blk 524288).
  - unfold area_in_range, blk; simpl; lia.
  - right. unfold resolver_defined, blk. cbn [dim_area_height].
    repeat split; try reflexivity; try lia.
    + vm_compute. discriminate.
    + vm_compute. discriminate.
Defined.

(** C2, as stated, fails: a 32-bit block the driver reports as 2 pages by
    64 rows, remapped with a length of 65 pages.  Both page widths are 2,
    the resolved block has 32 rows of 2 pages, and [def_size] gives 64
    pages. *)
Lemma def_size_resolve_block_counterexample :
  let blk := mk_block PIXEL_FMT_32BIT 0 8192 64 0 0 1 in
  let len := 65 * PAGE_SIZE in
  area_in_range blk /\ resolver_pre blk len /\
  min_page_width blk len = 2 /\ max_page_width blk len = 2 /\
  exists b', resolve_block blk len = Some b' /\
             dim_area_height b' = 32 /\ dim_area_width b' = 2048 /\
             def_size b' = 64 * PAGE_SIZE /\ def_size b' <> len.
Proof.
  intros blk len. split; [|split].
  - unfold area_in_range, blk; simpl; lia.
  - unfold resolver_pre, blk, len. cbn [dim_area_height].
    repeat split; try reflexivity; try lia. vm_compute. discriminate.
  - split; [reflexivity|]. split; [reflexivity|].
    eexists. split; [reflexivity|].
    repeat split. vm_compute. discriminate.
Qed.

(** The resolved descriptor in closed form. *)
Lemma resolve_stride_closed_form (blk : tiler_block_info) (len : Z) :
  area_in_range blk -> resolver_defined blk len ->
  let m := dim_area_height blk * PAGE_SIZE in
  let mpw := (len + m - 1) / m in
  min_page_width blk len = mpw /\
  resolve_stride blk len
  = Some (set_area blk (PAGE_SIZE * mpw / def_bpp (fmt blk))
                       (len / PAGE_SIZE / mpw)
                       (PAGE_SIZE * mpw / def_bpp (fmt blk))).
Proof.
  intros Ha Hpre m mpw.
  destruct (resolver_defined_min_page_width blk len Ha Hpre)
    as (Hmpw & Hq & b' & Hb).
  fold m in Hq. fold mpw in Hq.
  assert (Hlen : 0 <= len < 2 ^ 32).
  { destruct Hpre as (? & _ & ? & Hs & _).
    change PAGE_SIZE with 4096 in Hs. lia. }
  destruct (resolve_stride_geometry blk b' len Ha Hlen Hb ltac:(lia))
    as (Hf & Hh & Hw & Hs & _).
  rewrite Hq in Hh, Hw.
  split; [exact Hq|]. rewrite Hb. f_equal.
  destruct (resolve_stride_inv blk b' len Ha Hlen Hb)
    as (_ & _ & _ & _ & _ & Hb').
  rewrite Hb' in Hh, Hw |- *.
  cbn [set_area dim_area_height dim_area_width] in Hh, Hw.
  unfold set_area. now rewrite Hh, Hw.
Qed.

Lemma resolver_pre_ext (blk1 blk2 : tiler_block_info) (len : Z) :
  fmt blk2 = fmt blk1 ->
  dim_area_width blk2 = dim_area_width blk1 ->
  dim_area_height blk2 = dim_area_height blk1 ->
  resolver_pre blk1 len -> resolver_pre blk2 len.
Proof.
  intros Hf Hw Hh.
  unfold resolver_pre, chk_page_width, max_page_width, max_page_width0,
    min_page_width, min_alloc_size, max_alloc_size.
  now rewrite Hf, Hw, Hh.
Qed.


(** ** The two calls as relations on the cache and the log *)

Lemma bind_inv {A B} (m : M A) (k : A -> M B) (s : state) (r : B * state) :
  (m ≫= k) s = Some r ->
  exists a s1, m s = Some (a, s1) /\ k a s1 = Some r.
Proof.
  unfold mbind, M_bind. destruct (m s) as [[a s1]|]; [|discriminate].
  intros Hk. eauto.
Qed.

Lemma bind_Some {A B} (m : M A) (k : A -> M B) (s s1 : state) (a : A) :
  m s = Some (a, s1) -> (m ≫= k) s = k a s1.
Proof. intros Hm. unfold mbind, M_bind. now rewrite Hm. Qed.

Lemma read_inv {A} (a : list A) (ix : nat) (s : state) (x : A) (s' : state) :
  read a ix s = Some (x, s') -> a !! ix = Some x /\ s' = s.
Proof.
  unfold read. destruct (a !! ix); [|discriminate].
  unfold mret, M_ret. intros [= -> ->]. auto.
Qed.

Lemma read_Some {A} (a : list A) (ix : nat) (s : state) (x : A) :
  a !! ix = Some x -> read a ix s = Some (x, s).
Proof. intros E. unfold read. now rewrite E. Qed.

Lemma query_trace_drop_S (td : Z) (ds : list Z) (ix : nat) (d : Z)
    (blk out : tiler_block_info) (res : Z) (qs : list event) :
  ds !! ix = Some d -> d <> 0 -> ssptr blk = d ->
  query_trace td (drop (S ix) ds) qs ->
  query_trace td (drop ix ds) (EvQueryBlk td blk res out :: qs).
Proof.
  intros Hd Hnz Hs Hq.
  rewrite (drop_S ds d ix Hd). now constructor.
Qed.

(** A check, taken apart and put together. *)
Lemma check_inv (holds : bool) (s s' : state) (c : flow unit) :
  check holds s = Some (c, s') ->
  s' = s /\
  ((c = Next tt /\ CHK_I holds = ChkNext) \/
   (c = GotoFail /\ CHK_I holds = ChkFail)).
Proof.
  unfold check. destruct (CHK_I holds); [| |discriminate];
    unfold mret, M_ret; intros [= <- <-]; auto.
Qed.

Lemma check_next (holds : bool) (s : state) :
  CHK_I holds = ChkNext -> check holds s = Some (Next tt, s).
Proof. intros E. unfold check. now rewrite E. Qed.

Lemma check_fail (holds : bool) (s : state) :
  CHK_I holds = ChkFail -> check holds s = Some (GotoFail, s).
Proof. intros E. unfold check. now rewrite E. Qed.

Lemma resolve_stride_divisors (blk b : tiler_block_info) (len : Z) :
  resolve_stride blk len = Some b ->
  max_alloc_size blk <> 0 /\ min_alloc_size blk <> 0.
Proof.
  unfold resolve_stride.
  destruct (Z.eqb_spec (max_alloc_size blk) 0); [discriminate|].
  destruct (Z.eqb_spec (min_alloc_size blk) 0); [discriminate|]. auto.
Qed.

(** Lines 237-267, taken apart and put together. *)
Lemma resolve_checked_inv (blk : tiler_block_info) (len : Z)
    (s s' : state) (r : flow tiler_block_info) :
  resolve_checked blk len s = Some (r, s') ->
  s' = s /\
  ((exists b,
      r = Next b /\ resolve_block blk len = Some b /\
      (is_page (fmt blk) = false ->
       CHK_I (chk_page_width blk len) = ChkNext)) \/
   (r = GotoFail /\ is_page (fmt blk) = false /\
    max_alloc_size blk <> 0 /\ min_alloc_size blk <> 0 /\
    CHK_I (chk_page_width blk len) = ChkFail)).
Proof.
  unfold resolve_checked, resolve_block.
  destruct (is_page (fmt blk)) eqn:Ep.
  { unfold mret, M_ret. intros [= <- <-]. split; [reflexivity|].
    left. eexists. split; [reflexivity|]. split; [reflexivity|].
    discriminate. }
  destruct (Z.eqb_spec (max_alloc_size blk) 0) as [|Hmax];
    [discriminate|].
  destruct (Z.eqb_spec (min_alloc_size blk) 0) as [|Hmin];
    [discriminate|].
  cbn [orb]. intros Hr.
  apply bind_inv in Hr as (c & s1 & Hc & Hr).
  apply check_inv in Hc as [-> [[-> Hc]|[-> Hc]]].
  - destruct (resolve_stride blk len) as [b|] eqn:Er; [|discriminate].
    unfold mret, M_ret in Hr. injection Hr as <- <-.
    split; [reflexivity|]. left. exists b. auto.
  - unfold mret, M_ret in Hr. injection Hr as <- <-.
    split; [reflexivity|]. right. auto.
Qed.

Lemma resolve_checked_next (blk b : tiler_block_info) (len : Z)
    (s : state) :
  resolve_block blk len = Some b ->
  (is_page (fmt blk) = false ->
   CHK_I (chk_page_width blk len) = ChkNext) ->
  resolve_checked blk len s = Some (Next b, s).
Proof.
  unfold resolve_checked, resolve_block.
  destruct (is_page (fmt blk)).
  { now intros [= <-] _. }
  intros Hr Hc. destruct (resolve_stride_divisors blk b len Hr) as [H1 H2].
  destruct (Z.eqb_spec (max_alloc_size blk) 0); [contradiction|].
  destruct (Z.eqb_spec (min_alloc_size blk) 0); [contradiction|].
  cbn [orb]. rewrite (bind_Some _ _ _ _ _ (check_next _ s (Hc eq_refl))).
  now rewrite Hr.
Qed.

Lemma resolve_checked_fail (blk : tiler_block_info) (len : Z) (s : state) :
  is_page (fmt blk) = false ->
  max_alloc_size blk <> 0 -> min_alloc_size blk <> 0 ->
  CHK_I (chk_page_width blk len) = ChkFail ->
  resolve_checked blk len s = Some (GotoFail, s).
Proof.
  intros Hp H1 H2 Hc. unfold resolve_checked. rewrite Hp.
  destruct (Z.eqb_spec (max_alloc_size blk) 0); [contradiction|].
  destruct (Z.eqb_spec (min_alloc_size blk) 0); [contradiction|].
  cbn [orb]. now rewrite (bind_Some _ _ _ _ _ (check_fail _ s Hc)).
Qed.

(** One turn of the loop, taken apart. *)
Lemma remap_block_inv (td : Z) (dsptrs lengths : list Z) (ix : nat)
    (buf : tiler_buf_info) (size : Z) (s s' : state)
    (r : flow (tiler_buf_info * Z)) :
  remap_block td dsptrs lengths ix buf size s = Some (r, s') ->
  exists d blk0,
    dsptrs !! ix = Some d /\ blocks buf !! ix = Some blk0 /\
    ((d = 0 /\ r = GotoFail /\ s' = s) \/
     (d <> 0 /\
      exists res out w,
        sys_query_blk td (set_ssptr blk0 d) (world s) = (res, out, w) /\
        s' = mk_state w (bufs s)
               (log s ++ [EvQueryBlk td (set_ssptr blk0 d) res out]) /\
        (((res <> 0 \/ ssptr out = 0) /\ r = GotoFail) \/
         (res = 0 /\ ssptr out <> 0 /\
          exists len,
            lengths !! ix = Some len /\
            ((geometry_fault out len /\ r = GotoFail) \/
             (exists b',
                geometry_passed out len b' /\
                r = Next (set_block buf ix b',
                          u32 (size + def_size b')))))))).
Proof.
  unfold remap_block. intros Hr.
  apply bind_inv in Hr as (d & s1 & Hd & Hr).
  apply read_inv in Hd as [Hd ->].
  apply bind_inv in Hr as (blk0 & s1 & Hb & Hr).
  apply read_inv in Hb as [Hb ->].
  exists d, blk0. split; [assumption|]. split; [assumption|].
  cbn [set_ssptr ssptr] in Hr.
  destruct (Z.eqb_spec d 0) as [Hz|Hz].
  - left. unfold mret, M_ret in Hr. injection Hr as <- <-. auto.
  - right. split; [assumption|].
    apply bind_inv in Hr as ([res out] & s1 & Hq & Hr).
    unfold do_query_blk in Hq.
    destruct (sys_query_blk td (set_ssptr blk0 d) (world s))
      as [[res' out'] w] eqn:Hsys.
    injection Hq as -> -> <-.
    exists res, out, w. split; [reflexivity|].
    destruct (Z.eqb_spec res 0) as [Hres|Hres]; cbn [negb orb] in Hr.
    + destruct (Z.eqb_spec (ssptr out) 0) as [Hss|Hss].
      * unfold mret, M_ret in Hr. injection Hr as <- <-. auto.
      * apply bind_inv in Hr as (len & s1 & Hl & Hr).
        apply read_inv in Hl as [Hl ->].
        apply bind_inv in Hr as (rb & s1 & Hrb & Hr).
        apply resolve_checked_inv in Hrb
          as [-> [(b' & -> & Hres' & Hc1)|(-> & Hp & H1 & H2 & Hc1)]].
        -- apply bind_inv in Hr as (c & s1 & Hc & Hr).
           apply check_inv in Hc as [-> [[-> Hc]|[-> Hc]]];
             unfold mret, M_ret in Hr; injection Hr as <- <-;
             (split; [reflexivity|]); right;
             (split; [assumption|]); (split; [assumption|]);
             exists len; (split; [assumption|]).
           ++ right. exists b'. split; [|reflexivity].
              split; [assumption|]. split; assumption.
           ++ left. split; [|reflexivity]. right. exists b'. auto.
        -- unfold mret, M_ret in Hr. injection Hr as <- <-.
           split; [reflexivity|]. right.
           split; [assumption|]. split; [assumption|].
           exists len. split; [assumption|]. left.
           split; [|reflexivity]. left. auto.
    + unfold mret, M_ret in Hr. injection Hr as <- <-. auto.
Qed.

(** One turn of the loop, put together: the device pointer is zero, the
    query fails, a check leaves the loop, or the block is stored. *)
Lemma remap_block_zero (td : Z) (dsptrs lengths : list Z) (ix : nat)
    (buf : tiler_buf_info) (size : Z) (s : state) (blk0 : tiler_block_info) :
  dsptrs !! ix = Some 0 -> blocks buf !! ix = Some blk0 ->
  remap_block td dsptrs lengths ix buf size s = Some (GotoFail, s).
Proof.
  intros Hd Hb. unfold remap_block.
  rewrite (bind_Some (read dsptrs ix) _ _ _ 0) by now apply read_Some.
  rewrite (bind_Some (read (blocks buf) ix) _ _ _ blk0)
    by now apply read_Some.
  reflexivity.
Qed.

Lemma remap_block_query_fail (td : Z) (dsptrs lengths : list Z) (ix : nat)
    (buf : tiler_buf_info) (size : Z) (s : state)
    (d res : Z) (blk0 out : tiler_block_info) (w : W) :
  dsptrs !! ix = Some d -> d <> 0 ->
  blocks buf !! ix = Some blk0 ->
  sys_query_blk td (set_ssptr blk0 d) (world s) = (res, out, w) ->
  res <> 0 \/ ssptr out = 0 ->
  remap_block td dsptrs lengths ix buf size s
  = Some (GotoFail,
          mk_state w (bufs s)
            (log s ++ [EvQueryBlk td (set_ssptr blk0 d) res out])).
Proof.
  intros Hd Hdnz Hb Hq Hf. unfold remap_block.
  rewrite (bind_Some (read dsptrs ix) _ _ _ d) by now apply read_Some.
  rewrite (bind_Some (read (blocks buf) ix) _ _ _ blk0)
    by now apply read_Some.
  cbn [set_ssptr ssptr].
  destruct (Z.eqb_spec d 0); [contradiction|].
  erewrite bind_Some; [|unfold do_query_blk; rewrite Hq; reflexivity].
  assert (Hcond : negb (res =? 0) || (ssptr out =? 0) = true).
  { destruct (Z.eqb_spec res 0) as [->|]; [|reflexivity].
    destruct Hf as [Hf|Hf]; [contradiction|].
    cbn [negb orb]. now apply Z.eqb_eq. }
  cbv beta iota. rewrite Hcond. reflexivity.
Qed.

Lemma remap_block_after_query (td : Z) (dsptrs lengths : list Z) (ix : nat)
    (buf : tiler_buf_info) (size : Z) (s : state)
    (d len : Z) (blk0 out : tiler_block_info) (w : W) :
  dsptrs !! ix = Some d -> d <> 0 ->
  blocks buf !! ix = Some blk0 ->
  sys_query_blk td (set_ssptr blk0 d) (world s) = (0, out, w) ->
  ssptr out <> 0 ->
  lengths !! ix = Some len ->
  remap_block td dsptrs lengths ix buf size s
  = (r ← resolve_checked out len;
     match r with
     | GotoFail => mret GotoFail
     | Next blk =>
         c ← check (chk_size blk len);
         match c with
         | GotoFail => mret GotoFail
         | Next _ =>
             mret (Next (set_block buf ix blk, u32 (size + def_size blk)))
         end
     end)
      (mk_state w (bufs s)
         (log s ++ [EvQueryBlk td (set_ssptr blk0 d) 0 out])).
Proof.
  intros Hd Hdnz Hb Hq Hss Hl. unfold remap_block.
  rewrite (bind_Some (read dsptrs ix) _ _ _ d) by now apply read_Some.
  rewrite (bind_Some (read (blocks buf) ix) _ _ _ blk0)
    by now apply read_Some.
  cbn [set_ssptr ssptr].
  destruct (Z.eqb_spec d 0); [contradiction|].
  erewrite bind_Some; [|unfold do_query_blk; rewrite Hq; reflexivity].
  cbv beta iota. cbn [negb orb Z.eqb].
  destruct (Z.eqb_spec (ssptr out) 0); [contradiction|].
  rewrite (bind_Some (read lengths ix) _ _ _ len) by now apply read_Some.
  reflexivity.
Qed.

Lemma remap_block_next (td : Z) (dsptrs lengths : list Z) (ix : nat)
    (buf : tiler_buf_info) (size : Z) (s : state)
    (d len : Z) (blk0 out b' : tiler_block_info) (w : W) :
  dsptrs !! ix = Some d -> d <> 0 ->
  blocks buf !! ix = Some blk0 ->
  sys_query_blk td (set_ssptr blk0 d) (world s) = (0, out, w) ->
  ssptr out <> 0 ->
  lengths !! ix = Some len ->
  geometry_passed out len b' ->
  remap_block td dsptrs lengths ix buf size s
  = Some (Next (set_block buf ix b', u32 (size + def_size b')),
          mk_state w (bufs s)
            (log s ++ [EvQueryBlk td (set_ssptr blk0 d) 0 out])).
Proof.
  intros Hd Hdnz Hb Hq Hss Hl (Hr & Hc1 & Hc2).
  rewrite (remap_block_after_query td dsptrs lengths ix buf size s d len
             blk0 out w) by assumption.
  rewrite (bind_Some _ _ _ _ _ (resolve_checked_next out b' len _ Hr Hc1)).
  now rewrite (bind_Some _ _ _ _ _ (check_next _ _ Hc2)).
Qed.

Lemma remap_block_geometry_fail (td : Z) (dsptrs lengths : list Z)
    (ix : nat) (buf : tiler_buf_info) (size : Z) (s : state)
    (d len : Z) (blk0 out : tiler_block_info) (w : W) :
  dsptrs !! ix = Some d -> d <> 0 ->
  blocks buf !! ix = Some blk0 ->
  sys_query_blk td (set_ssptr blk0 d) (world s) = (0, out, w) ->
  ssptr out <> 0 ->
  lengths !! ix = Some len ->
  geometry_fault out len ->
  remap_block td dsptrs lengths ix buf size s
  = Some (GotoFail,
          mk_state w (bufs s)
            (log s ++ [EvQueryBlk td (set_ssptr blk0 d) 0 out])).
Proof.
  intros Hd Hdnz Hb Hq Hss Hl Hf.
  rewrite (remap_block_after_query td dsptrs lengths ix buf size s d len
             blk0 out w) by assumption.
  destruct Hf as [(Hp & H1 & H2 & Hc)|(b & Hr & Hc1 & Hc2)].
  - now rewrite (bind_Some _ _ _ _ _
                   (resolve_checked_fail out len _ Hp H1 H2 Hc)).
  - rewrite (bind_Some _ _ _ _ _ (resolve_checked_next out b len _ Hr Hc1)).
    now rewrite (bind_Some _ _ _ _ _ (check_fail _ _ Hc2)).
Qed.

Lemma query_trace_app (td : Z) (ds : list Z) (qs1 qs2 : list event) :
  query_trace td ds qs1 ->
  query_trace td (drop (length qs1) ds) qs2 ->
  query_trace td ds (qs1 ++ qs2).
Proof.
  induction 1 as [ds|d ds blk res out qs Hd Hs Hq IH]; simpl; intros H2.
  - now rewrite drop_0 in H2.
  - constructor; auto.
Qed.

Lemma query_trace_nonzero (td : Z) (ds : list Z) (qs : list event) :
  query_trace td ds qs ->
  forall k d, (k < length qs)%nat -> ds !! k = Some d -> d <> 0.
Proof.
  induction 1 as [ds|d0 ds blk res out qs Hd Hs Hq IH]; simpl;
    intros k d Hk Hl.
  - lia.
  - destruct k as [|k]; simpl in Hl.
    + now injection Hl as <-.
    + apply (IH k d); [lia|assumption].
Qed.

(** The block loop, taken apart: it leaves the cache alone and adds
    queries only; when it runs to its end it has made one query for each
    block. *)
Lemma remap_blocks_inv (td : Z) (dsptrs lengths : list Z) (todo : nat) :
  forall (ix : nat) (buf : tiler_buf_info) (size : Z) (s s' : state)
         (r : flow (tiler_buf_info * Z)),
  remap_blocks td dsptrs lengths todo ix buf size s = Some (r, s') ->
  bufs s' = bufs s /\
  exists qs,
    log s' = log s ++ qs /\
    query_trace td (drop ix dsptrs) qs /\
    (length qs <= todo)%nat /\
    match r with
    | Next (buf', _) =>
        length qs = todo /\ length (blocks buf') = length (blocks buf)
    | GotoFail => loop_fault td dsptrs ix qs
    end.
Proof.
  induction todo as [|todo IH]; intros ix buf size s s' r Hr; simpl in Hr.
  - unfold mret, M_ret in Hr. injection Hr as <- <-.
    split; [reflexivity|]. exists []. rewrite app_nil_r.
    split; [reflexivity|]. split; [constructor|].
    split; [simpl; lia|]. split; reflexivity.
  - apply bind_inv in Hr as (r1 & s1 & Hb & Hr).
    apply remap_block_inv in Hb
      as (d & blk0 & Hd & Hblk &
          [(Hz & -> & ->)|(Hz & res & out & w & Hq & -> & Hc)]).
    + unfold mret, M_ret in Hr. injection Hr as <- <-.
      split; [reflexivity|]. exists []. rewrite app_nil_r.
      split; [reflexivity|]. split; [constructor|].
      split; [simpl; lia|].
      left. simpl. rewrite Nat.add_0_r. congruence.
    + destruct Hc as [(Hf & ->)
                     |(Hres & Hss & len & Hl &
                       [(Hf & ->)|(b' & Hrb & ->)])].
      * unfold mret, M_ret in Hr. injection Hr as <- <-.
        split; [reflexivity|].
        exists [EvQueryBlk td (set_ssptr blk0 d) res out].
        split; [reflexivity|]. split.
        { eapply query_trace_drop_S; eauto. constructor. }
        split; [simpl; lia|].
        right. left. exists [], (set_ssptr blk0 d), res, out. auto.
      * unfold mret, M_ret in Hr. injection Hr as <- <-.
        split; [reflexivity|]. subst res.
        exists [EvQueryBlk td (set_ssptr blk0 d) 0 out].
        split; [reflexivity|]. split.
        { eapply query_trace_drop_S; eauto. constructor. }
        split; [simpl; lia|].
        right. right. exists [], (set_ssptr blk0 d), out, len. auto.
      * apply IH in Hr as (Hbufs & qs & Hlog & Hqs & Hlen & Hnext).
        cbn [bufs log] in Hbufs, Hlog.
        split; [assumption|].
        exists (EvQueryBlk td (set_ssptr blk0 d) res out :: qs).
        split; [rewrite Hlog, <- app_assoc; reflexivity|].
        split; [eapply query_trace_drop_S; eauto|].
        split; [simpl; lia|].
        destruct r as [[buf' size']|].
        -- destruct Hnext as [Hn Hlb]. split; [simpl; lia|].
           rewrite Hlb. unfold set_block. cbn [blocks].
           apply length_insert.
        -- destruct Hnext as [Hz0|[(qs0 & blk & res' & out' & -> & Hf)
                                   |(qs0 & blk & out' & len' & -> & Hf)]].
           ++ left. simpl. rewrite Nat.add_succ_r. exact Hz0.
           ++ right. left.
              exists (EvQueryBlk td (set_ssptr blk0 d) res out :: qs0),
                blk, res', out'. auto.
           ++ right. right.
              exists (EvQueryBlk td (set_ssptr blk0 d) res out :: qs0),
                blk, out', len'. auto.
Qed.


Lemma u32_add_l (a b : Z) : u32 (u32 a + b) = u32 (a + b).
Proof. unfold u32. now rewrite Zplus_mod_idemp_l. Qed.

(** ** The block loop and the buffer it builds *)

Lemma resolve_block_fmt (blk b' : tiler_block_info) (len : Z) :
  resolve_block blk len = Some b' ->
  fmt b' = fmt blk /\ ssptr b' = ssptr blk /\
  (is_page (fmt blk) = true -> dim_len b' = len /\ def_size b' = len).
Proof.
  unfold resolve_block. destruct (is_page (fmt blk)) eqn:Ep.
  - intros [= <-]. unfold def_size, set_dim_len. cbn [fmt ssptr dim_len].
    rewrite Ep. auto.
  - unfold resolve_stride.
    destruct (max_alloc_size blk =? 0); [discriminate|].
    destruct (min_alloc_size blk =? 0); [discriminate|]. cbv zeta.
    destruct (u32 (min_page_width blk len) =? 0); [discriminate|].
    intros [= <-]. unfold set_area. cbn [fmt ssptr].
    split; [reflexivity|]. split; [reflexivity|discriminate].
Qed.

(** What the loop leaves of the buffer: the count and the offset, the
    blocks before [ix] and those from [ix + todo] on; the size is the sum
    of [def_size] over the blocks it has written, and a raw-page block has
    the length the caller gave for it. *)
Lemma remap_blocks_buf (td : Z) (dsptrs lengths : list Z) (todo : nat) :
  forall (ix : nat) (buf : tiler_buf_info) (size : Z) (s s' : state)
         (buf' : tiler_buf_info) (size' : Z),
  remap_blocks td dsptrs lengths todo ix buf size s
  = Some (Next (buf', size'), s') ->
  0 <= size < 2 ^ 32 ->
  num_blocks buf' = num_blocks buf /\ offset buf' = offset buf /\
  length (blocks buf') = length (blocks buf) /\
  (todo <> 0%nat -> (ix + todo <= length (blocks buf))%nat) /\
  take ix (blocks buf') = take ix (blocks buf) /\
  drop (ix + todo) (blocks buf') = drop (ix + todo) (blocks buf) /\
  size' = u32 (size + total_def_size (take todo (drop ix (blocks buf')))) /\
  Forall2 (fun b len => is_page (fmt b) = true ->
                        dim_len b = len /\ def_size b = len)
          (take todo (drop ix (blocks buf')))
          (take todo (drop ix lengths)).
Proof.
  induction todo as [|todo IH]; intros ix buf size s s' buf' size' Hr Hsz.
  - cbn [remap_blocks] in Hr. unfold mret, M_ret in Hr.
    injection Hr as <- <- <-.
    rewrite Nat.add_0_r.
    repeat split; try reflexivity.
    + intros Hne. now contradiction Hne.
    + cbn [take total_def_size foldr]. rewrite Z.add_0_r.
      symmetry. now apply u32_small.
    + cbn [take]. constructor.
  - cbn [remap_blocks] in Hr.
    apply bind_inv in Hr as (r1 & s1 & Hb & Hr).
    apply remap_block_inv in Hb as (d & blk0 & Hd & Hblk & Hcase).
    destruct Hcase as [(_ & -> & _)|(Hdnz & res & out & w & Hq & -> & Hcase)].
    { discriminate. }
    destruct Hcase as [(_ & ->)
                      |(Hres & Hout & len & Hlen &
                        [(_ & ->)|(b' & (Hres' & _ & _) & ->)])].
    { discriminate. }
    { discriminate. }
    apply IH in Hr
      as (Hn & Ho & Hl & Hbound & Htake & Hdrop & Hsize & Hpages);
      [|apply u32_range].
    cbn [set_block num_blocks offset blocks] in *.
    rewrite length_insert in *.
    assert (Hix : (ix < length (blocks buf))%nat)
      by (eapply lookup_lt_Some; eassumption).
    assert (Hb' : blocks buf' !! ix = Some b').
    { rewrite <- (lookup_take_lt (blocks buf') (S ix) ix) by lia.
      rewrite Htake, lookup_take_lt by lia.
      apply list_lookup_insert_eq. exact Hix. }
    assert (E : forall l : list tiler_block_info,
                 take ix l = take ix (take (S ix) l)).
    { intros l. rewrite take_take, Nat.min_l by lia. reflexivity. }
    repeat split; try assumption; try lia.
    + rewrite (E (blocks buf')), Htake, <- E. apply take_insert_ge. lia.
    + replace (ix + S todo)%nat with (S ix + todo)%nat by lia.
      rewrite Hdrop. apply drop_insert_lt. lia.
    + rewrite (drop_S _ _ _ Hb'). cbn [take total_def_size foldr].
      fold (total_def_size (take todo (drop (S ix) (blocks buf')))).
      rewrite Hsize, u32_add_l. f_equal. lia.
    + rewrite (drop_S _ _ _ Hb'), (drop_S _ _ _ Hlen). cbn [take].
      constructor; [|exact Hpages].
      intros Hp. apply resolve_block_fmt in Hres' as (Hf & _ & Hpg).
      apply Hpg. now rewrite <- Hf.
Qed.

(** Every call of remap that returns follows one of the rules of
    [remap_trace]. *)
Lemma remap_sound (n : Z) (dsptrs lengths : list Z) (s s' : state) (r : Z) :
  tiler_assisted_phase1_D2CReMap n dsptrs lengths s = Some (r, s') ->
  exists evs,
    log s' = log s ++ evs /\
    remap_trace n dsptrs (bufs s) r (bufs s') evs.
Proof.
  unfold tiler_assisted_phase1_D2CReMap. intros Hr.
  destruct (Z.ltb_spec 0 n) as [Hn0|Hn0]; cbn [negb orb] in Hr.
  2:{ inv_ret Hr. exists []. rewrite app_nil_r. split; [reflexivity|].
      apply rt_bad_count. lia. }
  destruct (Z.leb_spec n TILER_MAX_NUM_BLOCKS) as [Hn1|Hn1];
    cbn [negb] in Hr.
  2:{ inv_ret Hr. exists []. rewrite app_nil_r. split; [reflexivity|].
      apply rt_bad_count. lia. }
  assert (Hn : 0 < n <= TILER_MAX_NUM_BLOCKS) by lia.
  apply bind_inv in Hr as (td & s1 & Ho & Hr).
  unfold do_open in Ho. destruct (sys_open (world s)) as [td' w1].
  injection Ho as -> <-.
  destruct (Z.leb_spec 0 td) as [Htd|Htd]; cbn [negb] in Hr.
  2:{ inv_ret Hr. exists [EvOpen td]. split; [reflexivity|].
      now apply rt_no_driver. }
  apply bind_inv in Hr as (lr & s2 & Hloop & Hr).
  pose proof Hloop as Hbuf.
  apply remap_blocks_inv in Hloop as (Hc2 & qs & Hl2 & Hqs & Hlen & Hnext).
  rewrite drop_0 in Hqs. cbn [bufs log] in Hc2, Hl2.
  destruct lr as [[buf size]|].
  2:{ apply bind_inv in Hr as ([] & s3 & Hcl & Hr).
      unfold do_close in Hcl. injection Hcl as <-. inv_ret Hr.
      cbn [bufs log]. exists (EvOpen td :: qs ++ [EvClose td]).
      split.
      - rewrite Hl2, <- !app_assoc. reflexivity.
      - rewrite Hc2. now apply rt_block_fail. }
  destruct Hnext as [Hfull _].
  assert (Hsize : size = u32 (total_def_size (queried_blocks buf))).
  { apply remap_blocks_buf in Hbuf
      as (Hnb & _ & _ & _ & _ & _ & Hsize & _); [|lia].
    cbn [num_blocks] in Hnb.
    rewrite Hsize, Z.add_0_l, drop_0. unfold queried_blocks.
    now rewrite Hnb. }
  apply bind_inv in Hr as ([res buf'] & s3 & Hrb & Hr).
  unfold do_rbuf in Hrb.
  destruct (sys_rbuf td buf (world s2)) as [[res' buf''] w3].
  injection Hrb as -> -> <-.
  destruct (Z.eqb_spec res 0) as [Hres|Hres]; cbn [negb orb] in Hr.
  2:{ apply bind_inv in Hr as ([] & s4 & Hcl & Hr).
      unfold do_close in Hcl. injection Hcl as <-. inv_ret Hr.
      cbn [bufs log].
      exists (EvOpen td :: qs ++ [EvRBuf td buf res buf'; EvClose td]).
      split.
      - rewrite Hl2, <- !app_assoc. reflexivity.
      - rewrite Hc2. apply rt_rbuf_fail; auto. }
  subst res.
  destruct (Z.eqb_spec (offset buf') 0) as [Hoff|Hoff].
  { apply bind_inv in Hr as ([] & s4 & Hcl & Hr).
    unfold do_close in Hcl. injection Hcl as <-. inv_ret Hr.
    cbn [bufs log].
    exists (EvOpen td :: qs ++ [EvRBuf td buf 0 buf'; EvClose td]).
    split.
    - rewrite Hl2, <- !app_assoc. reflexivity.
    - rewrite Hc2. apply rt_rbuf_fail; auto. }
  apply bind_inv in Hr as (p & s4 & Hmm & Hr).
  unfold do_mmap in Hmm. cbn [world bufs log] in Hmm.
  destruct (sys_mmap size td (offset buf') w3) as [p' w4].
  injection Hmm as -> <-.
  apply bind_inv in Hr as (bp & s5 & Hbp & Hr).
  assert (Hbp' : s5 = mk_state w4 (bufs s2)
                        ((log s2 ++ [EvRBuf td buf 0 buf'])
                         ++ [EvMmap size td (offset buf') p]) /\
                 ((p = MAP_FAILED /\ bp = NULL) \/
                  (p <> MAP_FAILED /\
                   exists b0, blocks buf' !! 0%nat = Some b0 /\
                     bp = u32 (p + Z.land (ssptr b0) (PAGE_SIZE - 1))))).
  { destruct (Z.eqb_spec p MAP_FAILED) as [Hp|Hp].
    - inv_ret Hbp. auto.
    - apply bind_inv in Hbp as (b0 & s6 & Hb0 & Hbp).
      apply read_inv in Hb0 as [Hb0 ->]. inv_ret Hbp. eauto 10. }
  destruct Hbp' as [-> Hbp']. clear Hbp.
  destruct (Z.eqb_spec bp NULL) as [Hnull|Hnull].
  - apply bind_inv in Hr as (ur & s6 & Hur & Hr).
    unfold do_urbuf in Hur. cbn [world bufs log] in Hur.
    destruct (sys_urbuf td buf' w4) as [ur' w5].
    injection Hur as -> <-.
    apply bind_inv in Hr as ([] & s7 & Hcl & Hr).
    unfold do_close in Hcl. injection Hcl as <-. inv_ret Hr.
    cbn [bufs log].
    exists (EvOpen td :: qs ++ [EvRBuf td buf 0 buf';
                                EvMmap size td (offset buf') p;
                                EvURBuf td buf' ur; EvClose td]).
    split.
    + rewrite Hl2, <- !app_assoc. reflexivity.
    + rewrite Hc2, Hnull. apply rt_map_fail; auto.
      destruct Hbp' as [[Hp _]|(Hp & b0 & Hb0 & Hb)]; [now left|].
      right. exists b0. split; [assumption|]. congruence.
  - destruct Hbp' as [[_ Hp]|(Hp & b0 & Hb0 & Hb)]; [contradiction|].
    apply bind_inv in Hr as ([] & s6 & Hadd & Hr).
    unfold cache_add in Hadd. cbn [world bufs log] in Hadd.
    injection Hadd as <-.
    apply bind_inv in Hr as ([] & s7 & Hcl & Hr).
    unfold do_close in Hcl. injection Hcl as <-. inv_ret Hr.
    cbn [bufs log].
    exists (EvOpen td :: qs ++ [EvRBuf td buf 0 buf';
                                EvMmap size td (offset buf') p;
                                EvClose td]).
    split.
    + rewrite Hl2, <- !app_assoc. reflexivity.
    + rewrite Hc2. subst bp. apply rt_mapped; auto.
Qed.

(** Every call of demap that returns follows one of the rules of
    [demap_trace]. *)
Lemma demap_sound (p : Z) (s s' : state) (r : Z) :
  tiler_assisted_phase1_DeMap p s = Some (r, s') ->
  exists evs,
    log s' = log s ++ evs /\
    demap_trace p (bufs s) r (bufs s') evs.
Proof.
  unfold tiler_assisted_phase1_DeMap. intros Hr.
  apply bind_inv in Hr as (td & s1 & Ho & Hr).
  unfold do_open in Ho. destruct (sys_open (world s)) as [td' w1].
  injection Ho as -> <-.
  destruct (Z.leb_spec 0 td) as [Htd|Htd]; cbn [negb] in Hr.
  2:{ inv_ret Hr. exists [EvOpen td]. split; [reflexivity|].
      now apply dt_no_driver. }
  apply bind_inv in Hr as (id & s2 & Hdel & Hr).
  unfold cache_del in Hdel. cbn [world bufs log] in Hdel.
  destruct (remap_cache_del p (bufs s)) as [id' cache'] eqn:Hcd.
  injection Hdel as -> <-.
  apply bind_inv in Hr as (r1 & s3 & Hbody & Hr).
  apply bind_inv in Hr as ([] & s4 & Hcl & Hr).
  unfold do_close in Hcl. injection Hcl as <-. inv_ret Hr.
  cbn [set_offset offset] in Hbody.
  destruct (Z.eqb_spec id 0) as [Hid|Hid]; cbn [negb] in Hbody.
  { inv_ret Hbody. cbn [bufs log]. subst id.
    exists [EvOpen td; EvClose td]. split.
    - rewrite <- app_assoc. reflexivity.
    - now apply dt_miss. }
  apply bind_inv in Hbody as ([res buf'] & s5 & Hq & Hbody).
  unfold do_qbuf in Hq. cbn [world bufs log] in Hq.
  destruct (sys_qbuf td _ w1) as [[res' buf''] w2].
  injection Hq as -> -> <-.
  destruct (Z.eqb_spec res 0) as [Hres|Hres].
  2:{ inv_ret Hbody. cbn [bufs log].
      exists [EvOpen td; EvQBuf td (set_offset zero_buf id) res buf';
              EvClose td].
      split.
      - rewrite <- !app_assoc. reflexivity.
      - now apply dt_query_fail. }
  subst res.
  apply bind_inv in Hbody as (ur & s6 & Hur & Hbody).
  unfold do_urbuf in Hur. cbn [world bufs log] in Hur.
  destruct (sys_urbuf td buf' w2) as [ur' w3].
  injection Hur as -> <-.
  destruct (sum_def_size (blocks buf') (Z.to_nat (num_blocks buf')) 0 0)
    as [size|] eqn:Hsize; [|discriminate].
  apply bind_inv in Hbody as (um & s7 & Hum & Hbody).
  unfold do_munmap in Hum. cbn [world bufs log] in Hum.
  destruct (sys_munmap _ size w3) as [um' w4].
  injection Hum as -> <-. inv_ret Hbody. cbn [bufs log].
  exists [EvOpen td; EvQBuf td (set_offset zero_buf id) 0 buf';
          EvURBuf td buf' ur;
          EvMunmap (ROUND_DOWN_TO2POW (u32 p) PAGE_SIZE) size um;
          EvClose td].
  split.
  - rewrite <- !app_assoc. reflexivity.
  - now apply dt_unmapped.
Qed.

(** ** Remap *)

Lemma remap_blocks_app (td : Z) (dsptrs lengths : list Z) (k j : nat) :
  forall (ix : nat) (buf : tiler_buf_info) (size : Z) (s : state),
  remap_blocks td dsptrs lengths (k + j) ix buf size s
  = match remap_blocks td dsptrs lengths k ix buf size s with
    | Some (Next (buf', size'), s1) =>
        remap_blocks td dsptrs lengths j (ix + k) buf' size' s1
    | Some (GotoFail, s1) => Some (GotoFail, s1)
    | None => None
    end.
Proof.
  induction k as [|k IH]; intros ix buf size s.
  - simpl. now rewrite Nat.add_0_r.
  - cbn [remap_blocks Nat.add]. unfold mbind, M_bind.
    destruct (remap_block td dsptrs lengths ix buf size s)
      as [[[[buf' size']|] s1]|]; try reflexivity.
    rewrite IH. now rewrite Nat.add_succ_r.
Qed.



(** C5: a block count outside [1, TILER_MAX_NUM_BLOCKS] makes remap return
    NULL at once: the state is the one of the call, no session was opened
    and nothing was asked of the driver. *)
Theorem remap_bad_count (n : Z) (dsptrs lengths : list Z) (s : state) :
  n <= 0 \/ TILER_MAX_NUM_BLOCKS < n ->
  tiler_assisted_phase1_D2CReMap n dsptrs lengths s = Some (NULL, s).
Proof.
  intros Hn. unfold tiler_assisted_phase1_D2CReMap.
  destruct (Z.ltb_spec 0 n); [|reflexivity].
  destruct (Z.leb_spec n TILER_MAX_NUM_BLOCKS); [lia|reflexivity].
Qed.

Lemma query_ssptrs_app (evs1 evs2 : list event) :
  query_ssptrs (evs1 ++ evs2) = query_ssptrs evs1 ++ query_ssptrs evs2.
Proof.
  induction evs1 as [|e evs1 IH]; [reflexivity|].
  destruct e; simpl; now rewrite ?IH.
Qed.

Lemma query_trace_ssptrs (td : Z) (ds : list Z) (qs : list event) :
  query_trace td ds qs ->
  query_ssptrs qs = take (length qs) ds /\
  Forall (fun d => d <> 0) (take (length qs) ds).
Proof.
  induction 1 as [ds|d ds blk res out qs Hd Hs Hq [IH1 IH2]]; simpl.
  - split; [reflexivity|constructor].
  - split; [now rewrite Hs, IH1|now constructor].
Qed.

Lemma query_trace_no_rbuf (td : Z) (ds : list Z) (qs : list event) :
  query_trace td ds qs -> forallb (fun e => negb (is_rbuf e)) qs = true.
Proof. induction 1; simpl; auto. Qed.

(** The queries of a whole call. *)
Lemma remap_trace_queries (n : Z) (dsptrs : list Z)
    (cache cache' : list _ReMapData) (r : Z) (evs : list event) :
  remap_trace n dsptrs cache r cache' evs ->
  exists k : nat,
    (k <= Z.to_nat n)%nat /\
    query_ssptrs evs = take k dsptrs /\
    Forall (fun d => d <> 0) (take k dsptrs) /\
    (r <> NULL -> k = Z.to_nat n).
Proof.
  intros Ht.
  destruct Ht as [Hn|td Hn Htd|td qs Hn Htd Hq Hlen Hf
                 |td qs buf res buf' Hn Htd Hq Hlen Hres
                 |td qs buf buf' size p ur Hn Htd Hq Hlen Hsz Hoff Hp
                 |td qs buf buf' size p b0 Hn Htd Hq Hlen Hsz Hoff Hp Hb0 Hnz];
    try (exists 0%nat; simpl; repeat split;
         [lia|constructor|intros []; reflexivity]);
    destruct (query_trace_ssptrs td dsptrs qs Hq) as [Hs Hall];
    exists (length qs); cbn [query_ssptrs];
    rewrite query_ssptrs_app, Hs; simpl; rewrite app_nil_r;
    repeat split; try lia; try assumption; try (intros []; reflexivity).
Qed.

Lemma app_singleton_neq {A} (l : list A) (x : A) : l ++ [x] <> l.
Proof.
  intros E. apply (f_equal (@length A)) in E.
  rewrite length_app in E. simpl in E. lia.
Qed.

(** C10: the device pointer is taken as the driver pointer.  The [ssptr]
    fields of the block queries of a call are the first device pointers of
    the caller, unchanged and in order, none of them zero; and a turn of
    the loop leaves through [FAIL] without a query exactly when the device
    pointer of its block is zero. *)
Theorem translation_is_identity (n : Z) (dsptrs lengths : list Z) :
  (forall (s s' : state) (r : Z),
     tiler_assisted_phase1_D2CReMap n dsptrs lengths s = Some (r, s') ->
     exists (evs : list event) (k : nat),
       log s' = log s ++ evs /\
       (k <= Z.to_nat n)%nat /\
       query_ssptrs evs = take k dsptrs /\
       Forall (fun d => d <> 0) (take k dsptrs) /\
       (r <> NULL -> k = Z.to_nat n)) /\
  (forall (td : Z) (ix : nat) (buf : tiler_buf_info) (size : Z) (s : state)
          (d : Z) (blk0 : tiler_block_info),
     dsptrs !! ix = Some d -> blocks buf !! ix = Some blk0 ->
     (d = 0 ->
      remap_block td dsptrs lengths ix buf size s = Some (GotoFail, s)) /\
     (forall r s',
        remap_block td dsptrs lengths ix buf size s = Some (r, s') ->
        (d = 0 <-> log s' = log s) /\
        (d <> 0 ->
         exists res out,
           log s' = log s ++ [EvQueryBlk td (set_ssptr blk0 d) res out] /\
           ssptr (set_ssptr blk0 d) = d))).
Proof.
  split.
  - intros s s' r Hr.
    apply remap_sound in Hr as (evs & Hlog & Ht).
    apply remap_trace_queries in Ht as (k & Hk & Hs & Hall & Hfull).
    exists evs, k. auto.
  - intros td ix buf size s d blk0 Hd Hb. split.
    + intros ->. now apply remap_block_zero with (blk0 := blk0).
    + intros r s' Hr.
      apply remap_block_inv in Hr
        as (d' & blk0' & Hd' & Hb' &
            [(Hz & _ & ->)|(Hz & res & out & w & _ & -> & _)]);
        assert (Ed : d' = d) by congruence;
        assert (Eb : blk0' = blk0) by congruence;
        rewrite Ed in *; rewrite Eb in *; clear Ed Eb Hd' Hb'.
      * split; [split; auto|]. intros Hnz. contradiction.
      * cbn [log]. split.
        -- split; [contradiction|].
           intros E. exfalso. now apply app_singleton_neq in E.
        -- intros _. exists res, out. split; reflexivity.
Qed.

Lemma zero_buf_length :
  length (blocks zero_buf)
  = Z.to_nat TILER_MAX_NUM_BLOCKS.
Proof. unfold zero_buf. cbn [blocks]. apply length_replicate. Qed.

(** C6: when the device pointer of a block within the count is zero, a
    call of remap that returns has returned NULL, has left the cache as it
    was and has not asked for a registration; if it opened a session, the
    last thing it did was to close it.  When the blocks before that one
    pass, the call does return, right after closing the session. *)
Theorem translation_fault (n : Z) (dsptrs lengths : list Z) (k : nat) :
  (k < Z.to_nat n)%nat ->
  dsptrs !! k = Some 0 ->
  (forall (s s' : state) (r : Z),
     tiler_assisted_phase1_D2CReMap n dsptrs lengths s = Some (r, s') ->
     r = NULL /\ bufs s' = bufs s /\
     exists evs,
       log s' = log s ++ evs /\
       forallb (fun e => negb (is_rbuf e)) evs = true /\
       (forall td, head evs = Some (EvOpen td) -> 0 <= td ->
                   last evs = Some (EvClose td))) /\
  (forall (s sk : state) (td : Z) (w1 : W) (bufk : tiler_buf_info)
          (sizek : Z),
     n <= TILER_MAX_NUM_BLOCKS ->
     sys_open (world s) = (td, w1) -> 0 <= td ->
     remap_blocks td dsptrs lengths k 0
       (mk_buf n (blocks zero_buf)
               (offset zero_buf)) 0
       (mk_state w1 (bufs s) (log s ++ [EvOpen td]))
     = Some (Next (bufk, sizek), sk) ->
     tiler_assisted_phase1_D2CReMap n dsptrs lengths s
     = Some (NULL, mk_state (sys_close td (world sk)) (bufs s)
                            (log sk ++ [EvClose td]))).
Proof.
  intros Hk Hz. split.
  - intros s s' r Hr.
    apply remap_sound in Hr as (evs & Hlog & Ht).
    assert (Hfull : forall td qs, query_trace td dsptrs qs ->
                                  length qs = Z.to_nat n -> False).
    { intros td qs Hq Hlen.
      apply (query_trace_nonzero td dsptrs qs Hq k 0); [lia|assumption|].
      reflexivity. }
    destruct Ht as [Hn|td Hn Htd|td qs Hn Htd Hq Hlen Hf
                   |td qs buf res buf' Hn Htd Hq Hlen Hres
                   |td qs buf buf' size p ur Hn Htd Hq Hlen Hsz Hoff Hp
                   |td qs buf buf' size p b0 Hn Htd Hq Hlen Hsz Hoff Hp Hb0 Hnz];
      try (exfalso; exact (Hfull td qs Hq Hlen)).
    + repeat split. exists []. repeat split; [assumption|]. discriminate.
    + repeat split. exists [EvOpen td]. repeat split; [assumption|].
      simpl. intros td' [= <-] Htd'. lia.
    + repeat split. exists (EvOpen td :: qs ++ [EvClose td]).
      split; [assumption|]. split.
      * simpl. rewrite forallb_app, (query_trace_no_rbuf td dsptrs qs Hq).
        reflexivity.
      * simpl. intros td' [= <-] _.
        rewrite app_comm_cons. apply last_snoc.
  - intros s sk td w1 bufk sizek Hmax Ho Htd Hloop.
    unfold tiler_assisted_phase1_D2CReMap.
    destruct (Z.ltb_spec 0 n); [|lia].
    destruct (Z.leb_spec n TILER_MAX_NUM_BLOCKS); [|lia].
    cbn [negb orb].
    erewrite bind_Some; [|unfold do_open; rewrite Ho; reflexivity].
    destruct (Z.leb_spec 0 td); [|lia]. cbn [negb].
    replace (Z.to_nat n) with (k + S (Z.to_nat n - S k))%nat by lia.
    assert (Hb : bufs sk = bufs s /\
                 exists blk0, blocks bufk !! k = Some blk0).
    { pose proof Hloop as Hinv.
      apply remap_blocks_inv in Hinv as (Hc & qs & _ & _ & _ & _ & Hlb).
      split; [exact Hc|].
      cbn [blocks] in Hlb. apply lookup_lt_is_Some_2.
      rewrite Hlb, zero_buf_length. lia. }
    destruct Hb as [Hc [blk0 Hb]].
    erewrite bind_Some.
    2:{ rewrite remap_blocks_app, Hloop. cbn [remap_blocks Nat.add].
        erewrite bind_Some; [|now apply remap_block_zero with (blk0 := blk0)].
        reflexivity. }
    unfold mbind, M_bind, do_close, mret, M_ret. now rewrite Hc.
Qed.

(** The part of remap before the registration: count, session, loop. *)
Lemma remap_prefix (n : Z) (dsptrs lengths : list Z) (s s2 : state)
    (td : Z) (w1 : W) (buf : tiler_buf_info) (size : Z) :
  0 < n <= TILER_MAX_NUM_BLOCKS ->
  sys_open (world s) = (td, w1) -> 0 <= td ->
  remap_blocks td dsptrs lengths (Z.to_nat n) 0
    (mk_buf n (blocks zero_buf) (offset zero_buf)) 0
    (mk_state w1 (bufs s) (log s ++ [EvOpen td]))
  = Some (Next (buf, size), s2) ->
  tiler_assisted_phase1_D2CReMap n dsptrs lengths s
  = ('(res, buf') ← do_rbuf td buf;
     if negb (res =? 0) || (offset buf' =? 0) then
       do_close td;; mret NULL
     else
       p ← do_mmap size td (offset buf');
       p ← (if p =? MAP_FAILED then mret NULL
            else
              b0 ← read (blocks buf') 0;
              mret (u32 (p + Z.land (ssptr b0) (PAGE_SIZE - 1))));
       if p =? NULL then
         do_urbuf td buf';; do_close td;; mret p
       else
         cache_add p (offset buf');;
         do_close td;; mret p) s2.
Proof.
  intros Hn Ho Htd Hloop. unfold tiler_assisted_phase1_D2CReMap.
  destruct (Z.ltb_spec 0 n); [|lia].
  destruct (Z.leb_spec n TILER_MAX_NUM_BLOCKS); [|lia].
  cbn [negb orb].
  erewrite bind_Some; [|unfold do_open; rewrite Ho; reflexivity].
  destruct (Z.leb_spec 0 td); [|lia]. cbn [negb].
  erewrite bind_Some; [|exact Hloop].
  reflexivity.
Qed.

(** C4: when every block is resolved and the registration succeeds but
    [mmap] answers [MAP_FAILED], remap asks the driver to unregister the
    buffer, closes the session and returns NULL; the cache is the one of
    the call. *)
Theorem mapping_failure_cleanup (n : Z) (dsptrs lengths : list Z)
    (s s2 : state) (td : Z) (w1 w3 w4 : W) (buf buf' : tiler_buf_info)
    (size : Z) :
  0 < n <= TILER_MAX_NUM_BLOCKS ->
  sys_open (world s) = (td, w1) -> 0 <= td ->
  remap_blocks td dsptrs lengths (Z.to_nat n) 0
    (mk_buf n (blocks zero_buf) (offset zero_buf)) 0
    (mk_state w1 (bufs s) (log s ++ [EvOpen td]))
  = Some (Next (buf, size), s2) ->
  sys_rbuf td buf (world s2) = (0, buf', w3) ->
  offset buf' <> 0 ->
  sys_mmap size td (offset buf') w3 = (MAP_FAILED, w4) ->
  tiler_assisted_phase1_D2CReMap n dsptrs lengths s
  = Some (NULL,
          mk_state (sys_close td (snd (sys_urbuf td buf' w4)))
            (bufs s)
            (log s2 ++ [EvRBuf td buf 0 buf';
                        EvMmap size td (offset buf') MAP_FAILED;
                        EvURBuf td buf' (fst (sys_urbuf td buf' w4));
                        EvClose td])).
Proof.
  intros Hn Ho Htd Hloop Hrb Hoff Hmm.
  rewrite (remap_prefix n dsptrs lengths s s2 td w1 buf size) by assumption.
  apply remap_blocks_inv in Hloop as (Hc & _). cbn [bufs] in Hc.
  unfold mbind, M_bind, do_rbuf. rewrite Hrb. cbn [negb orb Z.eqb].
  destruct (Z.eqb_spec (offset buf') 0); [contradiction|].
  unfold do_mmap. cbn [world bufs log]. rewrite Hmm.
  rewrite Z.eqb_refl. unfold mret, M_ret. cbn [Z.eqb NULL].
  unfold do_urbuf. cbn [world bufs log].
  destruct (sys_urbuf td buf' w4) as [ur w5]. cbn [fst snd].
  unfold do_close. cbn [world bufs log].
  rewrite Hc, <- !app_assoc. reflexivity.
Qed.

(** The way through remap on which the buffer is registered, mapped and
    cached. *)
Lemma remap_mapped (n : Z) (dsptrs lengths : list Z)
    (s s2 : state) (td : Z) (w1 w3 w4 : W) (buf buf' : tiler_buf_info)
    (size p : Z) (b0 : tiler_block_info) :
  0 < n <= TILER_MAX_NUM_BLOCKS ->
  sys_open (world s) = (td, w1) -> 0 <= td ->
  remap_blocks td dsptrs lengths (Z.to_nat n) 0
    (mk_buf n (blocks zero_buf) (offset zero_buf)) 0
    (mk_state w1 (bufs s) (log s ++ [EvOpen td]))
  = Some (Next (buf, size), s2) ->
  sys_rbuf td buf (world s2) = (0, buf', w3) ->
  offset buf' <> 0 ->
  sys_mmap size td (offset buf') w3 = (p, w4) ->
  p <> MAP_FAILED ->
  blocks buf' !! 0%nat = Some b0 ->
  u32 (p + Z.land (ssptr b0) (PAGE_SIZE - 1)) <> NULL ->
  tiler_assisted_phase1_D2CReMap n dsptrs lengths s
  = Some (u32 (p + Z.land (ssptr b0) (PAGE_SIZE - 1)),
          mk_state (sys_close td w4)
            (remap_cache_add (u32 (p + Z.land (ssptr b0) (PAGE_SIZE - 1)))
                             (offset buf') (bufs s))
            (log s2 ++ [EvRBuf td buf 0 buf';
                        EvMmap size td (offset buf') p;
                        EvClose td])).
Proof.
  intros Hn Ho Htd Hloop Hrb Hoff Hmm Hp Hb0 Hnz.
  rewrite (remap_prefix n dsptrs lengths s s2 td w1 buf size) by assumption.
  apply remap_blocks_inv in Hloop as (Hc & _). cbn [bufs] in Hc.
  unfold mbind, M_bind, do_rbuf. rewrite Hrb. cbn [negb orb Z.eqb].
  destruct (Z.eqb_spec (offset buf') 0); [contradiction|].
  unfold do_mmap. cbn [world bufs log]. rewrite Hmm.
  destruct (Z.eqb_spec p MAP_FAILED); [contradiction|].
  unfold read. rewrite Hb0. unfold mret, M_ret.
  destruct (Z.eqb_spec (u32 (p + Z.land (ssptr b0) (PAGE_SIZE - 1))) NULL);
    [contradiction|].
  unfold cache_add, do_close. cbn [world bufs log].
  rewrite Hc, <- !app_assoc. reflexivity.
Qed.



(** ** Demap *)



(** The loop of lines 348-352 adds up [def_size] in [bytes_t]. *)
Lemma sum_def_size_eq (blks : list tiler_block_info) (todo : nat) :
  forall (ix : nat) (acc : Z),
  (ix + todo <= length blks)%nat ->
  0 <= acc < 2 ^ 32 ->
  sum_def_size blks todo ix acc
  = Some (u32 (acc + total_def_size (take todo (drop ix blks)))).
Proof.
  induction todo as [|todo IH]; intros ix acc Hlen Hacc.
  - simpl. rewrite Z.add_0_r, u32_small by assumption. reflexivity.
  - cbn [sum_def_size].
    destruct (blks !! ix) as [b|] eqn:Hb.
    2:{ apply lookup_ge_None in Hb. lia. }
    rewrite IH by (try apply u32_range; lia).
    rewrite (drop_S blks b ix Hb). cbn [take total_def_size foldr].
    rewrite u32_add_l. f_equal. f_equal. unfold total_def_size. lia.
Qed.

Lemma ERR_ADD_zero (err e : Z) : ERR_ADD err e = 0 <-> err = 0 /\ e = 0.
Proof.
  unfold ERR_ADD. destruct (Z.eqb_spec err 0); split; intros; lia.
Qed.

(** C7: a demap that finds the pointer in the cache and whose buffer query
    succeeds asks the driver to unregister the buffer and then, whatever
    the driver answered, unmaps: from the page of the pointer on, the sum
    of [def_size] over the blocks the query answered with.  The status
    returned is the error of the unregistration when there is one,
    otherwise the result of [munmap]: it is 0 exactly when both are 0. *)
Theorem demap_unmaps (p : Z) (s : state) (td : Z) (w1 w2 : W)
    (id : Z) (cache' : list _ReMapData) (buf' : tiler_buf_info) :
  0 <= p < 2 ^ 32 ->
  sys_open (world s) = (td, w1) -> 0 <= td ->
  remap_cache_del p (bufs s) = (id, cache') -> id <> 0 ->
  sys_qbuf td (set_offset zero_buf id) w1 = (0, buf', w2) ->
  (Z.to_nat (num_blocks buf') <= length (blocks buf'))%nat ->
  0 <= total_def_size (queried_blocks buf') < 2 ^ 32 ->
  let ur := fst (sys_urbuf td buf' w2) in
  let w3 := snd (sys_urbuf td buf' w2) in
  let addr := PAGE_SIZE * (p / PAGE_SIZE) in
  let size := total_def_size (queried_blocks buf') in
  let um := fst (sys_munmap addr size w3) in
  let w4 := snd (sys_munmap addr size w3) in
  tiler_assisted_phase1_DeMap p s
  = Some (ERR_ADD ur um,
          mk_state (sys_close td w4) cache'
            (log s ++ [EvOpen td;
                       EvQBuf td (set_offset zero_buf id) 0 buf';
                       EvURBuf td buf' ur;
                       EvMunmap addr size um;
                       EvClose td])) /\
  (ERR_ADD ur um = 0 <-> ur = 0 /\ um = 0) /\
  (ur <> 0 -> ERR_ADD ur um = ur) /\
  (ur = 0 -> ERR_ADD ur um = um).
Proof.
  intros Hp Ho Htd Hdel Hid Hq Hn Htot. cbv zeta.
  destruct (sys_urbuf td buf' w2) as [ur w3] eqn:Hur. cbn [fst snd].
  set (addr := PAGE_SIZE * (p / PAGE_SIZE)).
  set (size := total_def_size (queried_blocks buf')).
  destruct (sys_munmap addr size w3) as [um w4] eqn:Hum. cbn [fst snd].
  split; [|split; [apply ERR_ADD_zero|split]].
  - unfold tiler_assisted_phase1_DeMap.
    erewrite bind_Some; [|unfold do_open; rewrite Ho; reflexivity].
    destruct (Z.leb_spec 0 td); [|lia]. cbn [negb].
    erewrite bind_Some;
      [|unfold cache_del; cbn [world bufs log]; rewrite Hdel; reflexivity].
    cbn [set_offset offset].
    destruct (Z.eqb_spec id 0); [contradiction|]. cbn [negb].
    unfold mbind at 1. unfold M_bind at 1.
    unfold mbind at 1. unfold M_bind at 1.
    unfold do_qbuf. cbn [world bufs log].
    change (mk_buf (num_blocks zero_buf) (blocks zero_buf) id)
      with (set_offset zero_buf id).
    rewrite Hq. cbn [Z.eqb].
    unfold mbind at 1. unfold M_bind at 1.
    unfold do_urbuf. cbn [world bufs log]. rewrite Hur.
    rewrite (sum_def_size_eq _ _ 0 0) by (simpl; lia).
    rewrite drop_0, Z.add_0_l. fold (queried_blocks buf').
    rewrite (u32_small (total_def_size (queried_blocks buf')))
      by assumption.
    fold size.
    rewrite (u32_small p) by assumption.
    rewrite ROUND_DOWN_TO2POW_page by assumption. fold addr.
    unfold mbind, M_bind, do_munmap. cbn [world bufs log]. rewrite Hum.
    unfold mret, M_ret, do_close. cbn [world bufs log].
    rewrite <- !app_assoc. reflexivity.
  - intros Hnz. unfold ERR_ADD. destruct (Z.eqb_spec ur 0); [lia|reflexivity].
  - intros ->. reflexivity.
Qed.

(** *** The cache *)

Lemma remap_cache_del_miss (p : Z) (cache : list _ReMapData) :
  has_entry p cache = false -> remap_cache_del p cache = (0, cache).
Proof.
  induction cache as [|ad cache IH]; simpl; intros Hc; [reflexivity|].
  apply orb_false_iff in Hc as [Hp Hc].
  rewrite Hp, (IH Hc). reflexivity.
Qed.

Lemma remap_cache_del_add (p id : Z) (cache : list _ReMapData) :
  has_entry p cache = false ->
  remap_cache_del p (remap_cache_add p id cache) = (id, cache).
Proof.
  unfold remap_cache_add.
  induction cache as [|ad cache IH]; simpl; intros Hc.
  - now rewrite Z.eqb_refl.
  - apply orb_false_iff in Hc as [Hp Hc].
    rewrite Hp, (IH Hc). reflexivity.
Qed.



(** What is left is a part of the cache. *)
Lemma remap_cache_del_sublist (p : Z) (cache : list _ReMapData) :
  forall ad, In ad (snd (remap_cache_del p cache)) -> In ad cache.
Proof.
  induction cache as [|ad0 cache IH]; simpl; intros ad Hin; [assumption|].
  destruct (bufPtr ad0 =? p).
  - right. exact Hin.
  - destruct (remap_cache_del p cache) as [id rest]. simpl in *.
    destruct Hin as [->|Hin]; auto.
Qed.




(** ** The invariant of the cache *)

Lemma ghost_after_app (g : ghost) (l1 l2 : list event) :
  ghost_after g (l1 ++ l2) = ghost_after (ghost_after g l1) l2.
Proof. unfold ghost_after. apply fold_left_app. Qed.

Lemma env_ok_app (l1 l2 : list event) :
  forall g, env_ok g (l1 ++ l2) <-> env_ok g l1 /\ env_ok (ghost_after g l1) l2.
Proof.
  induction l1 as [|e l1 IH]; intros g; simpl.
  - tauto.
  - rewrite IH. tauto.
Qed.

Lemma query_trace_ghost (td : Z) (ds : list Z) (qs : list event) :
  query_trace td ds qs -> forall g, ghost_after g qs = g.
Proof. induction 1; intros g; simpl; auto. Qed.

(** The session and the block queries change nothing for the buffers. *)
Lemma ghost_after_loop (td : Z) (ds : list Z) (qs tail : list event)
    (g : ghost) :
  query_trace td ds qs ->
  ghost_after g (EvOpen td :: qs ++ tail) = ghost_after g tail /\
  (env_ok g (EvOpen td :: qs ++ tail) -> env_ok g tail).
Proof.
  intros Hq. split.
  - change (EvOpen td :: qs ++ tail) with ([EvOpen td] ++ qs ++ tail).
    rewrite !ghost_after_app. simpl.
    now rewrite (query_trace_ghost td ds qs Hq).
  - simpl. intros [_ Hok]. apply env_ok_app in Hok as [_ Hok].
    now rewrite (query_trace_ghost td ds qs Hq) in Hok.
Qed.

Lemma NoDup_fmap_remove {A B} (f : A -> B) (l1 l2 : list A) (x : A) :
  NoDup (f <$> (l1 ++ x :: l2)) ->
  NoDup (f <$> (l1 ++ l2)) /\ f x ∉ f <$> (l1 ++ l2).
Proof.
  rewrite !fmap_app, fmap_cons. intros Hnd.
  apply NoDup_app in Hnd as (H1 & H12 & H2).
  apply NoDup_cons in H2 as [Hx H2].
  split.
  - apply NoDup_app. split; [assumption|]. split; [|assumption].
    intros y Hy Hy'. apply (H12 y Hy). now right.
  - apply not_elem_of_app. split; [|assumption].
    intros Hin. apply (H12 _ Hin). now left.
Qed.

(** [remap_cache_del] leaves the cache as it is or takes one element with
    the pointer out. *)
Lemma remap_cache_del_split (p : Z) (cache : list _ReMapData) :
  forall id cache',
  remap_cache_del p cache = (id, cache') ->
  (cache' = cache /\ id = 0) \/
  exists l1 ad l2,
    cache = l1 ++ ad :: l2 /\ cache' = l1 ++ l2 /\
    bufPtr ad = p /\ tiler_id ad = id.
Proof.
  induction cache as [|ad cache IH]; simpl; intros id cache' Hd.
  - injection Hd as <- <-. now left.
  - destruct (Z.eqb_spec (bufPtr ad) p) as [Hp|Hp].
    + injection Hd as <- <-. right. exists [], ad, cache. auto.
    + destruct (remap_cache_del p cache) as [id0 rest] eqn:Hr.
      injection Hd as <- <-.
      destruct (IH id0 rest eq_refl)
        as [[-> ->]|(l1 & ad' & l2 & -> & -> & Hp' & Hid)].
      * now left.
      * right. exists (ad :: l1), ad', l2. auto.
Qed.

Lemma inv_g_remove (g : ghost) (l1 l2 : list _ReMapData) (ad : _ReMapData) :
  inv_g g (l1 ++ ad :: l2) ->
  inv_g g (l1 ++ l2) /\
  (tiler_id ad ∉ cache_ids (l1 ++ l2)) /\
  (page_floor (bufPtr ad) ∉ cache_pages (l1 ++ l2)) /\
  live g (page_floor (bufPtr ad)) (tiler_id ad).
Proof.
  intros (Hids & Hpages & Hok & Hlive).
  apply NoDup_fmap_remove in Hids as [Hids Hid].
  apply (NoDup_fmap_remove (fun ad => page_floor (bufPtr ad))) in Hpages
    as [Hpages Hpage].
  split; [|split; [assumption|split; [assumption|]]].
  - split; [assumption|]. split; [assumption|]. split; [assumption|].
    intros ad' Hin. apply Hlive.
    apply elem_of_app in Hin as [Hin|Hin];
      apply elem_of_app; [now left|right; now right].
  - apply Hlive. apply elem_of_app. right. now left.
Qed.

Lemma inv_g_del (g : ghost) (p id : Z) (cache cache' : list _ReMapData) :
  remap_cache_del p cache = (id, cache') ->
  inv_g g cache -> inv_g g cache'.
Proof.
  intros Hd Hinv.
  apply remap_cache_del_split in Hd
    as [[-> _]|(l1 & ad & l2 & -> & -> & _ & _)]; [assumption|].
  now apply inv_g_remove in Hinv as [? _].
Qed.

(** The pointer remap returns lies in the page [mmap] answered with. *)
Lemma page_floor_adjusted (p x : Z) :
  0 <= p < 2 ^ 32 -> p mod PAGE_SIZE = 0 ->
  page_floor (u32 (p + Z.land x (PAGE_SIZE - 1))) = p.
Proof.
  intros Hp Hal. unfold page_floor.
  change (PAGE_SIZE - 1) with (Z.ones 12).
  rewrite Z.land_ones by lia.
  pose proof (Z.mod_pos_bound x (2 ^ 12) ltac:(lia)) as Hx.
  apply Z.div_exact in Hal; [|discriminate].
  assert (HP : PAGE_SIZE = 4096) by reflexivity.
  assert (Hsum : 0 <= p + x mod 2 ^ 12 < 2 ^ 32) by lia.
  rewrite !(u32_small (p + x mod 2 ^ 12)) by assumption.
  rewrite ROUND_DOWN_TO2POW_page by assumption.
  rewrite Hal at 1.
  replace (PAGE_SIZE * (p / PAGE_SIZE) + x mod 2 ^ 12)
    with (x mod 2 ^ 12 + (p / PAGE_SIZE) * PAGE_SIZE) by lia.
  rewrite Z.div_add by lia.
  rewrite (Z.div_small (x mod 2 ^ 12)) by lia. lia.
Qed.

Lemma cache_ids_registered (g : ghost) (cache : list _ReMapData) (id : Z) :
  inv_g g cache -> id ∈ cache_ids cache -> id ∈ fst <$> registered g.
Proof.
  intros (_ & _ & _ & Hlive) Hin.
  apply list_elem_of_fmap in Hin as (ad & -> & Had).
  destruct (Hlive ad Had) as (blks & Hr & _).
  apply list_elem_of_fmap. now exists (tiler_id ad, blks).
Qed.

Lemma cache_pages_mapped (g : ghost) (cache : list _ReMapData) (base : Z) :
  inv_g g cache -> base ∈ cache_pages cache ->
  exists m, m ∈ mapped g /\ r_addr m = base.
Proof.
  intros (_ & _ & _ & Hlive) Hin.
  apply list_elem_of_fmap in Hin as (ad & -> & Had).
  destruct (Hlive ad Had) as (blks & _ & Hm).
  eexists. split; [exact Hm|reflexivity].
Qed.

Lemma overlaps_sym (a1 s1 a2 s2 : Z) :
  overlaps a1 s1 a2 s2 = overlaps a2 s2 a1 s1.
Proof. unfold overlaps. apply andb_comm. Qed.

Lemma NoDup_fmap_filter {A B} (f : A -> B) (P : A -> Prop)
    `{forall x, Decision (P x)} (l : list A) :
  NoDup (f <$> l) -> NoDup (f <$> filter P l).
Proof.
  induction l as [|x l IH]; [auto|].
  rewrite fmap_cons, NoDup_cons. intros [Hx Hl].
  rewrite filter_cons. destruct (decide (P x)); [|auto].
  rewrite fmap_cons, NoDup_cons. split; [|auto].
  intros Hin. apply Hx.
  apply list_elem_of_fmap in Hin as (y & -> & Hy).
  apply list_elem_of_filter in Hy as [_ Hy].
  apply list_elem_of_fmap. eauto.
Qed.

(** The steps of the ghost keep it well formed, when the environment is
    as assumed. *)
Lemma ghost_ok_register (g : ghost) (id : Z) (blks : list tiler_block_info) :
  ghost_ok g -> id ∉ fst <$> registered g ->
  ghost_ok (mk_ghost ((id, blks) :: registered g) (mapped g)).
Proof.
  intros [Hr Hm] Hid. split; [|exact Hm].
  cbn [registered fmap list_fmap fst]. now apply NoDup_cons.
Qed.

Lemma ghost_ok_unregister (g : ghost) (id : Z) :
  ghost_ok g ->
  ghost_ok (mk_ghost (filter (fun r => fst r <> id) (registered g))
                     (mapped g)).
Proof.
  intros [Hr Hm]. split; [|exact Hm].
  cbn [registered]. now apply NoDup_fmap_filter.
Qed.

Lemma ghost_ok_map (g : ghost) (m : region) :
  ghost_ok g ->
  (forall m', m' ∈ mapped g ->
              r_addr m' <> r_addr m /\
              overlaps (r_addr m) (r_size m) (r_addr m') (r_size m')
              = false) ->
  ghost_ok (mk_ghost (registered g) (m :: mapped g)).
Proof.
  intros [Hr Hm] Hnew. split; [exact Hr|].
  cbn [mapped]. intros m1 m2 H1 H2 Hne.
  apply elem_of_cons in H1 as [->|H1];
    apply elem_of_cons in H2 as [->|H2].
  - contradiction.
  - now apply Hnew.
  - rewrite overlaps_sym. now apply Hnew.
  - now apply Hm.
Qed.

Lemma ghost_ok_unmap (g : ghost) (addr size : Z) :
  ghost_ok g ->
  ghost_ok (mk_ghost (registered g)
              (filter (fun m => overlaps addr size (r_addr m) (r_size m)
                                = false)
                      (mapped g))).
Proof.
  intros [Hr Hm]. split; [exact Hr|].
  cbn [mapped]. intros m1 m2 H1 H2 Hne.
  apply list_elem_of_filter in H1 as [_ H1].
  apply list_elem_of_filter in H2 as [_ H2].
  now apply Hm.
Qed.

(** An element stays live when the registration and the region it is
    live by stay. *)
Lemma live_mono (g g' : ghost) (base id : Z) :
  (forall blks, (id, blks) ∈ registered g -> (id, blks) ∈ registered g') ->
  (forall size, mk_region base size id ∈ mapped g ->
                mk_region base size id ∈ mapped g') ->
  live g base id -> live g' base id.
Proof.
  intros Hr Hm (blks & H1 & H2). exists blks. auto.
Qed.

Lemma inv_g_mono (g g' : ghost) (cache : list _ReMapData) :
  ghost_ok g' ->
  (forall id blks, id ∈ cache_ids cache ->
                   (id, blks) ∈ registered g -> (id, blks) ∈ registered g') ->
  (forall m, r_addr m ∈ cache_pages cache ->
             m ∈ mapped g -> m ∈ mapped g') ->
  inv_g g cache -> inv_g g' cache.
Proof.
  intros Hok' Hr Hm (Hids & Hpages & Hok & Hlive).
  split; [assumption|]. split; [assumption|]. split; [assumption|].
  intros ad Had. apply (live_mono g); [| |now apply Hlive].
  - intros blks. apply Hr. unfold cache_ids.
    apply list_elem_of_fmap. eauto.
  - intros size. apply Hm. cbn [r_addr]. unfold cache_pages.
    apply list_elem_of_fmap. exists ad. auto.
Qed.

(** The size demap computes is the size of the blocks of the answer. *)
Lemma sum_def_size_Some (blks : list tiler_block_info) (todo : nat) :
  forall (ix : nat) (acc size : Z),
  0 <= acc < 2 ^ 32 ->
  sum_def_size blks todo ix acc = Some size ->
  size = u32 (acc + total_def_size (take todo (drop ix blks))).
Proof.
  induction todo as [|todo IH]; intros ix acc size Hacc;
    cbn [sum_def_size].
  - intros [= <-]. cbn [take total_def_size foldr].
    rewrite Z.add_0_r. symmetry. now apply u32_small.
  - destruct (blks !! ix) as [b|] eqn:Hb; [|discriminate].
    intros Hs. apply IH in Hs; [|apply u32_range].
    rewrite (drop_S blks b ix Hb). cbn [take total_def_size foldr].
    fold (total_def_size (take todo (drop (S ix) blks))).
    rewrite Hs, u32_add_l. f_equal. lia.
Qed.

(** Remap keeps the invariant. *)
Lemma inv_remap (g : ghost) (n : Z) (dsptrs : list Z)
    (cache cache' : list _ReMapData) (r : Z) (evs : list event) :
  remap_trace n dsptrs cache r cache' evs ->
  inv_g g cache -> env_ok g evs ->
  inv_g (ghost_after g evs) cache'.
Proof.
  intros Ht Hinv Hok.
  destruct Ht as [Hn|td Hn Htd|td qs Hn Htd Hq Hlen Hf
                 |td qs buf res buf' Hn Htd Hq Hlen Hres
                 |td qs buf buf' size p ur Hn Htd Hq Hlen Hsz Hoff Hp
                 |td qs buf buf' size p b0 Hn Htd Hq Hlen Hsz Hoff Hp Hb0 Hnz];
    try exact Hinv;
    match goal with
    | |- inv_g (ghost_after g (EvOpen td :: qs ++ ?tail)) _ =>
        destruct (ghost_after_loop td dsptrs qs tail g Hq) as [-> Hok'];
        specialize (Hok' Hok); clear Hok
    end.
  - exact Hinv.
  - (* the registration failed *)
    simpl. destruct (Z.eqb_spec res 0) as [->|]; [|exact Hinv].
    simpl in Hok'. destruct Hok' as (Hfr & _). specialize (Hfr eq_refl).
    apply (inv_g_mono g); [| | |exact Hinv].
    + apply ghost_ok_register; [|assumption]. now destruct Hinv as (_ & _ & ? & _).
    + intros id blks _ Hin. cbn [registered]. now right.
    + intros m _ Hin. exact Hin.
  - (* the mapping failed: registered, perhaps mapped, unregistered *)
    simpl in Hok'. destruct Hok' as (Hfr & Hfm & _).
    specialize (Hfr eq_refl).
    assert (Hok : ghost_ok g) by now destruct Hinv as (_ & _ & ? & _).
    set (g1 := mk_ghost ((offset buf', queried_blocks buf) :: registered g)
                        (mapped g)) in *.
    assert (Hok1 : ghost_ok g1) by now apply ghost_ok_register.
    set (g2 := if p =? MAP_FAILED then g1
               else mk_ghost (registered g1)
                             (mk_region p size (offset buf') :: mapped g1)).
    assert (Hok2 : ghost_ok g2).
    { unfold g2. destruct (Z.eqb_spec p MAP_FAILED) as [|Hne];
        [assumption|].
      apply ghost_ok_map; [assumption|]. cbn [r_addr r_size].
      intros m' Hm'. now apply (proj2 (proj2 (Hfm Hne))). }
    assert (Hreg2 : registered g2 = registered g1)
      by (unfold g2; now destruct (p =? MAP_FAILED)).
    assert (Hmap2 : forall m, m ∈ mapped g -> m ∈ mapped g2).
    { intros m Hm. unfold g2. destruct (p =? MAP_FAILED); cbn [mapped g1];
        [assumption|now right]. }
    assert (Hga : ghost_after g [EvRBuf td buf 0 buf';
                                 EvMmap size td (offset buf') p;
                                 EvURBuf td buf' ur; EvClose td]
                  = ghost_step g2 (EvURBuf td buf' ur))
      by reflexivity.
    rewrite Hga.
    cbn [ghost_step].
    destruct (ur =? 0).
    + apply (inv_g_mono g); [| | |exact Hinv].
      * now apply ghost_ok_unregister.
      * intros id blks Hid Hin. cbn [registered].
        apply list_elem_of_filter. cbn [fst]. split.
        -- intros ->. apply Hfr.
           now apply (cache_ids_registered g cache).
        -- rewrite Hreg2. cbn [g1 registered]. now right.
      * intros m _ Hin. cbn [mapped]. now apply Hmap2.
    + apply (inv_g_mono g); [| | |exact Hinv].
      * assumption.
      * intros id blks _ Hin. rewrite Hreg2. cbn [g1 registered].
        now right.
      * intros m _ Hin. now apply Hmap2.
  - (* registered, mapped and cached *)
    simpl in Hok'. destruct Hok' as (Hfr & Hfm & _).
    specialize (Hfr eq_refl).
    destruct (Z.eqb_spec p MAP_FAILED) as [|_]; [contradiction|].
    cbn [mapped registered] in Hfm.
    destruct (Hfm Hp) as (Hrange & Halign & Hnew).
    simpl. destruct (Z.eqb_spec p MAP_FAILED) as [|_]; [contradiction|].
    set (bp := u32 (p + Z.land (ssptr b0) (PAGE_SIZE - 1))).
    assert (Hfloor : page_floor bp = p)
      by now apply page_floor_adjusted.
    pose proof Hinv as (Hids & Hpages & Hok & Hlive).
    unfold remap_cache_add, inv_g, cache_ids, cache_pages.
    rewrite !fmap_app. cbn [fmap list_fmap bufPtr tiler_id].
    rewrite Hfloor.
    split; [|split; [|split]].
    + apply NoDup_app. split; [assumption|]. split; [|apply NoDup_singleton].
      intros id Hid ->%list_elem_of_singleton.
      apply Hfr. now apply (cache_ids_registered g cache).
    + apply NoDup_app. split; [assumption|]. split; [|apply NoDup_singleton].
      intros base Hbase ->%list_elem_of_singleton.
      destruct (cache_pages_mapped g cache p Hinv Hbase) as (m & Hm & Ha).
      now destruct (Hnew m Hm).
    + apply (ghost_ok_map
               (mk_ghost ((offset buf', queried_blocks buf) :: registered g)
                         (mapped g))
               (mk_region p size (offset buf'))).
      * now apply ghost_ok_register.
      * cbn [mapped r_addr r_size]. exact Hnew.
    + intros ad Had. apply elem_of_app in Had as [Had|Had].
      * apply (live_mono g); [| |now apply Hlive];
          intros; cbn [registered mapped]; now right.
      * apply list_elem_of_singleton in Had as ->.
        cbn [bufPtr tiler_id]. rewrite Hfloor.
        exists (queried_blocks buf). cbn [registered mapped].
        split; [now left|]. rewrite <- Hsz. now left.
Qed.

(** Demap keeps the invariant. *)
Lemma inv_demap (g : ghost) (p : Z) (cache cache' : list _ReMapData)
    (r : Z) (evs : list event) :
  demap_trace p cache r cache' evs ->
  inv_g g cache -> env_ok g evs ->
  inv_g (ghost_after g evs) cache'.
Proof.
  intros Ht Hinv Hok.
  destruct Ht as [td Htd|td cache' Htd Hdel
                 |td id cache' res buf' Htd Hdel Hid Hres
                 |td id cache' buf' ur size um Htd Hdel Hid Hsize].
  - exact Hinv.
  - simpl. now apply (inv_g_del g p 0 cache).
  - simpl. now apply (inv_g_del g p id cache).
  - simpl in Hok. destruct Hok as (_ & Hq & _).
    destruct (Hq eq_refl) as [Hoff Hblks]. cbn [set_offset offset] in *.
    apply remap_cache_del_split in Hdel
      as [[_ ->]|(l1 & ad & l2 & -> & -> & Hp & Hidad)]; [contradiction|].
    apply inv_g_remove in Hinv as (Hinv & Hnid & Hnpage & Hlad).
    rewrite Hp, Hidad in *.
    destruct Hlad as (blks & Hreg & Hmap).
    apply sum_def_size_Some in Hsize; [|lia].
    rewrite drop_0, Z.add_0_l in Hsize.
    fold (queried_blocks buf') in Hsize.
    rewrite (Hblks blks Hreg) in Hsize.
    pose proof Hinv as (_ & _ & Hok & _).
    set (g1 := ghost_step g (EvURBuf td buf' ur)).
    assert (Hok1 : ghost_ok g1).
    { unfold g1. cbn [ghost_step]. destruct (ur =? 0); [|assumption].
      now apply ghost_ok_unregister. }
    assert (Hreg1 : forall id' blks',
               id' ∈ cache_ids (l1 ++ l2) ->
               (id', blks') ∈ registered g -> (id', blks') ∈ registered g1).
    { intros id' blks' Hc Hin. unfold g1. cbn [ghost_step].
      destruct (ur =? 0); [|assumption]. cbn [registered].
      apply list_elem_of_filter. cbn [fst]. split; [|assumption].
      rewrite Hoff. intros ->. contradiction. }
    assert (Hmap1 : mapped g1 = mapped g).
    { unfold g1. cbn [ghost_step]. now destruct (ur =? 0). }
    assert (Hga : ghost_after g
                    [EvOpen td; EvQBuf td (set_offset zero_buf id) 0 buf';
                     EvURBuf td buf' ur;
                     EvMunmap (ROUND_DOWN_TO2POW (u32 p) PAGE_SIZE) size um;
                     EvClose td]
                  = ghost_step g1 (EvMunmap (page_floor p) size um))
      by reflexivity.
    rewrite Hga. cbn [ghost_step]. destruct (um =? 0).
    + apply (inv_g_mono g); [| | |exact Hinv].
      * exact (ghost_ok_unmap g1 (page_floor p) size Hok1).
      * intros id' blks' Hc Hin. cbn [registered]. now apply Hreg1.
      * intros m Hc Hin. cbn [mapped]. rewrite Hmap1.
        apply list_elem_of_filter. split; [|assumption].
        rewrite Hsize.
        apply (proj2 Hok (mk_region (page_floor p)
                            (u32 (total_def_size blks)) id) m);
          [assumption|assumption|].
        cbn [r_addr]. intros E. rewrite <- E in Hc. contradiction.
    + apply (inv_g_mono g); [| | |exact Hinv].
      * assumption.
      * intros id' blks' Hc Hin. now apply Hreg1.
      * intros m _ Hin. now rewrite Hmap1.
Qed.

Lemma ghost_of_app (l1 l2 : list event) :
  ghost_of (l1 ++ l2) = ghost_after (ghost_of l1) l2.
Proof. unfold ghost_of. apply ghost_after_app. Qed.

(** A call keeps the invariant. *)
Lemma inv_exec (c : call) (s s' : state) :
  exec c s = Some s' ->
  inv_g (ghost_of (log s)) (bufs s) ->
  env_ok (mk_ghost [] []) (log s') ->
  inv_g (ghost_of (log s')) (bufs s') /\ env_ok (mk_ghost [] []) (log s).
Proof.
  intros He Hinv Hok.
  assert (Hstep : exists evs,
             log s' = log s ++ evs /\
             (inv_g (ghost_of (log s)) (bufs s) ->
              env_ok (ghost_of (log s)) evs ->
              inv_g (ghost_after (ghost_of (log s)) evs) (bufs s'))).
  { destruct c as [n dsptrs lengths|p]; cbn [exec] in He.
    - destruct (tiler_assisted_phase1_D2CReMap n dsptrs lengths s)
        as [[r s1]|] eqn:Hr; [|discriminate].
      injection He as ->.
      apply remap_sound in Hr as (evs & Hlog & Ht).
      exists evs. split; [assumption|]. now apply inv_remap with (r := r)
        (n := n) (dsptrs := dsptrs).
    - destruct (tiler_assisted_phase1_DeMap p s)
        as [[r s1]|] eqn:Hr; [|discriminate].
      injection He as ->.
      apply demap_sound in Hr as (evs & Hlog & Ht).
      exists evs. split; [assumption|].
      now apply inv_demap with (r := r) (p := p). }
  destruct Hstep as (evs & Hlog & Hstep).
  rewrite Hlog in Hok |- *. apply env_ok_app in Hok as [Hok1 Hok2].
  split; [|assumption].
  rewrite ghost_of_app. now apply Hstep.
Qed.

Lemma exec_log (c : call) (s s' : state) :
  exec c s = Some s' -> exists evs, log s' = log s ++ evs.
Proof.
  destruct c as [n dsptrs lengths|p]; cbn [exec]; intros He.
  - destruct (tiler_assisted_phase1_D2CReMap n dsptrs lengths s)
      as [[r s1]|] eqn:Hr; [|discriminate].
    injection He as ->.
    apply remap_sound in Hr as (evs & Hlog & _). eauto.
  - destruct (tiler_assisted_phase1_DeMap p s)
      as [[r s1]|] eqn:Hr; [|discriminate].
    injection He as ->.
    apply demap_sound in Hr as (evs & Hlog & _). eauto.
Qed.

Lemma run_log (cs : list call) :
  forall s s', run cs s = Some s' -> exists evs, log s' = log s ++ evs.
Proof.
  induction cs as [|c cs IH]; intros s s' Hr; simpl in Hr.
  - injection Hr as <-. exists []. now rewrite app_nil_r.
  - destruct (exec c s) as [s1|] eqn:He; [|discriminate].
    apply exec_log in He as [evs1 H1]. apply IH in Hr as [evs2 H2].
    exists (evs1 ++ evs2). now rewrite H2, H1, app_assoc.
Qed.

Lemma inv_run (cs : list call) :
  forall s s',
  run cs s = Some s' ->
  inv_g (ghost_of (log s)) (bufs s) ->
  env_ok (mk_ghost [] []) (log s') ->
  inv_g (ghost_of (log s')) (bufs s').
Proof.
  induction cs as [|c cs IH]; intros s s' Hr Hinv Hok; simpl in Hr.
  - now injection Hr as <-.
  - destruct (exec c s) as [s1|] eqn:He; [|discriminate].
    destruct (run_log cs s1 s' Hr) as [evs Hlog].
    assert (Hok1 : env_ok (mk_ghost [] []) (log s1)).
    { rewrite Hlog in Hok. now apply env_ok_app in Hok as [? _]. }
    destruct (inv_exec c s s1 He Hinv Hok1) as [Hinv1 _].
    now apply (IH s1 s').
Qed.

(** C9, as amended: after any sequence of calls from the start of the
    process, the cache has at most one element for a pointer, and every
    element is for a buffer that is registered with the driver and mapped
    at the page of the pointer, with every page of the size of its
    blocks -- as long as the driver registers under offsets that are not
    in use and answers a buffer query with the offset of the request and
    the blocks registered under it, and [mmap] answers with pages that
    are not in use.  An unmapping takes away every region it has a page
    in common with. *)
Theorem cache_entries_are_live (cs : list call) (w : W) (s : state) :
  run cs (start w) = Some s ->
  env_ok (mk_ghost [] []) (log s) ->
  cache_entries_live s.
Proof.
  intros Hr Hok.
  assert (Hinv : inv_g (ghost_of (log s)) (bufs s)).
  { apply (inv_run cs (start w) s Hr); [|assumption].
    cbn [start bufs log]. split; [constructor|]. split; [constructor|].
    split.
    - split; [constructor|]. intros m1 m2 H1. now apply elem_of_nil in H1.
    - intros ad Had. now apply elem_of_nil in Had. }
  destruct Hinv as (_ & Hpages & _ & Hlive).
  split; [|assumption].
  unfold cache_pages in Hpages.
  apply (NoDup_fmap_1 page_floor).
  now rewrite <- list_fmap_compose.
Qed.

(** * Further properties *)

(** ** Strides and sizes *)

Lemma u16_range (x : Z) : 0 <= u16 x < 2 ^ 16.
Proof. unfold u16. apply Z.mod_pos_bound. lia. Qed.

Lemma def_stride_u16 (w : Z) : def_stride w = def_stride (u16 w).
Proof.
  unfold def_stride. now rewrite (u16_small (u16 w)) by apply u16_range.
Qed.

Lemma def_stride_mod_page (w : Z) : def_stride w mod PAGE_SIZE = 0.
Proof.
  rewrite def_stride_u16, (def_stride_round_up (u16 w) (u16_range w)).
  rewrite Z.mul_comm. apply Z.mod_mul. discriminate.
Qed.

(** X1: [def_stride] rounds the width, as the 16 bits of a [pixels_t], up
    to the next multiple of the page size: the stride is a whole number of
    pages, not below the width and less than a page above it.  A width
    beyond 16 bits is cut first. *)
Theorem def_stride_next_page (w : Z) :
  def_stride w mod PAGE_SIZE = 0 /\
  u16 w <= def_stride w < u16 w + PAGE_SIZE /\
  (def_stride w = u16 w <-> u16 w mod PAGE_SIZE = 0).
Proof.
  rewrite def_stride_u16.
  pose proof (u16_range w) as Hw.
  rewrite (def_stride_round_up (u16 w) Hw).
  set (x := u16 w) in *.
  assert (HP : PAGE_SIZE = 4096) by reflexivity.
  pose proof (Z.div_mod (x + (PAGE_SIZE - 1)) PAGE_SIZE ltac:(lia)) as Hd.
  pose proof (Z.mod_pos_bound (x + (PAGE_SIZE - 1)) PAGE_SIZE ltac:(lia))
    as Hr.
  split; [|split].
  - rewrite Z.mul_comm. apply Z.mod_mul. lia.
  - lia.
  - split; intros E.
    + rewrite <- E, Z.mul_comm. apply Z.mod_mul. lia.
    + apply Z.div_exact in E; [|lia].
      rewrite E at 1.
      replace (PAGE_SIZE * (x / PAGE_SIZE) + (PAGE_SIZE - 1))
        with (PAGE_SIZE - 1 + (x / PAGE_SIZE) * PAGE_SIZE) by lia.
      rewrite Z.div_add by lia.
      rewrite (Z.div_small (PAGE_SIZE - 1)) by lia. lia.
Qed.

Lemma s32_inj (x y : Z) :
  0 <= x < 2 ^ 32 -> 0 <= y < 2 ^ 32 -> s32 x = s32 y -> x = y.
Proof.
  unfold s32. intros Hx Hy E.
  assert (E' : (x + 2 ^ 31) mod 2 ^ 32 = (y + 2 ^ 31) mod 2 ^ 32) by lia.
  clear E.
  destruct (Z_lt_le_dec x (2 ^ 31)), (Z_lt_le_dec y (2 ^ 31)).
  - rewrite !Z.mod_small in E' by lia. lia.
  - rewrite (Z.mod_small (x + 2 ^ 31)) in E' by lia.
    replace (y + 2 ^ 31) with (y - 2 ^ 31 + 1 * 2 ^ 32) in E' by lia.
    rewrite Z.mod_add, Z.mod_small in E' by lia. lia.
  - rewrite (Z.mod_small (y + 2 ^ 31)) in E' by lia.
    replace (x + 2 ^ 31) with (x - 2 ^ 31 + 1 * 2 ^ 32) in E' by lia.
    rewrite Z.mod_add, Z.mod_small in E' by lia. lia.
  - replace (y + 2 ^ 31) with (y - 2 ^ 31 + 1 * 2 ^ 32) in E' by lia.
    replace (x + 2 ^ 31) with (x - 2 ^ 31 + 1 * 2 ^ 32) in E' by lia.
    rewrite !Z.mod_add, !Z.mod_small in E' by lia. lia.
Qed.

(** X2: the size of a 2-D block is a whole number of pages, whatever its
    fields hold; so the check of line 268 cannot hold for a pixel-format
    block when the length of the caller is not a multiple of the page
    size. *)
Theorem def_size_area_pages (blk : tiler_block_info) (len : Z) :
  is_page (fmt blk) = false ->
  0 <= def_size blk < 2 ^ 32 /\
  def_size blk mod PAGE_SIZE = 0 /\
  (0 <= len < 2 ^ 32 -> chk_size blk len = true -> len mod PAGE_SIZE = 0).
Proof.
  intros Hp.
  assert (Hs : 0 <= def_size blk < 2 ^ 32 /\ def_size blk mod PAGE_SIZE = 0).
  { unfold def_size. rewrite Hp. split; [apply u32_range|].
    pose proof (def_stride_mod_page
                  (u32 (dim_area_width blk * def_bpp (fmt blk)))) as Hm.
    apply Z.mod_divide in Hm; [|discriminate]. destruct Hm as [k Hk].
    rewrite Hk. unfold u32.
    rewrite Z.mod_mod_divide by (exists (2 ^ 20); reflexivity).
    rewrite Z.mul_assoc. apply Z.mod_mul. discriminate. }
  destruct Hs as [Hr Hm]. split; [exact Hr|]. split; [exact Hm|].
  intros Hl Hc. unfold chk_size in Hc. apply Z.eqb_eq in Hc.
  apply s32_inj in Hc; [|assumption|assumption].
  now rewrite <- Hc.
Qed.

(** ** The resolver *)

Lemma min_alloc_size_zero (blk : tiler_block_info) :
  area_in_range blk ->
  (min_alloc_size blk = 0
   <-> dim_area_height blk = if is_8bit (fmt blk) then 63 else 31).
Proof.
  intros Ha. unfold min_alloc_size.
  rewrite (max_alloc_size_eq blk Ha). destruct Ha as [_ Hh].
  assert (HP : PAGE_SIZE = 4096) by reflexivity.
  set (k := if is_8bit (fmt blk) then 63 else 31).
  assert (Hk : k = 63 \/ k = 31) by (unfold k; destruct (is_8bit _); auto).
  unfold u32. split; intros E.
  - apply Z.mod_divide in E; [|discriminate]. destruct E as [q Hq].
    assert (-1 < q < 1) by lia. lia.
  - rewrite E. replace (k * PAGE_SIZE - k * PAGE_SIZE) with 0 by lia.
    reflexivity.
Qed.

(** X3: for a 2-D block the three divisions of lines 248, 249 and 264 are
    defined except in four cases: the driver reports no rows; it reports
    the 63 rows (8-bit) or 31 rows (otherwise) that make [min_alloc_size]
    zero; the caller passes a length of zero; or the length plus
    [max_alloc_size] does not fit 32 bits, which makes the page width
    zero. *)
Theorem resolve_stride_undefined (blk : tiler_block_info) (len : Z) :
  area_in_range blk -> 0 <= len < 2 ^ 32 ->
  (resolve_stride blk len = None
   <-> dim_area_height blk = 0 \/
       dim_area_height blk = (if is_8bit (fmt blk) then 63 else 31) \/
       len = 0 \/
       2 ^ 32 <= len + dim_area_height blk * PAGE_SIZE - 1).
Proof.
  intros Ha Hl.
  assert (HP : PAGE_SIZE = 4096) by reflexivity.
  pose proof (min_alloc_size_zero blk Ha) as Hmin.
  pose proof (max_alloc_size_eq blk Ha) as Hmax.
  destruct Ha as [Hw Hh]. split.
  - intros Hn.
    destruct (Z.eq_dec (dim_area_height blk) 0) as [|Hh0]; [now left|].
    destruct (Z.eq_dec (min_alloc_size blk) 0) as [E|Hm0];
      [right; left; now apply Hmin|].
    destruct (Z.eq_dec len 0) as [|Hl0]; [tauto|].
    destruct (Z_lt_le_dec (len + dim_area_height blk * PAGE_SIZE - 1)
                          (2 ^ 32)) as [Hs|Hs]; [|tauto].
    exfalso.
    destruct (resolve_stride_defined blk len (conj Hw Hh)) as [b' Hb];
      try assumption; try lia.
    congruence.
  - intros Hc. unfold resolve_stride.
    destruct (Z.eqb_spec (max_alloc_size blk) 0) as [|Hmax0];
      [reflexivity|].
    destruct (Z.eqb_spec (min_alloc_size blk) 0) as [|Hmin0];
      [reflexivity|].
    assert (Hh0 : 0 < dim_area_height blk) by lia.
    destruct (min_page_width_eq blk len (conj Hw Hh) Hh0 Hl) as [Hok Hwrap].
    assert (Hz : min_page_width blk len = 0).
    { destruct Hc as [Hc|[Hc|[Hc|Hc]]].
      - lia.
      - apply Hmin in Hc. contradiction.
      - rewrite Hok by lia. subst len. apply Z.div_small. lia.
      - now apply Hwrap. }
    rewrite Hz. reflexivity.
Qed.

(** A block of 31 rows that is not 8-bit. *)
Lemma resolve_stride_undefined_witness :
  resolve_stride (mk_block PIXEL_FMT_16BIT 0 4096 31 0 0 1610612736) 4096
  = None.
Proof.
  apply (resolve_stride_undefined
           (mk_block PIXEL_FMT_16BIT 0 4096 31 0 0 1610612736) 4096).
  - unfold area_in_range. simpl. lia.
  - lia.
  - right. left. reflexivity.
Defined.

(** X4: the resolver leaves the format and the two pointers of the block
    as they are; the rows it finds are not more than the rows the driver
    reported, rows of [min_page_width] pages do not exceed the length,
    and the stride is the width.  (Nothing is said of [dim.len], a member
    of the union the area is stored in.) *)
Theorem resolve_stride_within_report (blk b' : tiler_block_info) (len : Z) :
  area_in_range blk -> 0 <= len < 2 ^ 32 ->
  resolve_stride blk len = Some b' ->
  fmt b' = fmt blk /\ ssptr b' = ssptr blk /\ ptr b' = ptr blk /\
  0 <= dim_area_height b' <= dim_area_height blk /\
  dim_area_height b' * (PAGE_SIZE * min_page_width blk len) <= len /\
  stride b' = dim_area_width b'.
Proof.
  intros Ha Hl Hr.
  destruct (resolve_stride_inv blk b' len Ha Hl Hr)
    as (Hh & Hpos & Hs & Hq & H1 & ->).
  cbn [set_area fmt ssptr ptr dim_area_height dim_area_width stride].
  repeat split.
  all: set (mpw := min_page_width blk len) in *.
  all: set (m := dim_area_height blk * PAGE_SIZE) in *.
  all: assert (HP : PAGE_SIZE = 4096) by reflexivity.
  all: assert (Hm : 0 < m) by (unfold m; lia).
  all: pose proof (ceil_div_bounds len m Hm ltac:(lia)) as Hc.
  all: rewrite <- Hq in Hc.
  all: assert (Hmpw : mpw < 2 ^ 32)
         by (rewrite Hq; apply Z.div_lt_upper_bound; lia).
  all: rewrite (u32_small mpw) by lia.
  all: assert (Hrow : 0 <= len / PAGE_SIZE / mpw <= dim_area_height blk).
  all: try (split;
            [apply Z.div_pos; [apply Z.div_pos|]; lia
            |apply Z.lt_succ_r; apply Z.div_lt_upper_bound; [lia|];
             apply Z.div_lt_upper_bound; [lia|]; unfold m in Hc; nia]).
  all: destruct Ha as [_ Hh16].
  all: rewrite (u16_small (len / PAGE_SIZE / mpw)) by lia.
  all: try lia.
  pose proof (Z.mul_div_le len PAGE_SIZE ltac:(lia)).
  pose proof (Z.mul_div_le (len / PAGE_SIZE) mpw ltac:(lia)). nia.
Qed.

Lemma resolve_stride_within_report_witness :
  let blk := mk_block PIXEL_FMT_32BIT 0 8192 64 0 0 1610612736 in
  exists b',
    resolve_stride blk (65 * PAGE_SIZE) = Some b' /\
    dim_area_height b' = 32 /\
    0 <= dim_area_height b' <= dim_area_height blk /\
    dim_area_height b'
    * (PAGE_SIZE * min_page_width blk (65 * PAGE_SIZE)) <= 65 * PAGE_SIZE.
Proof.
  intros blk. exists (set_area blk 2048 32 2048).
  split; [reflexivity|]. split; [reflexivity|].
  destruct (resolve_stride_within_report blk (set_area blk 2048 32 2048)
              (65 * PAGE_SIZE))
    as (_ & _ & _ & Hh & Hr & _); [| |reflexivity|].
  - unfold area_in_range. simpl. lia.
  - change PAGE_SIZE with 4096. lia.
  - split; assumption.
Defined.

(** X5: when the driver reports more rows than the 63 or 31 that are taken
    off for [min_alloc_size], the page width of line 248 is not above the
    one of line 249; the comparison of line 256 can then fail only
    because line 254 has lowered [max_page_width] to the reported
    width. *)
Theorem page_widths_ordered (blk : tiler_block_info) (len : Z) :
  area_in_range blk ->
  (if is_8bit (fmt blk) then 63 else 31) < dim_area_height blk ->
  0 < len ->
  len + dim_area_height blk * PAGE_SIZE - 1 < 2 ^ 32 ->
  min_page_width blk len <= max_page_width0 blk len /\
  (chk_page_width blk len = false ->
   dim_area_width blk / PAGE_SIZE < min_page_width blk len).
Proof.
  intros Ha Hk Hl Hs.
  assert (HP : PAGE_SIZE = 4096) by reflexivity.
  set (k := if is_8bit (fmt blk) then 63 else 31) in *.
  assert (Hk' : k = 63 \/ k = 31) by (unfold k; destruct (is_8bit _); auto).
  assert (Hh : 0 < dim_area_height blk) by lia.
  destruct (min_page_width_eq blk len Ha Hh ltac:(lia)) as [Hmin _].
  specialize (Hmin Hs).
  pose proof (max_alloc_size_eq blk Ha) as Hmax.
  assert (Hma : min_alloc_size blk = (dim_area_height blk - k) * PAGE_SIZE).
  { unfold min_alloc_size. rewrite Hmax. fold k.
    destruct Ha as [_ Hh16]. rewrite u32_small by lia. lia. }
  set (M := dim_area_height blk * PAGE_SIZE) in *.
  set (m := (dim_area_height blk - k) * PAGE_SIZE) in *.
  assert (Hm : 0 < m <= M) by (unfold m, M; lia).
  assert (Hmax0 : max_page_width0 blk len = (len + m - 1) / m).
  { unfold max_page_width0. rewrite Hma.
    rewrite u32_small by lia.
    assert (0 <= (len + m - 1) / m) by (apply Z.div_pos; lia).
    assert ((len + m - 1) / m < 2 ^ 31).
    { apply Z.div_lt_upper_bound; [lia|]. unfold m. lia. }
    apply s32_small. lia. }
  pose proof (ceil_div_bounds len M ltac:(lia) ltac:(lia)) as HcM.
  pose proof (ceil_div_bounds len m ltac:(lia) ltac:(lia)) as Hcm.
  rewrite <- Hmin in HcM. rewrite <- Hmax0 in Hcm.
  assert (Hmin1 : 1 <= min_page_width blk len).
  { rewrite Hmin. apply Z.div_le_lower_bound; lia. }
  assert (Hord : min_page_width blk len <= max_page_width0 blk len) by nia.
  split; [exact Hord|].
  unfold chk_page_width, max_page_width. intros Hc.
  apply Z.leb_gt in Hc.
  destruct (Z.gtb_spec (max_page_width0 blk len)
                       (dim_area_width blk / PAGE_SIZE)); lia.
Qed.

(** A 32-bit block of 64 rows whose reported width is one page, with 128
    pages: two pages are needed. *)
Lemma page_widths_ordered_witness :
  let blk := mk_block PIXEL_FMT_32BIT 0 4096 64 0 0 1610612736 in
  min_page_width blk 524288 <= max_page_width0 blk 524288 /\
  chk_page_width blk 524288 = false /\
  dim_area_width blk / PAGE_SIZE < min_page_width blk 524288.
Proof.
  intros blk.
  destruct (page_widths_ordered blk 524288) as [Ho Hc].
  - unfold area_in_range, blk. simpl. lia.
  - unfold blk. simpl. lia.
  - lia.
  - unfold blk. cbn [dim_area_height]. change PAGE_SIZE with 4096. lia.
  - split; [exact Ho|]. split; [reflexivity|]. apply Hc. reflexivity.
Defined.

(** ** The cache *)

(** X6: [remap_cache_del] either finds no element for the pointer,
    returns 0 and leaves the list, or takes out the first element for the
    pointer -- the oldest one -- and returns its id; the other elements
    stay, in their order. *)
Theorem remap_cache_del_first (p : Z) (cache : list _ReMapData) :
  (has_entry p cache = false /\ remap_cache_del p cache = (0, cache)) \/
  (exists l1 l2 id,
      cache = l1 ++ mk_ReMapData p id :: l2 /\
      has_entry p l1 = false /\
      remap_cache_del p cache = (id, l1 ++ l2)).
Proof.
  induction cache as [|ad cache IH]; simpl.
  - left. auto.
  - destruct (Z.eqb_spec (bufPtr ad) p) as [Hp|Hp]; simpl.
    + right. exists [], cache, (tiler_id ad). destruct ad as [p' id'].
      simpl in *. subst p'. auto.
    + destruct IH as [[Hc Hd]|(l1 & l2 & id & -> & Hl1 & Hd)].
      * left. rewrite Hd. auto.
      * right. exists (ad :: l1), l2, id. rewrite Hd. simpl.
        destruct (Z.eqb_spec (bufPtr ad) p); [contradiction|]. auto.
Qed.

(** X7: a lookup after an insertion.  When the cache has an element for
    the pointer looked up, that older element is served and the new one
    stays at the end; otherwise the new element is served when it is for
    this pointer, leaving the cache as before the insertion, and nothing
    is found when it is for another pointer. *)
Theorem remap_cache_del_after_add (p q id : Z) (cache : list _ReMapData) :
  remap_cache_del q (remap_cache_add p id cache)
  = if has_entry q cache
    then (fst (remap_cache_del q cache),
          remap_cache_add p id (snd (remap_cache_del q cache)))
    else if q =? p then (id, cache)
    else (0, remap_cache_add p id cache).
Proof.
  unfold remap_cache_add.
  induction cache as [|ad cache IH]; simpl.
  - rewrite (Z.eqb_sym p q). destruct (q =? p); reflexivity.
  - destruct (Z.eqb_spec (bufPtr ad) q) as [Hq|Hq]; simpl; [reflexivity|].
    rewrite IH.
    destruct (has_entry q cache).
    + destruct (remap_cache_del q cache) as [i c]. reflexivity.
    + destruct (q =? p); reflexivity.
Qed.

(** X8: lookups of two different pointers do not disturb each other: each
    returns the id it would have returned alone, and the cache left is the
    same in both orders. *)
Theorem remap_cache_del_comm (p q : Z) (cache : list _ReMapData) :
  p <> q ->
  fst (remap_cache_del p (snd (remap_cache_del q cache)))
  = fst (remap_cache_del p cache) /\
  snd (remap_cache_del p (snd (remap_cache_del q cache)))
  = snd (remap_cache_del q (snd (remap_cache_del p cache))).
Proof.
  intros Hpq.
  induction cache as [|ad cache [IH1 IH2]]; simpl; [auto|].
  destruct (Z.eqb_spec (bufPtr ad) q) as [Eq|Nq];
    destruct (Z.eqb_spec (bufPtr ad) p) as [Ep|Np]; simpl.
  - congruence.
  - destruct (remap_cache_del p cache) as [i c] eqn:Hd. simpl.
    destruct (Z.eqb_spec (bufPtr ad) q); [|contradiction]. auto.
  - destruct (remap_cache_del q cache) as [i c] eqn:Hd. simpl.
    destruct (Z.eqb_spec (bufPtr ad) p); [|contradiction]. auto.
  - destruct (remap_cache_del q cache) as [i c] eqn:Hdq.
    destruct (remap_cache_del p cache) as [j d] eqn:Hdp. simpl in *.
    destruct (Z.eqb_spec (bufPtr ad) p); [contradiction|].
    destruct (Z.eqb_spec (bufPtr ad) q); [contradiction|].
    destruct (remap_cache_del p c) as [j' c'] eqn:Hc.
    destruct (remap_cache_del q d) as [i' d'] eqn:Hd'. simpl in *.
    split; congruence.
Qed.



(** The array of the zeroed buffer holds zeroed blocks. *)
Lemma zero_buf_lookup (k : nat) :
  (k < Z.to_nat TILER_MAX_NUM_BLOCKS)%nat ->
  blocks zero_buf !! k = Some zero_block.
Proof.
  intros Hk. unfold zero_buf. cbn [blocks].
  now apply lookup_replicate_2.
Qed.

(** After [k] turns block [k] of the buffer is still zeroed. *)
Lemma remap_blocks_next_zero (td n : Z) (dsptrs lengths : list Z) (k : nat)
    (s sk : state) (bufk : tiler_buf_info) (sizek : Z) :
  (k < Z.to_nat TILER_MAX_NUM_BLOCKS)%nat ->
  remap_blocks td dsptrs lengths k 0
    (mk_buf n (blocks zero_buf) (offset zero_buf)) 0 s
  = Some (Next (bufk, sizek), sk) ->
  blocks bufk !! k = Some zero_block.
Proof.
  intros Hk Hloop.
  apply remap_blocks_buf in Hloop as (_ & _ & _ & _ & _ & Hdrop & _);
    [|lia].
  cbn [blocks Nat.add] in Hdrop.
  rewrite <- (Nat.add_0_r k), <- lookup_drop, Hdrop, lookup_drop.
  rewrite Nat.add_0_r. now apply zero_buf_lookup.
Qed.



(** ** The ways out of remap before the mapping *)

Lemma remap_no_driver_path (n : Z) (dsptrs lengths : list Z) (s : state)
    (td : Z) (w1 : W) :
  0 < n <= TILER_MAX_NUM_BLOCKS ->
  sys_open (world s) = (td, w1) -> td < 0 ->
  tiler_assisted_phase1_D2CReMap n dsptrs lengths s
  = Some (NULL, mk_state w1 (bufs s) (log s ++ [EvOpen td])).
Proof.
  intros Hn Ho Htd. unfold tiler_assisted_phase1_D2CReMap.
  destruct (Z.ltb_spec 0 n); [|lia].
  destruct (Z.leb_spec n TILER_MAX_NUM_BLOCKS); [|lia].
  cbn [negb orb].
  erewrite bind_Some; [|unfold do_open; rewrite Ho; reflexivity].
  destruct (Z.leb_spec 0 td); [lia|]. reflexivity.
Qed.

(** X9: with a valid count, when the driver cannot be opened remap
    returns NULL at once: nothing is read of the two arrays, no session is
    closed, and the cache is the one of the call. *)
Theorem remap_no_driver (n : Z) (dsptrs lengths : list Z) (s : state)
    (td : Z) (w1 : W) :
  0 < n <= TILER_MAX_NUM_BLOCKS ->
  sys_open (world s) = (td, w1) -> td < 0 ->
  tiler_assisted_phase1_D2CReMap n dsptrs lengths s
  = Some (NULL, mk_state w1 (bufs s) (log s ++ [EvOpen td])).
Proof.
  intros Hn Ho Htd. now apply remap_no_driver_path.
Qed.

(** X10: when the first [k] blocks are resolved and the driver fails the
    query for block [k], or answers it with a zero [ssptr], remap closes
    the session and returns NULL: later blocks are not looked at, nothing
    is registered or mapped, and the cache is the one of the call.  The
    request of the query is a zeroed block but for its [ssptr]. *)
Theorem remap_query_fault (n : Z) (dsptrs lengths : list Z) (k : nat)
    (s sk : state) (td : Z) (w1 w : W) (bufk : tiler_buf_info)
    (sizek d res : Z) (out : tiler_block_info) :
  0 < n <= TILER_MAX_NUM_BLOCKS -> (k < Z.to_nat n)%nat ->
  sys_open (world s) = (td, w1) -> 0 <= td ->
  remap_blocks td dsptrs lengths k 0
    (mk_buf n (blocks zero_buf) (offset zero_buf)) 0
    (mk_state w1 (bufs s) (log s ++ [EvOpen td]))
  = Some (Next (bufk, sizek), sk) ->
  dsptrs !! k = Some d -> d <> 0 ->
  sys_query_blk td (set_ssptr zero_block d) (world sk) = (res, out, w) ->
  res <> 0 \/ ssptr out = 0 ->
  tiler_assisted_phase1_D2CReMap n dsptrs lengths s
  = Some (NULL,
          mk_state (sys_close td w) (bufs s)
            (log sk ++ [EvQueryBlk td (set_ssptr zero_block d) res out;
                        EvClose td])).
Proof.
  intros Hn Hk Ho Htd Hloop Hd Hdnz Hq Hf.
  unfold tiler_assisted_phase1_D2CReMap.
  destruct (Z.ltb_spec 0 n); [|lia].
  destruct (Z.leb_spec n TILER_MAX_NUM_BLOCKS); [|lia].
  cbn [negb orb].
  erewrite bind_Some; [|unfold do_open; rewrite Ho; reflexivity].
  destruct (Z.leb_spec 0 td); [|lia]. cbn [negb].
  replace (Z.to_nat n) with (k + S (Z.to_nat n - S k))%nat by lia.
  assert (Hc : bufs sk = bufs s).
  { pose proof Hloop as Hinv.
    now apply remap_blocks_inv in Hinv as (Hc & _). }
  assert (Hb : blocks bufk !! k = Some zero_block).
  { eapply remap_blocks_next_zero; [|exact Hloop]. lia. }
  erewrite bind_Some.
  2:{ rewrite remap_blocks_app, Hloop. cbn [remap_blocks Nat.add].
      erewrite bind_Some;
        [|now apply remap_block_query_fail
            with (d := d) (blk0 := zero_block) (res := res) (out := out)
                 (w := w)].
      reflexivity. }
  unfold mbind, M_bind, do_close, mret, M_ret. cbn [world bufs log].
  rewrite Hc, <- app_assoc. reflexivity.
Qed.

(** X11: when every block is resolved and the driver refuses the
    registration, or answers it with offset zero, remap closes the session
    and returns NULL: nothing is mapped, no unregistration is asked for,
    and the cache is the one of the call. *)
Theorem remap_rbuf_fault (n : Z) (dsptrs lengths : list Z)
    (s s2 : state) (td : Z) (w1 w3 : W) (buf buf' : tiler_buf_info)
    (size res : Z) :
  0 < n <= TILER_MAX_NUM_BLOCKS ->
  sys_open (world s) = (td, w1) -> 0 <= td ->
  remap_blocks td dsptrs lengths (Z.to_nat n) 0
    (mk_buf n (blocks zero_buf) (offset zero_buf)) 0
    (mk_state w1 (bufs s) (log s ++ [EvOpen td]))
  = Some (Next (buf, size), s2) ->
  sys_rbuf td buf (world s2) = (res, buf', w3) ->
  res <> 0 \/ offset buf' = 0 ->
  tiler_assisted_phase1_D2CReMap n dsptrs lengths s
  = Some (NULL,
          mk_state (sys_close td w3) (bufs s)
            (log s2 ++ [EvRBuf td buf res buf'; EvClose td])).
Proof.
  intros Hn Ho Htd Hloop Hrb Hf.
  rewrite (remap_prefix n dsptrs lengths s s2 td w1 buf size Hn Ho Htd Hloop).
  assert (Hc : bufs s2 = bufs s).
  { pose proof Hloop as Hinv.
    now apply remap_blocks_inv in Hinv as (Hc & _). }
  erewrite bind_Some; [|unfold do_rbuf; rewrite Hrb; reflexivity].
  assert (Hcond : negb (res =? 0) || (offset buf' =? 0) = true).
  { destruct (Z.eqb_spec res 0) as [->|]; [|reflexivity].
    destruct Hf as [Hf|Hf]; [contradiction|].
    cbn [negb orb]. now apply Z.eqb_eq. }
  cbv beta iota. rewrite Hcond.
  unfold mbind, M_bind, do_close, mret, M_ret. cbn [world bufs log].
  rewrite Hc, <- app_assoc. reflexivity.
Qed.

(** ** The ways out of demap before the unmapping *)

(** X12: when the driver cannot be opened demap returns
    [REMAP_ERR_GENERIC] at once: the cache is not looked at, so an element
    for the pointer stays, and no session is closed. *)
Theorem demap_no_driver (p : Z) (s : state) (td : Z) (w1 : W) :
  sys_open (world s) = (td, w1) -> td < 0 ->
  tiler_assisted_phase1_DeMap p s
  = Some (REMAP_ERR_GENERIC, mk_state w1 (bufs s) (log s ++ [EvOpen td])).
Proof.
  intros Ho Htd. unfold tiler_assisted_phase1_DeMap.
  erewrite bind_Some; [|unfold do_open; rewrite Ho; reflexivity].
  destruct (Z.leb_spec 0 td); [lia|]. reflexivity.
Qed.

(** X13: when the cache holds the pointer and the driver fails the buffer
    query, demap returns the result of the query after closing the
    session: the element has left the cache, and neither an unregistration
    nor an unmapping is asked for. *)
Theorem demap_query_fault (p : Z) (s : state) (td : Z) (w1 w2 : W)
    (id res : Z) (cache' : list _ReMapData) (buf' : tiler_buf_info) :
  sys_open (world s) = (td, w1) -> 0 <= td ->
  remap_cache_del p (bufs s) = (id, cache') -> id <> 0 ->
  sys_qbuf td (set_offset zero_buf id) w1 = (res, buf', w2) ->
  res <> 0 ->
  tiler_assisted_phase1_DeMap p s
  = Some (res,
          mk_state (sys_close td w2) cache'
            (log s ++ [EvOpen td;
                       EvQBuf td (set_offset zero_buf id) res buf';
                       EvClose td])).
Proof.
  intros Ho Htd Hdel Hid Hq Hres. unfold tiler_assisted_phase1_DeMap.
  erewrite bind_Some; [|unfold do_open; rewrite Ho; reflexivity].
  destruct (Z.leb_spec 0 td); [|lia]. cbn [negb].
  erewrite bind_Some;
    [|unfold cache_del; cbn [world bufs log]; rewrite Hdel; reflexivity].
  cbn [set_offset offset].
  destruct (Z.eqb_spec id 0); [contradiction|]. cbn [negb].
  unfold mbind at 1. unfold M_bind at 1.
  unfold mbind at 1. unfold M_bind at 1.
  unfold do_qbuf. cbn [world bufs log].
  change (mk_buf (num_blocks zero_buf) (blocks zero_buf) id)
    with (set_offset zero_buf id).
  rewrite Hq.
  destruct (Z.eqb_spec res 0); [contradiction|].
  unfold mbind, M_bind, mret, M_ret, do_close. cbn [world bufs log].
  rewrite <- !app_assoc. reflexivity.
Qed.

(** ** What every call does to the session and to the cache *)

Lemma query_trace_no_session (td : Z) (ds : list Z) (qs : list event) :
  query_trace td ds qs ->
  forallb (fun e => negb (is_session e)) qs = true.
Proof. induction 1; [reflexivity|assumption]. Qed.

Lemma exec_inv (c : call) (s s' : state) :
  exec c s = Some s' ->
  match c with
  | CallReMap n dsptrs lengths =>
      exists r, tiler_assisted_phase1_D2CReMap n dsptrs lengths s
                = Some (r, s')
  | CallDeMap p =>
      exists r, tiler_assisted_phase1_DeMap p s = Some (r, s')
  end.
Proof.
  destruct c as [n dsptrs lengths|p]; cbn [exec]; intros Hex.
  - destruct (tiler_assisted_phase1_D2CReMap n dsptrs lengths s)
      as [[r s1]|]; [|discriminate].
    injection Hex as <-. now exists r.
  - destruct (tiler_assisted_phase1_DeMap p s) as [[r s1]|]; [|discriminate].
    injection Hex as <-. now exists r.
Qed.

(** X14: a call of either function that returns has made no call at all,
    or has first opened the driver; when that failed it has done nothing
    else, and otherwise it has closed the descriptor it got as the last
    thing, without opening or closing anything in between. *)
Theorem call_session (c : call) (s s' : state) :
  exec c s = Some s' ->
  exists evs,
    log s' = log s ++ evs /\
    (evs = [] \/
     exists td,
       (td < 0 /\ evs = [EvOpen td]) \/
       (0 <= td /\
        exists mid,
          evs = EvOpen td :: mid ++ [EvClose td] /\
          forallb (fun e => negb (is_session e)) mid = true)).
Proof.
  intros Hex. apply exec_inv in Hex.
  destruct c as [n dsptrs lengths|p]; destruct Hex as [r Hr].
  - apply remap_sound in Hr as (evs & Hl & Ht). exists evs.
    split; [exact Hl|].
    destruct Ht as [Hn|td Hn Htd|td qs Hn Htd Hq Hlen Hf
                   |td qs buf res buf' Hn Htd Hq Hlen Hres
                   |td qs buf buf' size p ur Hn Htd Hq Hlen Hsz Hoff Hp
                   |td qs buf buf' size p b0 Hn Htd Hq Hlen Hsz Hoff Hp Hb0 Hnz];
      [now left|right; exists td; left; now split|..];
      right; exists td; right; (split; [exact Htd|]);
      apply query_trace_no_session in Hq.
    + exists qs. split; [reflexivity|exact Hq].
    + exists (qs ++ [EvRBuf td buf res buf']).
      split; [now rewrite <- app_assoc|].
      rewrite forallb_app, Hq. reflexivity.
    + exists (qs ++ [EvRBuf td buf 0 buf'; EvMmap size td (offset buf') p;
                     EvURBuf td buf' ur]).
      split; [now rewrite <- app_assoc|].
      rewrite forallb_app, Hq. reflexivity.
    + exists (qs ++ [EvRBuf td buf 0 buf'; EvMmap size td (offset buf') p]).
      split; [now rewrite <- app_assoc|].
      rewrite forallb_app, Hq. reflexivity.
  - apply demap_sound in Hr as (evs & Hl & Ht). exists evs.
    split; [exact Hl|]. right.
    destruct Ht as [td Htd|td cache' Htd Hdel
                   |td id cache' res buf' Htd Hdel Hid Hres
                   |td id cache' buf' ur size um Htd Hdel Hid Hsize];
      exists td; [left; now split|..]; right; (split; [exact Htd|]).
    + now exists [].
    + now exists [EvQBuf td (set_offset zero_buf id) res buf'].
    + now exists [EvQBuf td (set_offset zero_buf id) 0 buf';
                  EvURBuf td buf' ur;
                  EvMunmap (ROUND_DOWN_TO2POW (u32 p) PAGE_SIZE) size um].
Qed.

(** X15: remap returns NULL exactly when it leaves the cache as it was;
    a pointer it returns is put at the end of the cache, with an id that
    is not zero, whatever the cache held before. *)
Theorem remap_cache_effect (n : Z) (dsptrs lengths : list Z)
    (s s' : state) (r : Z) :
  tiler_assisted_phase1_D2CReMap n dsptrs lengths s = Some (r, s') ->
  (r = NULL <-> bufs s' = bufs s) /\
  (r <> NULL ->
   exists id, id <> 0 /\ bufs s' = bufs s ++ [mk_ReMapData r id]).
Proof.
  intros Hr. apply remap_sound in Hr as (evs & _ & Ht).
  destruct Ht as [Hn|td Hn Htd|td qs Hn Htd Hq Hlen Hf
                 |td qs buf res buf' Hn Htd Hq Hlen Hres
                 |td qs buf buf' size p ur Hn Htd Hq Hlen Hsz Hoff Hp
                 |td qs buf buf' size p b0 Hn Htd Hq Hlen Hsz Hoff Hp Hb0 Hnz];
    try (split; [tauto|intros Hne; now contradiction Hne]).
  split.
  - split; [intros Hz; contradiction|].
    unfold remap_cache_add. intros Heq.
    now apply app_singleton_neq in Heq.
  - intros _. exists (offset buf'). split; [exact Hoff|reflexivity].
Qed.

(** X16: demap takes the first element for the pointer out of the cache
    as soon as the driver is open, whatever the driver answers afterwards;
    when the driver cannot be opened the cache stays as it was. *)
Theorem demap_cache_effect (p : Z) (s s' : state) (r : Z) :
  tiler_assisted_phase1_DeMap p s = Some (r, s') ->
  exists td evs,
    log s' = log s ++ EvOpen td :: evs /\
    bufs s' = (if 0 <=? td then snd (remap_cache_del p (bufs s))
               else bufs s) /\
    (has_entry p (bufs s) = false ->
     r = REMAP_ERR_GENERIC /\ bufs s' = bufs s).
Proof.
  intros Hr. apply demap_sound in Hr as (evs & Hl & Ht).
  destruct Ht as [td Htd|td cache' Htd Hdel
                 |td id cache' res buf' Htd Hdel Hid Hres
                 |td id cache' buf' ur size um Htd Hdel Hid Hsize];
    exists td; eexists; (split; [exact Hl|]).
  - destruct (Z.leb_spec 0 td); [lia|]. auto.
  - destruct (Z.leb_spec 0 td); [|lia]. rewrite Hdel. cbn [snd].
    split; [reflexivity|]. intros Hmiss.
    rewrite (remap_cache_del_miss _ _ Hmiss) in Hdel.
    injection Hdel as <-. auto.
  - destruct (Z.leb_spec 0 td); [|lia]. rewrite Hdel. cbn [snd].
    split; [reflexivity|]. intros Hmiss.
    rewrite (remap_cache_del_miss _ _ Hmiss) in Hdel.
    injection Hdel as <- _. now contradiction Hid.
  - destruct (Z.leb_spec 0 td); [|lia]. rewrite Hdel. cbn [snd].
    split; [reflexivity|]. intros Hmiss.
    rewrite (remap_cache_del_miss _ _ Hmiss) in Hdel.
    injection Hdel as <- _. now contradiction Hid.
Qed.

(** X17: a demap that returns 0, [REMAP_ERR_GENERIC] not being 0, has
    found the pointer in the cache, had its buffer query answered, and
    had both the unregistration and the unmapping of the pointer's page
    succeed. *)
Theorem demap_zero_inv (p : Z) (s s' : state) :
  REMAP_ERR_GENERIC <> 0 ->
  tiler_assisted_phase1_DeMap p s = Some (0, s') ->
  exists td id buf' size,
    0 <= td /\ id <> 0 /\
    remap_cache_del p (bufs s) = (id, bufs s') /\
    has_entry p (bufs s) = true /\
    sum_def_size (blocks buf') (Z.to_nat (num_blocks buf')) 0 0
      = Some size /\
    log s' = log s ++ [EvOpen td;
                       EvQBuf td (set_offset zero_buf id) 0 buf';
                       EvURBuf td buf' 0;
                       EvMunmap (page_floor p) size 0;
                       EvClose td].
Proof.
  intros Hgen Hr. apply demap_sound in Hr as (evs & Hl & Ht).
  remember 0 as r eqn:Er in Ht.
  destruct Ht as [td Htd|td cache' Htd Hdel
                 |td id cache' res buf' Htd Hdel Hid Hres
                 |td id cache' buf' ur size um Htd Hdel Hid Hsize];
    try (now contradiction Hgen); try (now contradiction Hres).
  apply ERR_ADD_zero in Er as [-> ->].
  exists td, id, buf', size.
  split; [exact Htd|]. split; [exact Hid|]. split; [exact Hdel|].
  split; [|split; [exact Hsize|exact Hl]].
  destruct (has_entry p (bufs s)) eqn:Eh; [reflexivity|].
  rewrite (remap_cache_del_miss _ _ Eh) in Hdel.
  injection Hdel as <- _. now contradiction Hid.
Qed.

(** The ways through remap once the driver is open, with the calls that
    select them. *)
Lemma remap_inv (n : Z) (dsptrs lengths : list Z) (s s' : state) (r : Z)
    (td : Z) (w1 : W) :
  0 < n <= TILER_MAX_NUM_BLOCKS ->
  sys_open (world s) = (td, w1) -> 0 <= td ->
  tiler_assisted_phase1_D2CReMap n dsptrs lengths s = Some (r, s') ->
  exists lr s2,
    remap_blocks td dsptrs lengths (Z.to_nat n) 0
      (mk_buf n (blocks zero_buf) (offset zero_buf)) 0
      (mk_state w1 (bufs s) (log s ++ [EvOpen td]))
    = Some (lr, s2) /\
    match lr with
    | GotoFail => r = NULL /\ log s' = log s2 ++ [EvClose td]
    | Next (buf, size) =>
        exists res buf' w3,
          sys_rbuf td buf (world s2) = (res, buf', w3) /\
          (((res <> 0 \/ offset buf' = 0) /\ r = NULL /\
            log s' = log s2 ++ [EvRBuf td buf res buf'; EvClose td]) \/
           (res = 0 /\ offset buf' <> 0 /\
            exists p w4,
              sys_mmap size td (offset buf') w3 = (p, w4) /\
              ((r = NULL /\
                exists ur,
                  log s' = log s2 ++ [EvRBuf td buf 0 buf';
                                      EvMmap size td (offset buf') p;
                                      EvURBuf td buf' ur; EvClose td]) \/
               (r <> NULL /\ p <> MAP_FAILED /\
                exists b0,
                  blocks buf' !! 0%nat = Some b0 /\
                  r = u32 (p + Z.land (ssptr b0) (PAGE_SIZE - 1)) /\
                  s' = mk_state (sys_close td w4)
                         (remap_cache_add r (offset buf') (bufs s))
                         (log s2 ++ [EvRBuf td buf 0 buf';
                                     EvMmap size td (offset buf') p;
                                     EvClose td])))))
    end.
Proof.
  intros Hn Ho Htd Hr. unfold tiler_assisted_phase1_D2CReMap in Hr.
  destruct (Z.ltb_spec 0 n); [|lia].
  destruct (Z.leb_spec n TILER_MAX_NUM_BLOCKS); [|lia].
  cbn [negb orb] in Hr.
  apply bind_inv in Hr as (td' & s1 & Ho' & Hr).
  unfold do_open in Ho'. rewrite Ho in Ho'. injection Ho' as <- <-.
  destruct (Z.leb_spec 0 td); [|lia]. cbn [negb] in Hr.
  apply bind_inv in Hr as (lr & s2 & Hloop & Hr).
  exists lr, s2. split; [exact Hloop|].
  apply remap_blocks_inv in Hloop as (Hc2 & _). cbn [bufs] in Hc2.
  destruct lr as [[buf size]|].
  2:{ apply bind_inv in Hr as ([] & s3 & Hcl & Hr).
      unfold do_close in Hcl. injection Hcl as <-. inv_ret Hr.
      split; reflexivity. }
  apply bind_inv in Hr as ([res buf'] & s3 & Hrb & Hr).
  unfold do_rbuf in Hrb.
  destruct (sys_rbuf td buf (world s2)) as [[res' buf''] w3] eqn:Hrbuf.
  injection Hrb as -> -> <-.
  exists res, buf', w3. split; [reflexivity|].
  destruct (Z.eqb_spec res 0) as [Hres|Hres]; cbn [negb orb] in Hr.
  2:{ apply bind_inv in Hr as ([] & s4 & Hcl & Hr).
      unfold do_close in Hcl. injection Hcl as <-. inv_ret Hr.
      cbn [log]. left. rewrite <- app_assoc. auto. }
  subst res.
  destruct (Z.eqb_spec (offset buf') 0) as [Hoff|Hoff].
  { apply bind_inv in Hr as ([] & s4 & Hcl & Hr).
    unfold do_close in Hcl. injection Hcl as <-. inv_ret Hr.
    cbn [log]. left. rewrite <- app_assoc. auto. }
  right. split; [reflexivity|]. split; [exact Hoff|].
  apply bind_inv in Hr as (p & s4 & Hmm & Hr).
  unfold do_mmap in Hmm. cbn [world bufs log] in Hmm.
  destruct (sys_mmap size td (offset buf') w3) as [p' w4] eqn:Hmmap.
  injection Hmm as -> <-.
  exists p, w4. split; [reflexivity|].
  apply bind_inv in Hr as (bp & s5 & Hbp & Hr).
  assert (Hbp' : s5 = mk_state w4 (bufs s2)
                        ((log s2 ++ [EvRBuf td buf 0 buf'])
                         ++ [EvMmap size td (offset buf') p]) /\
                 ((p = MAP_FAILED /\ bp = NULL) \/
                  (p <> MAP_FAILED /\
                   exists b0, blocks buf' !! 0%nat = Some b0 /\
                     bp = u32 (p + Z.land (ssptr b0) (PAGE_SIZE - 1))))).
  { destruct (Z.eqb_spec p MAP_FAILED) as [Hp|Hp].
    - inv_ret Hbp. auto.
    - apply bind_inv in Hbp as (b0 & s6 & Hb0 & Hbp).
      apply read_inv in Hb0 as [Hb0 ->]. inv_ret Hbp. eauto 10. }
  destruct Hbp' as [-> Hbp']. clear Hbp.
  destruct (Z.eqb_spec bp NULL) as [Hnull|Hnull].
  - apply bind_inv in Hr as (ur & s6 & Hur & Hr).
    unfold do_urbuf in Hur. cbn [world bufs log] in Hur.
    destruct (sys_urbuf td buf' w4) as [ur' w5].
    injection Hur as -> <-.
    apply bind_inv in Hr as ([] & s7 & Hcl & Hr).
    unfold do_close in Hcl. injection Hcl as <-. inv_ret Hr.
    cbn [log]. left. split; [exact Hnull|]. exists ur.
    rewrite <- !app_assoc. reflexivity.
  - destruct Hbp' as [[_ Hp]|(Hp & b0 & Hb0 & Hb)]; [contradiction|].
    apply bind_inv in Hr as ([] & s6 & Hadd & Hr).
    unfold cache_add in Hadd. cbn [world bufs log] in Hadd.
    injection Hadd as <-.
    apply bind_inv in Hr as ([] & s7 & Hcl & Hr).
    unfold do_close in Hcl. injection Hcl as <-. inv_ret Hr.
    right. split; [exact Hnull|]. split; [exact Hp|].
    exists b0. split; [exact Hb0|]. split; [exact Hb|].
    cbn [world bufs log]. rewrite Hc2, <- !app_assoc. reflexivity.
Qed.

(** A remap that returns a pointer has gone through every step. *)
Lemma remap_mapped_inv (n : Z) (dsptrs lengths : list Z) (s s' : state)
    (r : Z) :
  tiler_assisted_phase1_D2CReMap n dsptrs lengths s = Some (r, s') ->
  r <> NULL ->
  exists td w1 buf size s2 buf' w3 p w4 b0,
    0 < n <= TILER_MAX_NUM_BLOCKS /\
    sys_open (world s) = (td, w1) /\ 0 <= td /\
    remap_blocks td dsptrs lengths (Z.to_nat n) 0
      (mk_buf n (blocks zero_buf) (offset zero_buf)) 0
      (mk_state w1 (bufs s) (log s ++ [EvOpen td]))
    = Some (Next (buf, size), s2) /\
    sys_rbuf td buf (world s2) = (0, buf', w3) /\ offset buf' <> 0 /\
    sys_mmap size td (offset buf') w3 = (p, w4) /\ p <> MAP_FAILED /\
    blocks buf' !! 0%nat = Some b0 /\
    r = u32 (p + Z.land (ssptr b0) (PAGE_SIZE - 1)) /\
    s' = mk_state (sys_close td w4)
           (remap_cache_add r (offset buf') (bufs s))
           (log s2 ++ [EvRBuf td buf 0 buf';
                       EvMmap size td (offset buf') p; EvClose td]).
Proof.
  intros Hr Hnz.
  assert (Hn : 0 < n <= TILER_MAX_NUM_BLOCKS).
  { pose proof Hr as Hr'. apply remap_sound in Hr' as (evs & _ & Ht).
    destruct Ht; try assumption; now contradiction Hnz. }
  destruct (sys_open (world s)) as [td w1] eqn:Ho.
  assert (Htd : 0 <= td).
  { destruct (Z.leb_spec 0 td) as [Hle|Hlt]; [exact Hle|].
    rewrite (remap_no_driver_path n dsptrs lengths s td w1 Hn Ho Hlt) in Hr.
    injection Hr as <- _. now contradiction Hnz. }
  destruct (remap_inv n dsptrs lengths s s' r td w1 Hn Ho Htd Hr)
    as (lr & s2 & Hloop & Hcase).
  destruct lr as [[buf size]|]; [|destruct Hcase; contradiction].
  destruct Hcase as (res & buf' & w3 & Hrb & Hcase).
  destruct Hcase as [(_ & Hz & _)|(-> & Hoff & p & w4 & Hmm & Hcase)];
    [contradiction|].
  destruct Hcase as [(Hz & _)|(_ & Hp & b0 & Hb0 & Hrp & Hs')];
    [contradiction|].
  exists td, w1, buf, size, s2, buf', w3, p, w4, b0. auto 15.
Qed.

(** ** The elements of the cache *)

Lemma remap_cache_del_Forall (P : _ReMapData -> Prop) (p : Z)
    (cache : list _ReMapData) :
  Forall P cache -> Forall P (snd (remap_cache_del p cache)).
Proof.
  rewrite !Forall_forall. intros Hall ad Had. apply Hall.
  apply list_elem_of_In. apply (remap_cache_del_sublist p).
  now apply list_elem_of_In.
Qed.

Lemma remap_cache_del_zero (p : Z) (cache : list _ReMapData) :
  Forall (fun ad => tiler_id ad <> 0) cache ->
  (fst (remap_cache_del p cache) = 0 <-> has_entry p cache = false).
Proof.
  induction 1 as [|ad cache Had Hall IH]; simpl; [tauto|].
  destruct (bufPtr ad =? p); simpl.
  - split; [intros Hz; contradiction|discriminate].
  - destruct (remap_cache_del p cache) as [id rest]. exact IH.
Qed.

Lemma exec_nonzero (c : call) (s s' : state) :
  exec c s = Some s' ->
  Forall (fun ad => bufPtr ad <> NULL /\ tiler_id ad <> 0) (bufs s) ->
  Forall (fun ad => bufPtr ad <> NULL /\ tiler_id ad <> 0) (bufs s').
Proof.
  intros Hex Hall. apply exec_inv in Hex.
  destruct c as [n dsptrs lengths|p]; destruct Hex as [r Hr].
  - apply remap_sound in Hr as (evs & _ & Ht).
    destruct Ht; try assumption.
    unfold remap_cache_add. apply Forall_app. split; [assumption|].
    constructor; [|constructor]. cbn [bufPtr tiler_id]. auto.
  - apply demap_sound in Hr as (evs & _ & Ht).
    destruct Ht as [td Htd|td cache' Htd Hdel
                   |td id cache' res buf' Htd Hdel Hid Hres
                   |td id cache' buf' ur size um Htd Hdel Hid Hsize];
      try assumption;
      apply (remap_cache_del_Forall _ p) in Hall;
      now rewrite Hdel in Hall.
Qed.

Lemma run_nonzero (cs : list call) :
  forall s0 s1,
  run cs s0 = Some s1 ->
  Forall (fun ad => bufPtr ad <> NULL /\ tiler_id ad <> 0) (bufs s0) ->
  Forall (fun ad => bufPtr ad <> NULL /\ tiler_id ad <> 0) (bufs s1).
Proof.
  induction cs as [|c cs IH]; intros s0 s1 Hr H0; cbn [run] in Hr.
  - now injection Hr as <-.
  - destruct (exec c s0) as [s0'|] eqn:Hex; [|discriminate].
    apply (IH s0' s1 Hr). now apply (exec_nonzero c s0).
Qed.

(** X18: after any calls of the two functions, from a process that has
    not called yet, no element of the cache has a NULL pointer or a zero
    id.  So the 0 that [remap_cache_del] returns is never the id of an
    element: it is returned exactly when the cache has no element for the
    pointer. *)
Theorem cache_entries_nonzero (cs : list call) (w : W) (s : state) :
  run cs (start w) = Some s ->
  Forall (fun ad => bufPtr ad <> NULL /\ tiler_id ad <> 0) (bufs s) /\
  forall p, fst (remap_cache_del p (bufs s)) = 0
            <-> has_entry p (bufs s) = false.
Proof.
  intros Hrun.
  assert (Hall : Forall (fun ad => bufPtr ad <> NULL /\ tiler_id ad <> 0)
                        (bufs s)).
  { apply (run_nonzero cs (start w) s Hrun). constructor. }
  split; [exact Hall|].
  intros p. apply remap_cache_del_zero.
  eapply Forall_impl; [exact Hall|]. intros ad [_ Hid]. exact Hid.
Qed.

(** ** The region remap maps *)

Lemma raw_pages_total (bs : list tiler_block_info) (ls : list Z) :
  Forall2 (fun b len => is_page (fmt b) = true ->
                        dim_len b = len /\ def_size b = len) bs ls ->
  Forall (fun b => is_page (fmt b) = true) bs ->
  dim_len <$> bs = ls /\ total_def_size bs = foldr Z.add 0 ls.
Proof.
  induction 1 as [|b len bs ls Hb Hbs IH]; intros Hall; [auto|].
  apply Forall_cons in Hall as [Hp Hall].
  destruct (Hb Hp) as [Hd Hs]. destruct (IH Hall) as [IH1 IH2].
  cbn [fmap list_fmap total_def_size foldr].
  fold (total_def_size bs).
  split; [now f_equal|]. now rewrite Hs, IH2.
Qed.

(** X19: a remap that returns a pointer has made one block query for
    each block of the count, in the order of the blocks and with the
    device pointer of the block as [ssptr], and has then registered a
    buffer with the count of the call, offset zero, and the array of
    [TILER_MAX_NUM_BLOCKS] blocks of which those after the count are
    zeroed; the size it has mapped is the sum of [def_size] over the
    blocks of the count, in 32 bits.  Registration, mapping and close are
    its last three calls. *)
Theorem remap_maps_total_size (n : Z) (dsptrs lengths : list Z)
    (s s' : state) (r : Z) :
  tiler_assisted_phase1_D2CReMap n dsptrs lengths s = Some (r, s') ->
  r <> NULL ->
  exists td qs buf buf' size p,
    log s' = log s ++ EvOpen td
                   :: qs ++ [EvRBuf td buf 0 buf';
                             EvMmap size td (offset buf') p;
                             EvClose td] /\
    query_trace td dsptrs qs /\ length qs = Z.to_nat n /\
    num_blocks buf = n /\ offset buf = 0 /\
    length (blocks buf) = Z.to_nat TILER_MAX_NUM_BLOCKS /\
    drop (Z.to_nat n) (blocks buf)
    = replicate (Z.to_nat TILER_MAX_NUM_BLOCKS - Z.to_nat n) zero_block /\
    size = u32 (total_def_size (queried_blocks buf)).
Proof.
  intros Hr Hnz.
  destruct (remap_mapped_inv n dsptrs lengths s s' r Hr Hnz)
    as (td & w1 & buf & size & s2 & buf' & w3 & p & w4 & b0 & Hn & Ho & Htd
        & Hloop & Hrb & Hoff & Hmm & Hp & Hb0 & Hrp & ->).
  pose proof Hloop as Hinv.
  apply remap_blocks_inv in Hinv
    as (_ & qs & Hl2 & Hqs & _ & Hlen & _).
  rewrite drop_0 in Hqs.
  apply remap_blocks_buf in Hloop
    as (Hnb & Hob & Hlb & _ & _ & Hdrop & Hsize & _); [|lia].
  cbn [num_blocks offset blocks log Nat.add] in *.
  exists td, qs, buf, buf', size, p.
  split; [rewrite Hl2, <- !app_assoc; reflexivity|].
  split; [exact Hqs|]. split; [exact Hlen|]. split; [exact Hnb|]. split; [exact Hob|].
  split; [now rewrite Hlb, zero_buf_length|].
  split.
  - rewrite Hdrop. unfold zero_buf. cbn [blocks]. apply drop_replicate.
  - rewrite Hsize, Z.add_0_l, drop_0. unfold queried_blocks.
    now rewrite Hnb.
Qed.

(** X20: when the block loop comes to its end and every block of the
    buffer is of raw pages, the blocks carry the lengths of the caller,
    in their order, and the size to map is the sum of these lengths, in
    32 bits: the geometry of the driver has no part in it. *)
Theorem raw_pages_size (td n : Z) (dsptrs lengths : list Z)
    (s s' : state) (buf : tiler_buf_info) (size : Z) :
  remap_blocks td dsptrs lengths (Z.to_nat n) 0
    (mk_buf n (blocks zero_buf) (offset zero_buf)) 0 s
  = Some (Next (buf, size), s') ->
  Forall (fun b => is_page (fmt b) = true) (queried_blocks buf) ->
  dim_len <$> queried_blocks buf = take (Z.to_nat n) lengths /\
  (Z.to_nat n <= length lengths)%nat /\
  size = u32 (foldr Z.add 0 (take (Z.to_nat n) lengths)).
Proof.
  intros Hloop Hall.
  apply remap_blocks_buf in Hloop
    as (Hnb & _ & Hlb & Hbound & _ & _ & Hsize & Hpages); [|lia].
  cbn [num_blocks blocks Nat.add] in Hnb, Hlb, Hbound.
  rewrite !drop_0 in *.
  unfold queried_blocks in *. rewrite Hnb in *.
  destruct (raw_pages_total _ _ Hpages Hall) as [Hd Ht].
  split; [exact Hd|]. split.
  - apply Forall2_length in Hpages. rewrite !length_take in Hpages.
    destruct (Z.to_nat n) as [|m]; [lia|].
    assert (S m <= length (blocks buf))%nat
      by (rewrite Hlb; apply Hbound; discriminate).
    lia.
  - now rewrite Hsize, Z.add_0_l, Ht.
Qed.

(** ** The requests of the block queries *)

Lemma remap_blocks_requests (td : Z) (dsptrs lengths : list Z) (todo : nat) :
  forall (ix : nat) (buf : tiler_buf_info) (size : Z) (s s' : state)
         (r : flow (tiler_buf_info * Z)),
  remap_blocks td dsptrs lengths todo ix buf size s = Some (r, s') ->
  (forall j b, (ix <= j)%nat -> blocks buf !! j = Some b -> b = zero_block) ->
  exists qs,
    log s' = log s ++ qs /\
    Forall (fun e => exists d res out,
                d <> 0 /\
                e = EvQueryBlk td (set_ssptr zero_block d) res out) qs.
Proof.
  induction todo as [|todo IH]; intros ix buf size s s' r Hr Hz.
  - cbn [remap_blocks] in Hr. inv_ret Hr. exists [].
    rewrite app_nil_r. split; [reflexivity|constructor].
  - cbn [remap_blocks] in Hr.
    apply bind_inv in Hr as (r1 & s1 & Hb & Hr).
    apply remap_block_inv in Hb as (d & blk0 & Hd & Hblk & Hcase).
    assert (Hblk0 : blk0 = zero_block) by (eapply Hz; [|exact Hblk]; lia).
    subst blk0.
    destruct Hcase as [(_ & -> & ->)|(Hdnz & res & out & w & Hq & -> & Hcase)].
    { inv_ret Hr. exists []. rewrite app_nil_r.
      split; [reflexivity|constructor]. }
    assert (Hone : Forall (fun e => exists d res out,
                             d <> 0 /\
                             e = EvQueryBlk td (set_ssptr zero_block d)
                                            res out)
                          [EvQueryBlk td (set_ssptr zero_block d) res out]).
    { constructor; [|constructor]. exists d, res, out. auto. }
    destruct Hcase as [(_ & ->)
                      |(Hres & Hout & len & Hlen &
                        [(_ & ->)|(b' & Hres' & ->)])].
    { inv_ret Hr. cbn [log]. eexists. split; [reflexivity|exact Hone]. }
    { inv_ret Hr. cbn [log]. eexists. split; [reflexivity|exact Hone]. }
    apply IH in Hr as (qs & Hl & Hqs).
    + cbn [log] in Hl. eexists. split.
      * rewrite Hl, <- app_assoc. reflexivity.
      * apply Forall_app. split; [exact Hone|exact Hqs].
    + intros j b Hj Hjb. cbn [set_block blocks] in Hjb.
      rewrite list_lookup_insert_ne in Hjb by lia.
      eapply Hz; [|exact Hjb]. lia.
Qed.

(** X21: the request of every block query remap makes is a zeroed block
    but for its [ssptr], which is not zero: no format, length or geometry
    is passed to the driver. *)
Theorem query_requests_zeroed (n : Z) (dsptrs lengths : list Z)
    (s s' : state) (r : Z) :
  tiler_assisted_phase1_D2CReMap n dsptrs lengths s = Some (r, s') ->
  exists evs,
    log s' = log s ++ evs /\
    forall td blk res out,
      In (EvQueryBlk td blk res out) evs ->
      ssptr blk <> 0 /\ blk = set_ssptr zero_block (ssptr blk).
Proof.
  intros Hr.
  destruct (Z.ltb_spec 0 n) as [Hn0|Hn0];
    [destruct (Z.leb_spec n TILER_MAX_NUM_BLOCKS) as [Hn1|Hn1]|].
  2,3: unfold tiler_assisted_phase1_D2CReMap in Hr;
       destruct (Z.ltb_spec 0 n); try lia;
       destruct (Z.leb_spec n TILER_MAX_NUM_BLOCKS); try lia;
       cbn [negb orb] in Hr; inv_ret Hr;
       exists []; rewrite app_nil_r; (split; [reflexivity|]);
       intros td blk res out [].
  assert (Hn : 0 < n <= TILER_MAX_NUM_BLOCKS) by lia.
  destruct (sys_open (world s)) as [td w1] eqn:Ho.
  destruct (Z.leb_spec 0 td) as [Htd|Htd].
  2:{ rewrite (remap_no_driver_path n dsptrs lengths s td w1 Hn Ho Htd) in Hr.
      injection Hr as _ <-. cbn [log]. eexists. split; [reflexivity|].
      intros td' blk res out [Hin|[]]. discriminate. }
  destruct (remap_inv n dsptrs lengths s s' r td w1 Hn Ho Htd Hr)
    as (lr & s2 & Hloop & Hcase).
  apply remap_blocks_requests in Hloop as (qs & Hl2 & Hqs).
  2:{ intros j b _ Hjb. cbn [blocks] in Hjb. unfold zero_buf in Hjb.
      cbn [blocks] in Hjb. now apply lookup_replicate in Hjb as [-> _]. }
  cbn [log] in Hl2.
  assert (Htail : exists tail,
             log s' = log s2 ++ tail /\ query_ssptrs tail = []).
  { destruct lr as [[buf size]|].
    - destruct Hcase as (res & buf' & w3 & Hrb & Hcase).
      destruct Hcase as [(_ & _ & Hl)|(-> & Hoff & p & w4 & Hmm & Hcase)].
      + eexists. split; [exact Hl|reflexivity].
      + destruct Hcase as [(_ & ur & Hl)|(_ & _ & b0 & _ & _ & ->)].
        * eexists. split; [exact Hl|reflexivity].
        * cbn [log]. eexists. split; reflexivity.
    - destruct Hcase as [_ Hl]. eexists. split; [exact Hl|reflexivity]. }
  destruct Htail as (tail & Hl & Htail).
  exists ([EvOpen td] ++ qs ++ tail). split.
  { rewrite Hl, Hl2, <- !app_assoc. reflexivity. }
  intros td' blk res out Hin.
  apply in_app_or in Hin as [[Hin|[]]|Hin]; [discriminate|].
  apply in_app_or in Hin as [Hin|Hin].
  - rewrite Forall_forall in Hqs.
    apply list_elem_of_In, Hqs in Hin as (d & res' & out' & Hd & Heq).
    injection Heq as -> -> -> ->. cbn [set_ssptr ssptr]. auto.
  - exfalso. clear -Hin Htail.
    induction tail as [|e tail IH]; [destruct Hin|].
    destruct Hin as [->|Hin].
    + discriminate Htail.
    + apply IH; [|exact Hin]. destruct e; try exact Htail; discriminate.
Qed.

(** ** Demap in full *)

(** The whole of demap, by the answers of the driver. *)
Lemma demap_eval (p : Z) (s : state) (td : Z) (w1 : W) (id : Z)
    (cache' : list _ReMapData) :
  sys_open (world s) = (td, w1) ->
  remap_cache_del p (bufs s) = (id, cache') ->
  tiler_assisted_phase1_DeMap p s
  = if 0 <=? td then
      if id =? 0 then
        Some (REMAP_ERR_GENERIC,
              mk_state (sys_close td w1) cache'
                       (log s ++ [EvOpen td; EvClose td]))
      else
        let '(res, bufq, w2) := sys_qbuf td (set_offset zero_buf id) w1 in
        if res =? 0 then
          let '(ur, w3) := sys_urbuf td bufq w2 in
          match sum_def_size (blocks bufq) (Z.to_nat (num_blocks bufq)) 0 0
          with
          | None => None
          | Some size =>
              let '(um, w4) := sys_munmap (page_floor p) size w3 in
              Some (ERR_ADD ur um,
                    mk_state (sys_close td w4) cache'
                      (log s ++ [EvOpen td;
                                 EvQBuf td (set_offset zero_buf id) 0 bufq;
                                 EvURBuf td bufq ur;
                                 EvMunmap (page_floor p) size um;
                                 EvClose td]))
          end
        else
          Some (res,
                mk_state (sys_close td w2) cache'
                  (log s ++ [EvOpen td;
                             EvQBuf td (set_offset zero_buf id) res bufq;
                             EvClose td]))
    else
      Some (REMAP_ERR_GENERIC, mk_state w1 (bufs s) (log s ++ [EvOpen td])).
Proof.
  intros Ho Hdel. unfold tiler_assisted_phase1_DeMap.
  erewrite bind_Some; [|unfold do_open; rewrite Ho; reflexivity].
  destruct (0 <=? td); cbn [negb]; [|reflexivity].
  erewrite bind_Some;
    [|unfold cache_del; cbn [world bufs log]; rewrite Hdel; reflexivity].
  cbn [set_offset offset].
  destruct (id =? 0) eqn:Eid; cbn [negb].
  { unfold mbind, M_bind, mret, M_ret, do_close. cbn [world bufs log].
    rewrite <- app_assoc. reflexivity. }
  unfold mbind at 1. unfold M_bind at 1.
  unfold mbind at 1. unfold M_bind at 1.
  unfold do_qbuf. cbn [world bufs log].
  change (mk_buf (num_blocks zero_buf) (blocks zero_buf) id)
    with (set_offset zero_buf id).
  destruct (sys_qbuf td (set_offset zero_buf id) w1) as [[res bufq] w2].
  destruct (Z.eqb_spec res 0) as [->|Hres].
  2:{ unfold mbind, M_bind, mret, M_ret, do_close. cbn [world bufs log].
      rewrite <- !app_assoc. reflexivity. }
  unfold mbind at 1. unfold M_bind at 1.
  unfold do_urbuf. cbn [world bufs log].
  destruct (sys_urbuf td bufq w2) as [ur w3].
  destruct (sum_def_size (blocks bufq) (Z.to_nat (num_blocks bufq)) 0 0)
    as [size|]; [|reflexivity].
  fold (page_floor p).
  unfold mbind, M_bind, do_munmap. cbn [world bufs log].
  destruct (sys_munmap (page_floor p) size w3) as [um w4].
  unfold mret, M_ret, do_close. cbn [world bufs log].
  rewrite <- !app_assoc. reflexivity.
Qed.



(** X23: what demap unmaps is what remap has mapped.  After a remap that
    returns a pointer the cache did not hold, a demap of the pointer whose
    buffer query the driver answers with blocks of the same total size
    asks for the unmapping of the size that was mapped, at the page of the
    pointer; when [mmap] had answered with the address of a page, that
    page is the address it answered.  The cache is again the one before
    the remap. *)
Theorem demap_unmaps_mapped_region (n : Z) (dsptrs lengths : list Z)
    (s0 s1 : state) (P : Z) :
  tiler_assisted_phase1_D2CReMap n dsptrs lengths s0 = Some (P, s1) ->
  P <> NULL ->
  has_entry P (bufs s0) = false ->
  exists tdr buf buf' size p,
    In (EvRBuf tdr buf 0 buf') (log s1) /\
    In (EvMmap size tdr (offset buf') p) (log s1) /\
    (0 <= p < 2 ^ 32 -> p mod PAGE_SIZE = 0 -> page_floor P = p) /\
    forall (td : Z) (w1 w2 : W) (bufq : tiler_buf_info),
      sys_open (world s1) = (td, w1) -> 0 <= td ->
      sys_qbuf td (set_offset zero_buf (offset buf')) w1 = (0, bufq, w2) ->
      (Z.to_nat (num_blocks bufq) <= length (blocks bufq))%nat ->
      total_def_size (queried_blocks bufq)
      = total_def_size (queried_blocks buf) ->
      exists r s2 ur um,
        tiler_assisted_phase1_DeMap P s1 = Some (r, s2) /\
        bufs s2 = bufs s0 /\
        log s2 = log s1 ++ [EvOpen td;
                            EvQBuf td (set_offset zero_buf (offset buf'))
                                   0 bufq;
                            EvURBuf td bufq ur;
                            EvMunmap (page_floor P) size um;
                            EvClose td].
Proof.
  intros Hr Hnz Hfresh.
  destruct (remap_mapped_inv n dsptrs lengths s0 s1 P Hr Hnz)
    as (tdr & w1r & buf & size & s2r & buf' & w3 & p & w4 & b0 & Hn & Ho
        & Htd & Hloop & Hrb & Hoff & Hmm & Hp & Hb0 & HP & Hs1).
  apply remap_blocks_buf in Hloop as (Hnb & _ & _ & _ & _ & _ & Hsize & _);
    [|lia].
  cbn [num_blocks] in Hnb. rewrite Z.add_0_l, drop_0 in Hsize.
  exists tdr, buf, buf', size, p.
  split; [rewrite Hs1; cbn [log]; apply in_or_app; right; simpl; tauto|].
  split; [rewrite Hs1; cbn [log]; apply in_or_app; right; simpl; tauto|].
  split; [intros Hpr Hpm; rewrite HP; now apply page_floor_adjusted|].
  intros td w1 w2 bufq Ho1 Htd1 Hq Hbound Htot.
  assert (Hdel : remap_cache_del P (bufs s1) = (offset buf', bufs s0)).
  { rewrite Hs1. cbn [bufs]. now apply remap_cache_del_add. }
  rewrite (demap_eval P s1 td w1 (offset buf') (bufs s0) Ho1 Hdel).
  destruct (Z.leb_spec 0 td); [|lia].
  destruct (Z.eqb_spec (offset buf') 0); [contradiction|].
  rewrite Hq. cbn [Z.eqb].
  destruct (sys_urbuf td bufq w2) as [ur w5].
  rewrite (sum_def_size_eq _ _ 0 0) by (simpl; lia).
  rewrite drop_0, Z.add_0_l. fold (queried_blocks bufq). rewrite Htot.
  unfold queried_blocks. rewrite Hnb, <- Hsize.
  destruct (sys_munmap (page_floor P) size w5) as [um w6].
  eexists _, _, ur, um. split; [reflexivity|]. split; reflexivity.
Qed.

(** ** The pointers of the blocks *)

Lemma u32_add_mid (a b c : Z) : u32 (a + u32 b + c) = u32 (a + b + c).
Proof.
  unfold u32.
  replace (a + b mod 2 ^ 32 + c) with (b mod 2 ^ 32 + (a + c)) by lia.
  rewrite Z.add_mod_idemp_l by lia. f_equal. lia.
Qed.

(** X24: the loop of lines 302-307 leaves the count, the offset and the
    blocks outside its range as they are; to a block in its range it gives
    the pointer at which the block lies when the blocks are laid out one
    after the other from the pointer on: the pointer plus the sizes of the
    blocks before it.  No other field of a block is written. *)
Theorem fill_pointers_layout (p : Z) (todo : nat) :
  forall (ix : nat) (buf : tiler_buf_info) (size : Z),
  num_blocks (fill_pointers p todo ix buf size) = num_blocks buf /\
  offset (fill_pointers p todo ix buf size) = offset buf /\
  forall (j : nat) (b : tiler_block_info),
    blocks buf !! j = Some b ->
    blocks (fill_pointers p todo ix buf size) !! j
    = Some (if (ix <=? j)%nat && (j <? ix + todo)%nat
            then set_ptr b
                   (u32 (p + size
                         + total_def_size
                             (take (j - ix) (drop ix (blocks buf)))))
            else b).
Proof.
  induction todo as [|todo IH]; intros ix buf size; cbn [fill_pointers].
  - split; [reflexivity|]. split; [reflexivity|]. intros j b Hjb.
    rewrite Hjb. f_equal.
    destruct (Nat.leb_spec ix j); destruct (Nat.ltb_spec j (ix + 0));
      try reflexivity; lia.
  - destruct (blocks buf !! ix) as [bi|] eqn:Ei.
    2:{ split; [reflexivity|]. split; [reflexivity|]. intros j b Hjb.
        rewrite Hjb. f_equal.
        apply lookup_ge_None in Ei. apply lookup_lt_Some in Hjb.
        destruct (Nat.leb_spec ix j); [lia|reflexivity]. }
    destruct (IH (S ix) (set_block buf ix (set_ptr bi (u32 (p + size))))
                 (u32 (size + def_size bi))) as (Hn & Ho & Hj).
    split; [exact Hn|]. split; [exact Ho|]. intros j b Hjb.
    pose proof (lookup_lt_Some _ _ _ Ei) as Hix.
    destruct (lt_eq_lt_dec j ix) as [[Hlt|Heq]|Hgt].
    + rewrite (Hj j b)
        by (cbn [set_block blocks]; rewrite list_lookup_insert_ne by lia;
            exact Hjb).
      f_equal.
      destruct (Nat.leb_spec (S ix) j); [lia|].
      destruct (Nat.leb_spec ix j); [lia|]. reflexivity.
    + subst j. rewrite Hjb in Ei. injection Ei as ->.
      rewrite (Hj ix (set_ptr bi (u32 (p + size))))
        by (cbn [set_block blocks]; now apply list_lookup_insert_eq).
      f_equal.
      destruct (Nat.leb_spec (S ix) ix); [lia|].
      destruct (Nat.leb_spec ix ix); [|lia].
      destruct (Nat.ltb_spec ix (ix + S todo)); [|lia].
      cbn [andb]. rewrite Nat.sub_diag. cbn [take total_def_size foldr].
      now rewrite Z.add_0_r.
    + rewrite (Hj j b)
        by (cbn [set_block blocks]; rewrite list_lookup_insert_ne by lia;
            exact Hjb).
      f_equal.
      destruct (Nat.leb_spec (S ix) j); [|lia].
      destruct (Nat.leb_spec ix j); [|lia]. cbn [andb].
      destruct (Nat.ltb_spec j (S ix + todo));
        destruct (Nat.ltb_spec j (ix + S todo)); try lia; [|reflexivity].
      f_equal. cbn [set_block blocks].
      rewrite drop_insert_lt by lia.
      rewrite (drop_S _ _ _ Ei).
      replace (j - ix)%nat with (S (j - S ix)) by lia.
      cbn [take total_def_size foldr].
      fold (total_def_size (take (j - S ix) (drop (S ix) (blocks buf)))).
      rewrite u32_add_mid. f_equal. lia.
Qed.



(** ** What the calls never do *)

Lemma query_trace_kind (td : Z) (ds : list Z) (qs : list event) :
  query_trace td ds qs ->
  Forall (fun e => match e with
                   | EvQueryBlk _ _ _ _ => True
                   | _ => False
                   end) qs.
Proof. induction 1; constructor; auto. Qed.

(** X26: remap makes no buffer query and unmaps nothing; demap makes no
    block query, registers nothing and maps nothing.  So no call of remap
    takes a mapping away, and no call of demap adds a registration or a
    mapping. *)
Theorem calls_never (c : call) (s s' : state) :
  exec c s = Some s' ->
  exists evs,
    log s' = log s ++ evs /\
    match c with
    | CallReMap _ _ _ =>
        Forall (fun e => match e with
                         | EvQBuf _ _ _ _ | EvMunmap _ _ _ => False
                         | _ => True
                         end) evs /\
        forall g m, m ∈ mapped g -> m ∈ mapped (ghost_after g evs)
    | CallDeMap _ =>
        Forall (fun e => match e with
                         | EvQueryBlk _ _ _ _ | EvRBuf _ _ _ _
                         | EvMmap _ _ _ _ => False
                         | _ => True
                         end) evs /\
        forall g,
          (forall id, id ∈ registered (ghost_after g evs) ->
                      id ∈ registered g) /\
          (forall m, m ∈ mapped (ghost_after g evs) -> m ∈ mapped g)
    end.
Proof.
  intros Hex. apply exec_inv in Hex.
  destruct c as [n dsptrs lengths|p]; destruct Hex as [r Hr].
  - apply remap_sound in Hr as (evs & Hl & Ht). exists evs.
    split; [exact Hl|].
    assert (Hkind : Forall (fun e => match e with
                                     | EvQBuf _ _ _ _ | EvMunmap _ _ _ => False
                                     | _ => True
                                     end) evs).
    { destruct Ht as [Hn|td Hn Htd|td qs Hn Htd Hq Hlen Hf
                     |td qs buf res buf' Hn Htd Hq Hlen Hres
                     |td qs buf buf' size p ur Hn Htd Hq Hlen Hsz Hoff Hp
                     |td qs buf buf' size p b0 Hn Htd Hq Hlen Hsz Hoff Hp Hb0 Hnz];
        [constructor|repeat constructor|..];
        apply query_trace_kind in Hq;
        (constructor; [exact I|]); apply Forall_app;
        (split; [eapply Forall_impl; [exact Hq|]; intros []; tauto|]);
        repeat constructor. }
    split; [exact Hkind|]. clear Hl Ht.
    induction evs as [|e evs IH]; intros g m Hm; [exact Hm|].
    apply Forall_cons in Hkind as [He Hkind]. cbn [ghost_after fold_left].
    apply (IH Hkind). clear IH Hkind.
    destruct e as [td|td blk res out|td buf res out|td buf res out
                  |td buf res|size td off res|addr size res|td];
      cbn [ghost_step]; try exact Hm; try contradiction.
    + destruct (res =? 0); exact Hm.
    + destruct (res =? 0); exact Hm.
    + destruct (res =? MAP_FAILED); [exact Hm|].
      cbn [mapped]. now right.
  - apply demap_sound in Hr as (evs & Hl & Ht). exists evs.
    split; [exact Hl|].
    assert (Hkind : Forall (fun e => match e with
                                     | EvQueryBlk _ _ _ _ | EvRBuf _ _ _ _
                                     | EvMmap _ _ _ _ => False
                                     | _ => True
                                     end) evs).
    { destruct Ht; repeat constructor. }
    split; [exact Hkind|]. clear Hl Ht.
    induction evs as [|e evs IH]; intros g; [auto|].
    apply Forall_cons in Hkind as [He Hkind]. cbn [ghost_after fold_left].
    destruct (IH Hkind (ghost_step g e)) as [IHr IHm]. clear IH Hkind.
    assert (Hstep : (forall id, id ∈ registered (ghost_step g e) ->
                                id ∈ registered g) /\
                    (forall m, m ∈ mapped (ghost_step g e) ->
                               m ∈ mapped g)).
    { destruct e as [td|td blk res out|td buf res out|td buf res out
                    |td buf res|size td off res|addr size res|td];
        cbn [ghost_step]; try contradiction; auto.
      - destruct (res =? 0); cbn [registered mapped]; [|auto].
        split; [|auto]. intros id Hid.
        now apply list_elem_of_filter in Hid as [_ Hid].
      - destruct (res =? 0); cbn [registered mapped]; [|auto].
        split; [auto|]. intros m Hm.
        now apply list_elem_of_filter in Hm as [_ Hm]. }
    destruct Hstep as [Hsr Hsm]. split; auto.
Qed.

(** X27: when every block is resolved, the registration succeeds and
    [mmap] answers with an address from which the pointer computed is
    NULL -- address 0 for a first block that begins on a page -- remap
    takes the mapping for failed: it asks the driver to unregister the
    buffer, closes the session and returns NULL, the cache being the one
    of the call.  The region stays mapped: nothing is unmapped. *)
Theorem remap_null_pointer (n : Z) (dsptrs lengths : list Z)
    (s s2 : state) (td : Z) (w1 w3 w4 : W) (buf buf' : tiler_buf_info)
    (size p : Z) (b0 : tiler_block_info) :
  0 < n <= TILER_MAX_NUM_BLOCKS ->
  sys_open (world s) = (td, w1) -> 0 <= td ->
  remap_blocks td dsptrs lengths (Z.to_nat n) 0
    (mk_buf n (blocks zero_buf) (offset zero_buf)) 0
    (mk_state w1 (bufs s) (log s ++ [EvOpen td]))
  = Some (Next (buf, size), s2) ->
  sys_rbuf td buf (world s2) = (0, buf', w3) ->
  offset buf' <> 0 ->
  sys_mmap size td (offset buf') w3 = (p, w4) ->
  p <> MAP_FAILED ->
  blocks buf' !! 0%nat = Some b0 ->
  u32 (p + Z.land (ssptr b0) (PAGE_SIZE - 1)) = NULL ->
  tiler_assisted_phase1_D2CReMap n dsptrs lengths s
  = Some (NULL,
          mk_state (sys_close td (snd (sys_urbuf td buf' w4)))
            (bufs s)
            (log s2 ++ [EvRBuf td buf 0 buf';
                        EvMmap size td (offset buf') p;
                        EvURBuf td buf' (fst (sys_urbuf td buf' w4));
                        EvClose td])) /\
  mk_region p size (offset buf')
    ∈ mapped (ghost_after (ghost_of (log s2))
                [EvRBuf td buf 0 buf';
                 EvMmap size td (offset buf') p;
                 EvURBuf td buf' (fst (sys_urbuf td buf' w4));
                 EvClose td]).
Proof.
  intros Hn Ho Htd Hloop Hrb Hoff Hmm Hp Hb0 Hnull. split.
  - rewrite (remap_prefix n dsptrs lengths s s2 td w1 buf size)
      by assumption.
    apply remap_blocks_inv in Hloop as (Hc & _). cbn [bufs] in Hc.
    unfold mbind, M_bind, do_rbuf. rewrite Hrb. cbn [negb orb Z.eqb].
    destruct (Z.eqb_spec (offset buf') 0); [contradiction|].
    unfold do_mmap. cbn [world bufs log]. rewrite Hmm.
    destruct (Z.eqb_spec p MAP_FAILED); [contradiction|].
    unfold read. rewrite Hb0. unfold mret, M_ret.
    rewrite Hnull. cbn [Z.eqb NULL].
    unfold do_urbuf, do_close. cbn [world bufs log].
    destruct (sys_urbuf td buf' w4) as [ur w5].
    cbn [fst snd world bufs log].
    rewrite ?Hc, <- ?app_assoc. reflexivity.
  - cbn [ghost_after fold_left ghost_step Z.eqb].
    destruct (Z.eqb_spec p MAP_FAILED); [contradiction|].
    destruct (fst (sys_urbuf td buf' w4) =? 0); cbn [mapped]; left.
Qed.

(** ** The two checks of the block loop *)

Lemma CHK_I_spec_next (holds : bool) :
  CHK_I_spec holds = ChkNext -> holds = true.
Proof. destruct holds; [reflexivity|discriminate]. Qed.



(** The blocks of a loop that has run to its end have passed the
    checks. *)
Lemma remap_blocks_passed (td : Z) (dsptrs lengths : list Z) (todo : nat) :
  forall (ix : nat) (buf : tiler_buf_info) (size : Z) (s s' : state)
         (buf' : tiler_buf_info) (size' : Z),
  remap_blocks td dsptrs lengths todo ix buf size s
  = Some (Next (buf', size'), s') ->
  exists qs,
    log s' = log s ++ qs /\
    Forall (fun e => exists i blk out len b,
                e = EvQueryBlk td blk 0 out /\
                dsptrs !! i = Some (ssptr blk) /\
                lengths !! i = Some len /\
                geometry_passed out len b) qs.
Proof.
  induction todo as [|todo IH]; intros ix buf size s s' buf' size' Hr.
  - cbn [remap_blocks] in Hr. unfold mret, M_ret in Hr.
    injection Hr as <- <- <-. exists [].
    rewrite app_nil_r. split; [reflexivity|constructor].
  - cbn [remap_blocks] in Hr.
    apply bind_inv in Hr as (r1 & s1 & Hb & Hr).
    apply remap_block_inv in Hb as (d & blk0 & Hd & Hblk & Hcase).
    destruct Hcase as [(_ & -> & _)|(Hdnz & res & out & w & Hq & -> & Hcase)];
      [discriminate|].
    destruct Hcase as [(_ & ->)
                      |(-> & Hout & len & Hlen &
                        [(_ & ->)|(b' & Hpass & ->)])];
      try discriminate.
    apply IH in Hr as (qs & Hl & Hqs). cbn [log] in Hl.
    exists (EvQueryBlk td (set_ssptr blk0 d) 0 out :: qs). split.
    + rewrite Hl, <- app_assoc. reflexivity.
    + constructor; [|exact Hqs].
      exists ix, (set_ssptr blk0 d), out, len, b'.
      cbn [set_ssptr ssptr]. auto.
Qed.

Lemma no_rbuf_existsb (evs : list event) :
  forallb (fun e => negb (is_rbuf e)) evs = true ->
  existsb is_rbuf evs = false.
Proof.
  induction evs as [|e evs IH]; [reflexivity|]. cbn [forallb existsb].
  intros [He Hevs]%andb_prop. rewrite (IH Hevs).
  now destruct (is_rbuf e).
Qed.

Lemma no_query_in (evs : list event) (td : Z) (blk out : tiler_block_info)
    (res : Z) :
  query_ssptrs evs = [] -> ~ In (EvQueryBlk td blk res out) evs.
Proof.
  induction evs as [|e evs IH]; intros Hq Hin; [destruct Hin|].
  destruct Hin as [->|Hin].
  - discriminate Hq.
  - apply IH; [|exact Hin]. destruct e; try exact Hq; discriminate.
Qed.

(** C8: the two checks of the block loop, read as the specification reads
    them: a failed check is fatal for the call and not for the process.
    A call that goes as far as the registration has had every block
    pass: for each block query it has made, the page widths of the block
    the driver answered with are consistent (for a 2-D block) and the
    size of the block as resolved is the length of the caller.  And when
    the first [k] blocks have passed and block [k] fails a check, remap
    returns to its caller -- with NULL, the session closed, the cache as
    it was, and no registration asked for. *)
Theorem geometry_fault_fails_call (n : Z) (dsptrs lengths : list Z) :
  (forall holds, CHK_I holds = CHK_I_spec holds) ->
  (forall (s s' : state) (r : Z) (evs : list event),
     tiler_assisted_phase1_D2CReMap n dsptrs lengths s = Some (r, s') ->
     log s' = log s ++ evs ->
     existsb is_rbuf evs = true ->
     forall td blk res out,
       In (EvQueryBlk td blk res out) evs ->
       exists i len b,
         dsptrs !! i = Some (ssptr blk) /\
         lengths !! i = Some len /\
         resolve_block out len = Some b /\
         (is_page (fmt out) = false -> chk_page_width out len = true) /\
         chk_size b len = true) /\
  (forall (k : nat) (s sk : state) (td : Z) (w1 w : W)
          (bufk : tiler_buf_info) (sizek d len : Z)
          (out : tiler_block_info),
     0 < n <= TILER_MAX_NUM_BLOCKS -> (k < Z.to_nat n)%nat ->
     sys_open (world s) = (td, w1) -> 0 <= td ->
     remap_blocks td dsptrs lengths k 0
       (mk_buf n (blocks zero_buf) (offset zero_buf)) 0
       (mk_state w1 (bufs s) (log s ++ [EvOpen td]))
     = Some (Next (bufk, sizek), sk) ->
     dsptrs !! k = Some d -> d <> 0 ->
     sys_query_blk td (set_ssptr zero_block d) (world sk) = (0, out, w) ->
     ssptr out <> 0 ->
     lengths !! k = Some len ->
     (is_page (fmt out) = false /\
      max_alloc_size out <> 0 /\ min_alloc_size out <> 0 /\
      chk_page_width out len = false) \/
     (exists b, resolve_block out len = Some b /\ chk_size b len = false) ->
     tiler_assisted_phase1_D2CReMap n dsptrs lengths s
     = Some (NULL,
             mk_state (sys_close td w) (bufs s)
               (log sk ++ [EvQueryBlk td (set_ssptr zero_block d) 0 out;
                           EvClose td])) /\
     exists qs,
       log sk = log s ++ EvOpen td :: qs /\
       forallb (fun e => negb (is_rbuf e)) qs = true).
Proof.
  intros Hspec. split.
  - intros s s' r evs Hr Hl Hrb td blk res out Hin.
    destruct (Z.ltb_spec 0 n) as [Hn0|Hn0];
      [destruct (Z.leb_spec n TILER_MAX_NUM_BLOCKS) as [Hn1|Hn1]|].
    2,3: unfold tiler_assisted_phase1_D2CReMap in Hr;
         destruct (Z.ltb_spec 0 n); try lia;
         destruct (Z.leb_spec n TILER_MAX_NUM_BLOCKS); try lia;
         cbn [negb orb] in Hr; inv_ret Hr;
         rewrite <- (app_nil_r (log s)) in Hl at 1;
         apply app_inv_head in Hl; subst evs; destruct Hin.
    assert (Hn : 0 < n <= TILER_MAX_NUM_BLOCKS) by lia.
    destruct (sys_open (world s)) as [td0 w1] eqn:Ho.
    destruct (Z.leb_spec 0 td0) as [Htd|Htd].
    2:{ rewrite (remap_no_driver_path n dsptrs lengths s td0 w1 Hn Ho Htd)
          in Hr.
        injection Hr as _ <-. cbn [log] in Hl.
        apply app_inv_head in Hl. subst evs. discriminate Hrb. }
    destruct (remap_inv n dsptrs lengths s s' r td0 w1 Hn Ho Htd Hr)
      as (lr & s2 & Hloop & Hcase).
    pose proof Hloop as Hinv.
    apply remap_blocks_inv in Hinv as (_ & qs & Hl2 & Hqt & _ & _).
    cbn [log] in Hl2.
    pose proof (query_trace_no_rbuf _ _ _ Hqt) as Hnr.
    destruct lr as [[buf size]|].
    2:{ destruct Hcase as [_ Hl']. exfalso.
        rewrite Hl', Hl2, <- !app_assoc in Hl.
        apply app_inv_head in Hl. subst evs.
        cbn [app existsb is_rbuf orb] in Hrb.
        rewrite existsb_app in Hrb. cbn [existsb is_rbuf orb] in Hrb.
        rewrite (no_rbuf_existsb qs Hnr) in Hrb. discriminate. }
    assert (Htail : exists tail,
               log s' = log s2 ++ tail /\ query_ssptrs tail = []).
    { destruct Hcase as (res0 & buf' & w3 & Hrbuf & Hcase).
      destruct Hcase as [(_ & _ & Hl')|(-> & Hoff & p & w4 & Hmm & Hcase)].
      - eexists. split; [exact Hl'|reflexivity].
      - destruct Hcase as [(_ & ur & Hl')|(_ & _ & b0 & _ & _ & ->)].
        + eexists. split; [exact Hl'|reflexivity].
        + cbn [log]. eexists. split; reflexivity. }
    destruct Htail as (tail & Hl' & Htail).
    apply remap_blocks_passed in Hloop as (qs' & Hl2' & Hpass).
    cbn [log] in Hl2'. rewrite Hl2' in Hl2.
    apply app_inv_head in Hl2. subst qs'.
    rewrite Hl', Hl2', <- !app_assoc in Hl.
    apply app_inv_head in Hl. subst evs.
    apply in_app_or in Hin as [[Hin|[]]|Hin]; [discriminate|].
    apply in_app_or in Hin as [Hin|Hin].
    + rewrite Forall_forall in Hpass.
      apply list_elem_of_In, Hpass in Hin
        as (i & blk' & out' & len & b & Heq & Hd & Hlen & Hr' & Hc1 & Hc2).
      injection Heq as -> -> -> ->.
      exists i, len, b. split; [assumption|]. split; [assumption|].
      split; [assumption|]. split.
      * intros Hp. apply CHK_I_spec_next. rewrite <- Hspec. now apply Hc1.
      * apply CHK_I_spec_next. now rewrite <- Hspec.
    + now apply no_query_in in Hin.
  - intros k s sk td w1 w bufk sizek d len out
           Hn Hk Ho Htd Hloop Hd Hdnz Hq Hss Hlen Hfault.
    assert (Hgf : geometry_fault out len).
    { destruct Hfault as [(Hp & H1 & H2 & Hc)|(b & Hr & Hc)].
      - left. rewrite Hspec, Hc. auto.
      - destruct (is_page (fmt out)) eqn:Hp.
        + right. exists b. rewrite !Hspec, Hc.
          split; [assumption|]. split; [congruence|reflexivity].
        + destruct (chk_page_width out len) eqn:Hc1.
          * right. exists b. rewrite !Hspec, Hc, Hc1.
            split; [assumption|]. split; reflexivity.
          * left. unfold resolve_block in Hr. rewrite Hp in Hr.
            destruct (resolve_stride_divisors out b len Hr) as [H1 H2].
            rewrite Hspec, Hc1. auto. }
    pose proof Hloop as Hinv.
    apply remap_blocks_inv in Hinv as (Hc & qs & Hl2 & Hqt & _ & _).
    cbn [bufs log] in Hc, Hl2. split.
    + unfold tiler_assisted_phase1_D2CReMap.
      destruct (Z.ltb_spec 0 n); [|lia].
      destruct (Z.leb_spec n TILER_MAX_NUM_BLOCKS); [|lia].
      cbn [negb orb].
      erewrite bind_Some; [|unfold do_open; rewrite Ho; reflexivity].
      destruct (Z.leb_spec 0 td); [|lia]. cbn [negb].
      replace (Z.to_nat n) with (k + S (Z.to_nat n - S k))%nat by lia.
      assert (Hb : blocks bufk !! k = Some zero_block).
      { eapply remap_blocks_next_zero; [|exact Hloop]. lia. }
      erewrite bind_Some.
      2:{ rewrite remap_blocks_app, Hloop. cbn [remap_blocks Nat.add].
          erewrite bind_Some;
            [|now apply remap_block_geometry_fail
                with (d := d) (len := len) (blk0 := zero_block)
                     (out := out) (w := w)].
          reflexivity. }
      unfold mbind, M_bind, do_close, mret, M_ret. cbn [world bufs log].
      rewrite Hc, <- app_assoc. reflexivity.
    + exists qs. split.
      * rewrite Hl2, <- app_assoc. reflexivity.
      * exact (query_trace_no_rbuf _ _ _ Hqt).
Qed.

End Program.

(** * Examples on a scripted world *)



Lemma remap_bad_count_witness :
  tiler_assisted_phase1_D2CReMap 16 CHK_I_spec 17 [] [] (start area_world)
  = Some (NULL, start area_world).
Proof.
  apply (remap_bad_count 16 CHK_I_spec 17 [] [] (start area_world)). right. lia.
Defined.

(** Two blocks, the device pointer of the second being zero. *)
Lemma translation_fault_witness :
  exists s',
    tiler_assisted_phase1_D2CReMap 16 CHK_I_spec 2 [1610612736; 0] [524288; 524288]
      (start area_world) = Some (NULL, s') /\
    bufs s' = [] /\
    forallb (fun e => negb (is_rbuf e)) (log s') = true /\
    head (log s') = Some (EvOpen 3) /\
    last (log s') = Some (EvClose 3).
Proof.
  eexists. split.
  - eapply (proj2 (translation_fault 16 CHK_I_spec 2 [1610612736; 0] [524288; 524288]
                     1%nat ltac:(simpl; lia) eq_refl)
              (start area_world) _ 3 area_world).
    + lia.
    + reflexivity.
    + lia.
    + reflexivity.
  - repeat split.
Defined.

Lemma mapping_failure_cleanup_witness :
  exists s',
    tiler_assisted_phase1_D2CReMap 16 CHK_I_spec 1 [1610612736] [524288]
      (start fail_map_world) = Some (NULL, s') /\
    bufs s' = [] /\
    existsb (fun e => match e with EvURBuf 3 _ 0 => true | _ => false end)
            (log s') = true /\
    last (log s') = Some (EvClose 3).
Proof.
  eexists. split.
  - eapply (mapping_failure_cleanup 16 CHK_I_spec 1 [1610612736] [524288]
              (start fail_map_world) _ 3 fail_map_world fail_map_world
              fail_map_world).
    + lia.
    + reflexivity.
    + lia.
    + reflexivity.
    + reflexivity.
    + simpl. discriminate.
    + reflexivity.
  - repeat split.
Defined.



Lemma translation_is_identity_witness :
  exists r s',
    tiler_assisted_phase1_D2CReMap 16 CHK_I_spec 1 [1610612736] [524288]
      (start area_world) = Some (r, s') /\
    exists (evs : list event) (k : nat),
      log s' = log (start area_world) ++ evs /\
      (k <= Z.to_nat 1)%nat /\
      query_ssptrs evs = take k [1610612736] /\
      Forall (fun d => d <> 0) (take k [1610612736]) /\
      (r <> NULL -> k = Z.to_nat 1).
Proof.
  destruct (tiler_assisted_phase1_D2CReMap 16 CHK_I_spec 1 [1610612736] [524288]
              (start area_world)) as [[r s']|] eqn:E.
  - exists r, s'. split; [reflexivity|].
    exact (proj1 (translation_is_identity 16 CHK_I_spec 1 [1610612736] [524288])
             (start area_world) s' r E).
  - vm_compute in E. discriminate.
Defined.

(** A pointer 100 bytes into its page, cached with offset 4096. *)
Lemma demap_unmaps_witness :
  exists r s',
    tiler_assisted_phase1_DeMap 16 1 1073741924
      (mk_state area_world [mk_ReMapData 1073741924 4096] [])
    = Some (r, s') /\
    r = 0 /\ bufs s' = [] /\
    In (EvMunmap 1073741824 524288 0) (log s').
Proof.
  destruct (demap_unmaps 16 1 1073741924
              (mk_state area_world [mk_ReMapData 1073741924 4096] [])
              3 area_world area_world 4096 []
              (mk_buf 1 example_blocks 4096))
    as (Hrun & _);
    [lia|reflexivity|lia|reflexivity|discriminate|reflexivity
    |simpl; lia|vm_compute; split; [discriminate|reflexivity]|].
  eexists _, _. split; [exact Hrun|].
  simpl. repeat split. right. right. right. left. reflexivity.
Defined.




(** A 32-bit block of 2 pages by 64 rows remapped with a length of 65
    pages: the widths are consistent, the block resolves to 32 rows, and
    its size is not the length.  Remap returns NULL, with nothing
    registered and the session closed. *)
Lemma geometry_fault_fails_call_witness :
  exists s',
    tiler_assisted_phase1_D2CReMap 16 CHK_I_spec 1 [1610612736] [266240]
      (start area_world) = Some (NULL, s') /\
    bufs s' = [] /\
    forallb (fun e => negb (is_rbuf e)) (log s') = true /\
    last (log s') = Some (EvClose 3).
Proof.
  destruct (geometry_fault_fails_call 16 CHK_I_spec 1 [1610612736] [266240]
              (fun _ => eq_refl)) as [_ Hfail].
  destruct (Hfail 0%nat (start area_world)
              (mk_state area_world [] [EvOpen 3]) 3 area_world area_world
              (mk_buf 1 (blocks (zero_buf 16)) 0) 0 1610612736 266240
              (mk_block PIXEL_FMT_32BIT 0 8192 64 0 0 1610612736))
    as [Hrun _].
  - lia.
  - simpl; lia.
  - reflexivity.
  - lia.
  - reflexivity.
  - reflexivity.
  - discriminate.
  - reflexivity.
  - discriminate.
  - reflexivity.
  - right. eexists. split; [vm_compute; reflexivity|].
    vm_compute. reflexivity.
  - eexists. split; [exact Hrun|]. repeat split.
Defined.

(** One registered buffer of one block, mapped with the size of the
    block, is live. *)
Lemma live_example (g : ghost) (base id : Z) (blk : tiler_block_info) :
  g = mk_ghost [(id, [blk])] [mk_region base (u32 (total_def_size [blk])) id] ->
  live g base id.
Proof. intros ->. exists [blk]. split; left. Qed.

(** C9, as stated, fails: a remap, and a demap whose buffer query the
    driver fails.  After the remap the cache and the log agree.  The demap
    has taken the element out of the cache before the query; it returns
    the error of the query without unregistering or unmapping, and the
    buffer is still registered and mapped, with no element in the cache. *)
Lemma cache_iff_live_counterexample :
  exists P s1 r s2,
    run 16 1 CHK_I_spec [CallReMap 1 [1610612736] [524288]] (start qbuf_fail_world)
      = Some s1 /\
    tiler_assisted_phase1_D2CReMap 16 CHK_I_spec 1 [1610612736] [524288]
      (start qbuf_fail_world) = Some (P, s1) /\
    P = 1073741824 /\
    cache_iff_live s1 /\
    tiler_assisted_phase1_DeMap 16 1 P s1 = Some (r, s2) /\
    r = -1 /\
    bufs s2 = [] /\
    live (ghost_of (log s2)) (page_floor P) 4096 /\
    ~ cache_iff_live s2.
Proof.
  destruct (tiler_assisted_phase1_D2CReMap 16 CHK_I_spec 1 [1610612736] [524288]
              (start qbuf_fail_world)) as [[P s1]|] eqn:E;
    [|vm_compute in E; discriminate].
  pose proof E as E'. vm_compute in E'. injection E' as <- <-.
  match type of E with
  | _ = Some (?p, ?s) => set (P := p) in *; set (s1 := s) in *
  end.
  destruct (tiler_assisted_phase1_DeMap 16 1 P s1) as [[r s2]|] eqn:D;
    [|vm_compute in D; discriminate].
  pose proof D as D'. vm_compute in D'. injection D' as <- <-.
  match type of D with
  | _ = Some (?p, ?s) => set (r := p) in *; set (s2 := s) in *
  end.
  set (blk := mk_block PIXEL_FMT_32BIT 0 2048 64 2048 0 1610612736).
  assert (Hlive1 : live (ghost_of (log s1)) (page_floor P) 4096).
  { apply (live_example _ _ _ blk). vm_compute. reflexivity. }
  assert (Hlive2 : live (ghost_of (log s2)) (page_floor P) 4096).
  { apply (live_example _ _ _ blk). vm_compute. reflexivity. }
  exists P, s1, r, s2.
  split; [cbn [run exec]; rewrite E; reflexivity|].
  split; [reflexivity|]. split; [reflexivity|]. split.
  { split; [|split].
    - cbn [s1 bufs fmap list_fmap bufPtr]. apply NoDup_singleton.
    - intros ad Had. cbn [s1 bufs] in Had.
      apply list_elem_of_singleton in Had as ->. exact Hlive1.
    - intros base id (blks & Hreg & Hmap).
      assert (Hg : ghost_of (log s1)
                   = mk_ghost [(4096, [blk])]
                              [mk_region 1073741824 524288 4096])
        by (vm_compute; reflexivity).
      rewrite Hg in Hreg, Hmap. cbn [registered mapped] in Hreg, Hmap.
      apply list_elem_of_singleton in Hreg.
      apply list_elem_of_singleton in Hmap.
      assert (Hid : id = 4096) by congruence.
      assert (Hb : base = 1073741824) by congruence.
      subst id base.
      eexists. split; [left|]. split; reflexivity. }
  split; [reflexivity|]. split; [reflexivity|].
  split; [reflexivity|]. split; [exact Hlive2|].
  intros (_ & _ & Hconv).
  destruct (Hconv _ _ Hlive2) as (ad & Had & _).
  cbn [s2 bufs] in Had. now apply elem_of_nil in Had.
Qed.

(** The assumptions on the driver, one event of a log at a time. *)
Lemma registered_singleton (id : Z) (blks blks' : list tiler_block_info) :
  (id, blks') ∈ [(id, blks)] -> blks' = blks.
Proof. intros Hin. apply list_elem_of_singleton in Hin. congruence. Qed.

Lemma env_ok_cons (g g' : ghost) (e : event) (evs : list event) :
  fresh g e -> ghost_step g e = g' -> env_ok g' evs -> env_ok g (e :: evs).
Proof. intros Hf <- Hok. split; assumption. Qed.

Ltac env_plain :=
  eapply env_ok_cons; [exact I|vm_compute; reflexivity|].
Ltac env_rbuf :=
  eapply env_ok_cons;
  [intros _; vm_compute; apply not_elem_of_nil|vm_compute; reflexivity|].
Ltac env_mmap :=
  eapply env_ok_cons;
  [intros _; split; [lia|split; [vm_compute; reflexivity|]];
   intros m Hm; vm_compute in Hm; now apply elem_of_nil in Hm
  |vm_compute; reflexivity|].
Ltac env_qbuf :=
  eapply env_ok_cons;
  [intros _; split; [vm_compute; reflexivity|];
   intros blks Hb; apply registered_singleton in Hb;
   subst blks; vm_compute; reflexivity
  |vm_compute; reflexivity|].

(** A remap, the demap of its pointer, and a second remap, on the driver
    of the examples: the second buffer is in the cache, registered and
    mapped. *)
Lemma cache_entries_are_live_witness :
  exists s,
    run 16 1 CHK_I_spec [CallReMap 1 [1610612736] [524288]; CallDeMap 1073741824;
              CallReMap 1 [1610612836] [524288]]
        (start area_world) = Some s /\
    bufs s = [mk_ReMapData 1073741924 4096] /\
    env_ok (mk_ghost [] []) (log s) /\
    cache_entries_live s.
Proof.
  destruct (run 16 1 CHK_I_spec [CallReMap 1 [1610612736] [524288];
                      CallDeMap 1073741824;
                      CallReMap 1 [1610612836] [524288]] (start area_world))
    as [s|] eqn:E; [|vm_compute in E; discriminate].
  exists s. split; [reflexivity|].
  assert (Hok : bufs s = [mk_ReMapData 1073741924 4096] /\
                env_ok (mk_ghost [] []) (log s)).
  { pose proof E as E'. vm_compute in E'. injection E' as <-.
    split; [reflexivity|]. cbn [log].
    clear E.
    env_plain. env_plain. env_rbuf. env_mmap. env_plain.
    env_plain. env_qbuf. env_plain. env_plain. env_plain.
    env_plain. env_plain. env_rbuf. env_mmap. env_plain.
    exact I. }
  destruct Hok as [Hc Hok].
  split; [exact Hc|]. split; [exact Hok|].
  exact (cache_entries_are_live 16 1 CHK_I_spec _ area_world s E Hok).
Defined.

(** Two raw-page blocks of one and two pages: three pages are mapped, the
    pointer is cached, and the demap of the pointer unmaps three pages and
    returns 0. *)
Example raw_pages_scenario :
  exists s1 s2,
    tiler_assisted_phase1_D2CReMap 16 CHK_I_spec 2 [1610612736; 1610678272]
      [4096; 8192] (start page_world) = Some (1073741824, s1) /\
    In (EvMmap 12288 3 4096 1073741824) (log s1) /\
    bufs s1 = [mk_ReMapData 1073741824 4096] /\
    tiler_assisted_phase1_DeMap 16 1 1073741824 s1 = Some (0, s2) /\
    In (EvMunmap 1073741824 12288 0) (log s2) /\
    bufs s2 = [].
Proof.
  eexists _, _. split; [vm_compute; reflexivity|].
  split; [simpl; tauto|]. split; [reflexivity|].
  split; [vm_compute; reflexivity|].
  split; [simpl; tauto|]. reflexivity.
Qed.

(** * Examples for the further properties *)

(** A 32-bit block of 2048 by 32, and the 64 pages it has. *)
Lemma def_size_area_pages_witness :
  let blk := mk_block PIXEL_FMT_32BIT 0 2048 32 2048 0 1610612736 in
  def_size blk = 64 * PAGE_SIZE /\
  def_size blk mod PAGE_SIZE = 0 /\
  (64 * PAGE_SIZE) mod PAGE_SIZE = 0.
Proof.
  intros blk.
  destruct (def_size_area_pages blk (64 * PAGE_SIZE) eq_refl)
    as (_ & Hm & Hc).
  split; [reflexivity|]. split; [exact Hm|].
  apply Hc; [split; [discriminate|reflexivity]|reflexivity].
Defined.

Lemma remap_cache_del_comm_witness :
  let cache := [mk_ReMapData 4096 1; mk_ReMapData 8192 2;
                mk_ReMapData 4096 3] in
  fst (remap_cache_del 4096 (snd (remap_cache_del 8192 cache))) = 1 /\
  snd (remap_cache_del 4096 (snd (remap_cache_del 8192 cache)))
  = [mk_ReMapData 4096 3] /\
  snd (remap_cache_del 8192 (snd (remap_cache_del 4096 cache)))
  = [mk_ReMapData 4096 3].
Proof.
  intros cache.
  destruct (remap_cache_del_comm 4096 8192 cache ltac:(lia)) as [H1 H2].
  split; [rewrite H1; reflexivity|]. split; [|rewrite <- H2]; reflexivity.
Defined.

(** No array is passed at all: nothing is read of them. *)
Lemma remap_no_driver_witness :
  tiler_assisted_phase1_D2CReMap 16 CHK_I_spec 1 [] [] (start no_driver_world)
  = Some (NULL, mk_state no_driver_world [] [EvOpen (-1)]).
Proof.
  apply (remap_no_driver 16 CHK_I_spec 1 [] [] (start no_driver_world) (-1)
           no_driver_world); [lia|reflexivity|lia].
Defined.

(** Two blocks, the query for the first of which fails: there is one
    query in the log. *)
Lemma remap_query_fault_witness :
  exists s',
    tiler_assisted_phase1_D2CReMap 16 CHK_I_spec 2 [1610612736; 1610678272]
      [524288; 524288] (start query_fail_world) = Some (NULL, s') /\
    bufs s' = [] /\
    log s' = [EvOpen 3;
              EvQueryBlk 3 (set_ssptr zero_block 1610612736) (-1)
                (mk_block PIXEL_FMT_32BIT 0 8192 64 0 0 1610612736);
              EvClose 3].
Proof.
  eexists. split.
  - eapply (remap_query_fault 16 CHK_I_spec 2 [1610612736; 1610678272]
              [524288; 524288] 0%nat (start query_fail_world) _ 3
              query_fail_world query_fail_world _ _ 1610612736 (-1)).
    + lia.
    + simpl. lia.
    + reflexivity.
    + lia.
    + reflexivity.
    + reflexivity.
    + discriminate.
    + reflexivity.
    + left. discriminate.
  - split; reflexivity.
Defined.

Lemma remap_rbuf_fault_witness :
  exists s',
    tiler_assisted_phase1_D2CReMap 16 CHK_I_spec 1 [1610612736] [524288]
      (start rbuf_fail_world) = Some (NULL, s') /\
    bufs s' = [] /\
    existsb is_rbuf (log s') = true /\
    last (log s') = Some (EvClose 3).
Proof.
  eexists. split.
  - eapply (remap_rbuf_fault 16 CHK_I_spec 1 [1610612736] [524288]
              (start rbuf_fail_world) _ 3 rbuf_fail_world rbuf_fail_world
              _ _ _ (-1)).
    + lia.
    + reflexivity.
    + lia.
    + reflexivity.
    + reflexivity.
    + left. discriminate.
  - repeat split.
Defined.

(** The element for the pointer stays in the cache. *)
Lemma demap_no_driver_witness :
  tiler_assisted_phase1_DeMap 16 1 4096
    (mk_state no_driver_world [mk_ReMapData 4096 7] [])
  = Some (1, mk_state no_driver_world [mk_ReMapData 4096 7] [EvOpen (-1)]).
Proof.
  apply (demap_no_driver 16 1 4096
           (mk_state no_driver_world [mk_ReMapData 4096 7] []) (-1)
           no_driver_world); [reflexivity|lia].
Defined.

Lemma demap_query_fault_witness :
  exists s',
    tiler_assisted_phase1_DeMap 16 1 1073741824
      (mk_state qbuf_fail_world [mk_ReMapData 1073741824 4096] [])
    = Some (-1, s') /\
    bufs s' = [] /\ length (log s') = 3%nat.
Proof.
  eexists. split.
  - eapply (demap_query_fault 16 1 1073741824
              (mk_state qbuf_fail_world [mk_ReMapData 1073741824 4096] [])
              3 qbuf_fail_world qbuf_fail_world 4096 (-1) []).
    + reflexivity.
    + lia.
    + reflexivity.
    + discriminate.
    + reflexivity.
    + discriminate.
  - split; reflexivity.
Defined.

Lemma call_session_witness :
  exists s',
    exec 16 1 CHK_I_spec (CallReMap 1 [1610612736] [524288]) (start area_world)
    = Some s' /\
    exists evs,
      log s' = log (start area_world) ++ evs /\
      (evs = [] \/
       exists td,
         (td < 0 /\ evs = [EvOpen td]) \/
         (0 <= td /\
          exists mid,
            evs = EvOpen td :: mid ++ [EvClose td] /\
            forallb (fun e => negb (is_session e)) mid = true)).
Proof.
  destruct (exec 16 1 CHK_I_spec (CallReMap 1 [1610612736] [524288])
              (start area_world)) as [s'|] eqn:E;
    [|vm_compute in E; discriminate].
  exists s'. split; [reflexivity|].
  exact (call_session 16 1 CHK_I_spec _ (start area_world) s' E).
Defined.

Lemma remap_cache_effect_witness :
  exists r s',
    tiler_assisted_phase1_D2CReMap 16 CHK_I_spec 1 [1610612736] [524288]
      (mk_state area_world [mk_ReMapData 1073741824 8192] [])
    = Some (r, s') /\
    r = 1073741824 /\
    exists id,
      id <> 0 /\
      bufs s' = [mk_ReMapData 1073741824 8192; mk_ReMapData r id].
Proof.
  destruct (tiler_assisted_phase1_D2CReMap 16 CHK_I_spec 1 [1610612736] [524288]
              (mk_state area_world [mk_ReMapData 1073741824 8192] []))
    as [[r s']|] eqn:E; [|vm_compute in E; discriminate].
  assert (Hr : r = 1073741824).
  { pose proof E as E'. vm_compute in E'. now injection E' as <- _. }
  exists r, s'. split; [reflexivity|]. split; [exact Hr|].
  apply (proj2 (remap_cache_effect 16 CHK_I_spec 1 [1610612736] [524288] _ s' r E)).
  rewrite Hr. discriminate.
Defined.

(** The driver fails the buffer query: the element has left the cache all
    the same. *)
Lemma demap_cache_effect_witness :
  exists r s',
    tiler_assisted_phase1_DeMap 16 1 4096
      (mk_state qbuf_fail_world
                [mk_ReMapData 8192 5; mk_ReMapData 4096 7] [])
    = Some (r, s') /\
    bufs s' = [mk_ReMapData 8192 5].
Proof.
  destruct (tiler_assisted_phase1_DeMap 16 1 4096
              (mk_state qbuf_fail_world
                        [mk_ReMapData 8192 5; mk_ReMapData 4096 7] []))
    as [[r s']|] eqn:E; [|vm_compute in E; discriminate].
  exists r, s'. split; [reflexivity|].
  destruct (demap_cache_effect 16 1 4096 _ s' r E)
    as (td & evs & Hl & Hc & _).
  assert (Htd : td = 3).
  { pose proof E as E'. vm_compute in E'. injection E' as _ <-.
    cbn [log app] in Hl. now injection Hl as <- _. }
  rewrite Hc, Htd. reflexivity.
Defined.

Lemma demap_zero_inv_witness :
  exists s' td id buf' size,
    tiler_assisted_phase1_DeMap 16 1 1073741924
      (mk_state area_world [mk_ReMapData 1073741924 4096] [])
    = Some (0, s') /\
    remap_cache_del 1073741924 [mk_ReMapData 1073741924 4096]
    = (id, bufs s') /\
    In (EvURBuf td buf' 0) (log s') /\
    In (EvMunmap (page_floor 1073741924) size 0) (log s').
Proof.
  destruct (tiler_assisted_phase1_DeMap 16 1 1073741924
              (mk_state area_world [mk_ReMapData 1073741924 4096] []))
    as [[r s']|] eqn:E; [|vm_compute in E; discriminate].
  assert (Hr : r = 0).
  { pose proof E as E'. vm_compute in E'. now injection E' as <- _. }
  subst r.
  destruct (demap_zero_inv 16 1 1073741924 _ s' ltac:(lia) E)
    as (td & id & buf' & size & _ & _ & Hdel & _ & _ & Hl).
  exists s', td, id, buf', size. split; [reflexivity|].
  split; [exact Hdel|]. rewrite Hl. cbn [log app].
  split; simpl; tauto.
Defined.

Lemma cache_entries_nonzero_witness :
  exists s,
    run 16 1 CHK_I_spec [CallReMap 1 [1610612736] [524288]; CallDeMap 4096;
              CallReMap 1 [1610612836] [524288]]
        (start area_world) = Some s /\
    length (bufs s) = 2%nat /\
    Forall (fun ad => bufPtr ad <> NULL /\ tiler_id ad <> 0) (bufs s) /\
    (fst (remap_cache_del 4096 (bufs s)) = 0
     <-> has_entry 4096 (bufs s) = false).
Proof.
  destruct (run 16 1 CHK_I_spec [CallReMap 1 [1610612736] [524288]; CallDeMap 4096;
                      CallReMap 1 [1610612836] [524288]]
                (start area_world)) as [s|] eqn:E;
    [|vm_compute in E; discriminate].
  exists s. split; [reflexivity|]. split.
  { pose proof E as E'. vm_compute in E'. now injection E' as <-. }
  destruct (cache_entries_nonzero 16 1 CHK_I_spec _ area_world s E) as [Hall Hz].
  split; [exact Hall|apply Hz].
Defined.

Lemma remap_maps_total_size_witness :
  exists r s',
    tiler_assisted_phase1_D2CReMap 16 CHK_I_spec 2 [1610612736; 1610678272]
      [4096; 8192] (start page_world) = Some (r, s') /\
    exists td qs buf buf' size p,
      log s' = log (start page_world)
               ++ EvOpen td
                  :: qs ++ [EvRBuf td buf 0 buf';
                            EvMmap size td (offset buf') p;
                            EvClose td] /\
      query_trace td [1610612736; 1610678272] qs /\
      length qs = 2%nat /\ num_blocks buf = 2 /\
      size = u32 (total_def_size (queried_blocks buf)).
Proof.
  destruct (tiler_assisted_phase1_D2CReMap 16 CHK_I_spec 2 [1610612736; 1610678272]
              [4096; 8192] (start page_world)) as [[r s']|] eqn:E;
    [|vm_compute in E; discriminate].
  assert (Hr : r <> NULL).
  { pose proof E as E'. vm_compute in E'. injection E' as <- _.
    discriminate. }
  exists r, s'. split; [reflexivity|].
  destruct (remap_maps_total_size 16 CHK_I_spec 2 _ _ _ s' r E Hr)
    as (td & qs & buf & buf' & size & p & Hl & Hqt & Hq & Hn & _ & _ & _ & Hs).
  exists td, qs, buf, buf', size, p. auto.
Defined.

(** Two raw-page blocks of one and two pages. *)
Lemma raw_pages_size_witness :
  exists buf size s',
    remap_blocks CHK_I_spec 3 [1610612736; 1610678272] [4096; 8192] (Z.to_nat 2) 0
      (mk_buf 2 (blocks (zero_buf 16)) (offset (zero_buf 16))) 0
      (start page_world)
    = Some (Next (buf, size), s') /\
    dim_len <$> queried_blocks buf = [4096; 8192] /\
    size = 12288.
Proof.
  destruct (remap_blocks CHK_I_spec 3 [1610612736; 1610678272] [4096; 8192]
              (Z.to_nat 2) 0
              (mk_buf 2 (blocks (zero_buf 16)) (offset (zero_buf 16))) 0
              (start page_world)) as [[[[buf size]|] s']|] eqn:E;
    [|vm_compute in E; discriminate|vm_compute in E; discriminate].
  assert (Hall : Forall (fun b => is_page (fmt b) = true)
                        (queried_blocks buf)).
  { pose proof E as E'. vm_compute in E'. injection E' as <- _ _.
    repeat constructor. }
  exists buf, size, s'. split; [reflexivity|].
  destruct (raw_pages_size 16 CHK_I_spec 3 2 _ _ _ s' buf size E Hall)
    as (Hd & _ & Hs).
  split; [exact Hd|exact Hs].
Defined.

Lemma query_requests_zeroed_witness :
  exists r s' evs,
    tiler_assisted_phase1_D2CReMap 16 CHK_I_spec 2 [1610612736; 1610678272]
      [4096; 8192] (start page_world) = Some (r, s') /\
    log s' = log (start page_world) ++ evs /\
    forall td blk res out,
      In (EvQueryBlk td blk res out) evs ->
      ssptr blk <> 0 /\ blk = set_ssptr zero_block (ssptr blk).
Proof.
  destruct (tiler_assisted_phase1_D2CReMap 16 CHK_I_spec 2 [1610612736; 1610678272]
              [4096; 8192] (start page_world)) as [[r s']|] eqn:E;
    [|vm_compute in E; discriminate].
  destruct (query_requests_zeroed 16 CHK_I_spec 2 _ _ _ s' r E) as (evs & Hl & Hq).
  exists r, s', evs. auto.
Defined.

(** Remap of one block whose driver pointer lies 100 bytes into its page,
    and the demap of the pointer: 128 pages are mapped at 0x40000000, and
    128 pages are unmapped there. *)
Lemma demap_unmaps_mapped_region_witness :
  exists s1 r s2 size um,
    tiler_assisted_phase1_D2CReMap 16 CHK_I_spec 1 [1610612836] [524288]
      (start area_world) = Some (1073741924, s1) /\
    In (EvMmap size 3 4096 1073741824) (log s1) /\
    tiler_assisted_phase1_DeMap 16 1 1073741924 s1 = Some (r, s2) /\
    bufs s2 = [] /\
    In (EvMunmap 1073741824 size um) (log s2).
Proof.
  destruct (tiler_assisted_phase1_D2CReMap 16 CHK_I_spec 1 [1610612836] [524288]
              (start area_world)) as [[P s1]|] eqn:E;
    [|vm_compute in E; discriminate].
  assert (HP : P = 1073741924 /\ world s1 = area_world /\
               log s1 = [EvOpen 3;
                         EvQueryBlk 3 (set_ssptr zero_block 1610612836) 0
                           (mk_block PIXEL_FMT_32BIT 0 8192 64 0 0
                                     1610612836);
                         EvRBuf 3
                           (mk_buf 1
                              (mk_block PIXEL_FMT_32BIT 0 2048 64 2048 0
                                        1610612836
                               :: replicate 15 zero_block) 0)
                           0
                           (mk_buf 1
                              (mk_block PIXEL_FMT_32BIT 0 2048 64 2048 0
                                        1610612836
                               :: replicate 15 zero_block) 4096);
                         EvMmap 524288 3 4096 1073741824;
                         EvClose 3]).
  { pose proof E as E'. vm_compute in E'. injection E' as <- <-.
    repeat split. }
  destruct HP as (-> & Hw & Hlog).
  destruct (demap_unmaps_mapped_region 16 1 CHK_I_spec 1 [1610612836] [524288]
              (start area_world) s1 1073741924 E)
    as (tdr & buf & buf' & size & p & Hrb & Hmm & Hpage & Hdemap);
    [discriminate|reflexivity|].
  rewrite Hlog in Hrb, Hmm.
  assert (Hev : tdr = 3 /\ size = 524288 /\ offset buf' = 4096 /\
                p = 1073741824 /\
                buf = mk_buf 1
                        (mk_block PIXEL_FMT_32BIT 0 2048 64 2048 0
                                  1610612836
                         :: replicate 15 zero_block) 0).
  { cbn [In] in Hrb, Hmm.
    destruct Hrb as [Hrb|[Hrb|[Hrb|[Hrb|[Hrb|[]]]]]]; try discriminate.
    destruct Hmm as [Hmm|[Hmm|[Hmm|[Hmm|[Hmm|[]]]]]]; try discriminate.
    injection Hrb as <- <- <-. injection Hmm as <- <-. auto. }
  destruct Hev as (-> & -> & Hoff & -> & ->).
  destruct (Hdemap 3 area_world area_world (mk_buf 1 example_blocks 4096))
    as (r & s2 & ur & um & HD & Hc & Hl).
  { now rewrite Hw. }
  { lia. }
  { rewrite Hoff. reflexivity. }
  { simpl. lia. }
  { reflexivity. }
  exists s1, r, s2, 524288, um.
  split; [reflexivity|].
  split; [rewrite Hlog; simpl; tauto|].
  split; [exact HD|]. split; [exact Hc|].
  rewrite Hl. apply in_or_app. right.
  rewrite (Hpage ltac:(lia) eq_refl). simpl. tauto.
Defined.

(** Two blocks of one and two pages, laid out from 0x40000000 on. *)
Lemma fill_pointers_layout_witness :
  let b1 := mk_block PIXEL_FMT_PAGE 4096 0 0 0 0 1610612736 in
  let b2 := mk_block PIXEL_FMT_PAGE 8192 0 0 0 0 1610678272 in
  blocks (fill_pointers 1073741824 2 0 (mk_buf 2 [b1; b2] 4096) 0)
    !! 1%nat
  = Some (set_ptr b2 1073745920).
Proof.
  intros b1 b2.
  destruct (fill_pointers_layout 1073741824 2 0 (mk_buf 2 [b1; b2] 4096) 0)
    as (_ & _ & Hj).
  rewrite (Hj 1%nat b2 eq_refl). reflexivity.
Defined.





Lemma calls_never_witness :
  exists s' evs,
    exec 16 1 CHK_I_spec (CallDeMap 1073741924)
      (mk_state area_world [mk_ReMapData 1073741924 4096] [])
    = Some s' /\
    log s' = evs /\
    Forall (fun e => match e with
                     | EvQueryBlk _ _ _ _ | EvRBuf _ _ _ _
                     | EvMmap _ _ _ _ => False
                     | _ => True
                     end) evs.
Proof.
  destruct (exec 16 1 CHK_I_spec (CallDeMap 1073741924)
              (mk_state area_world [mk_ReMapData 1073741924 4096] []))
    as [s'|] eqn:E; [|vm_compute in E; discriminate].
  destruct (calls_never 16 1 CHK_I_spec _ _ s' E) as (evs & Hl & Hk & _).
  exists s', evs. split; [reflexivity|]. split; [exact Hl|exact Hk].
Defined.

(** [mmap] answers address 0 for a block that begins on a page. *)
Lemma remap_null_pointer_witness :
  exists s',
    tiler_assisted_phase1_D2CReMap 16 CHK_I_spec 1 [1610612736] [524288]
      (start null_map_world) = Some (NULL, s') /\
    bufs s' = [] /\
    In (EvMmap 524288 3 4096 0) (log s') /\
    mk_region 0 524288 4096 ∈ mapped (ghost_of (log s')).
Proof.
  destruct (remap_null_pointer 16 CHK_I_spec 1 [1610612736] [524288]
              (start null_map_world)
              (mk_state null_map_world []
                 [EvOpen 3;
                  EvQueryBlk 3 (set_ssptr zero_block 1610612736) 0
                    (mk_block PIXEL_FMT_32BIT 0 8192 64 0 0 1610612736)])
              3 null_map_world null_map_world null_map_world
              (mk_buf 1
                 (mk_block PIXEL_FMT_32BIT 0 2048 64 2048 0 1610612736
                  :: replicate 15 zero_block) 0)
              (mk_buf 1
                 (mk_block PIXEL_FMT_32BIT 0 2048 64 2048 0 1610612736
                  :: replicate 15 zero_block) 4096)
              524288 0
              (mk_block PIXEL_FMT_32BIT 0 2048 64 2048 0 1610612736))
    as [Hrun Hmapped];
    [lia|reflexivity|lia|vm_compute; reflexivity|reflexivity|discriminate
    |reflexivity|discriminate|reflexivity|reflexivity|].
  eexists. split; [exact Hrun|]. split; [reflexivity|].
  split; [simpl; tauto|].
  vm_compute. left.
Defined.
